(** * soccerai.data.dataset: the World Cup 2022 dataset build

    A shallow embedding of [src/soccerai/data/dataset.py]
    ([WorldCup2022Dataset]) and the properties of its feature derivation,
    its phase-aware split and its fit/transform discipline.

    Conventions of the embedding.
    - A polars [DataFrame] is a list of rows; a row maps column names to
      dynamically typed, nullable values.
    - A raised exception is [None] in the option monad.
    - The floating-point cells of a frame are kept abstract behind the
      [FloatOps] interface; nothing below depends on how they round.
    - [val_ratio] is a Python [float], an IEEE 754 binary64 number, and
      the number of training games is computed on it as the source does,
      with every operation rounded to the nearest float; Python's [int()]
      is truncation toward zero. *)

From Stdlib Require Import Ascii String QArith SpecFloat.
From stdpp Require Import gmap strings list sorting fin_maps.

Local Open Scope Z_scope.

(** ** Values and rows *)

(** The floating-point operations the source applies to columns. *)
Class FloatOps (float : Type) := {
  float_eq_dec :: EqDecision float;
  f_radians : float → float;
  f_cos : float → float;
  f_sin : float → float;
  f_mul : float → float → float;
  f_of_Z : Z → float;
  f_of_string : string → option float;
  f_ltb : float → float → bool;
  f_ltb_asym : ∀ x y, f_ltb x y = true → f_ltb y x = false;
}.

(** ** Python floats *)

(** A Python [float] is an IEEE 754 binary64 number: a signed zero, an
    infinity, a NaN, or [S754_finite s m e], which is [(-1)^s * m * 2^e].
    The operations are those of the Standard Library's [SpecFloat] at 53
    bits of precision, rounding to nearest, ties to even. *)
Definition pyfloat : Type := spec_float.

(** The values a float can take: the mantissa and the exponent of a
    finite one are in the range of binary64. *)
Definition is_float (x : pyfloat) : Prop := valid_binary 53 1024 x = true.

(** [x - y], [x * y] and [x <= y]. *)
Definition py_sub (x y : pyfloat) : pyfloat := SFsub 53 1024 x y.
Definition py_mul (x y : pyfloat) : pyfloat := SFmul 53 1024 x y.
Definition py_le (x y : pyfloat) : bool := SFleb x y.

(** The literals [0.0] and [1.0]. *)
Definition float_0 : pyfloat := S754_zero false.
Definition float_1_0 : pyfloat := S754_finite false 4503599627370496 (-52).

(** An [int] operand of a float operation is converted to the nearest
    float; an [int] too large for a float raises [OverflowError]. *)
Definition float_of_int (n : Z) : option pyfloat :=
  match binary_normalize 53 1024 n 0 false with
  | S754_infinity _ => None
  | x => Some x
  end.

(** [int(x)]: truncation toward zero; an infinity raises [OverflowError]
    and a NaN [ValueError]. *)
Definition int_of_float (x : pyfloat) : option Z :=
  match x with
  | S754_zero _ => Some 0
  | S754_finite s m e =>
      Some (cond_Zopp s
              (if e <? 0 then Z.pos m / 2 ^ (- e) else Z.pos m * 2 ^ e))
  | S754_infinity _ | S754_nan => None
  end.

(** A float that, when finite and not zero, has the sign [s]. *)
Definition has_sign (s : bool) (x : spec_float) : Prop :=
  match x with S754_finite s' _ _ => s' = s | _ => True end.



(** Modelled from the spec: [DataConfig] is declared in
    [soccerai.training.trainer_config], which is not among the sources; its
    fields are the recognised configuration options. *)
Record DataConfig := {
  use_augmentations : bool;
  include_ball_features : bool;
  include_goal_features : bool;
  use_macro_roles : bool;
  use_regression_imputing : bool;
  use_pca_on_roster_cols : bool;
  mask_non_possession_shooting_stats : bool;
  val_ratio : pyfloat;
}.

Section Frames.
Context {float : Type} `{FloatOps float}.

(** A cell of a polars column: null, Boolean, integer, float or string. *)
Inductive value :=
  | VNull
  | VBool (b : bool)
  | VInt (z : Z)
  | VFloat (f : float)
  | VStr (s : string).

#[export] Instance value_eq_dec : EqDecision value.
Proof. solve_decision. Defined.

Definition Row : Type := gmap string value.
Definition DataFrame : Type := list Row.

(** An expression is evaluated at a row, in the context of the frame the
    row belongs to (window expressions look at the other rows). *)
Definition Expr : Type := DataFrame → Row → option value.

(** [pl.col(c)]: a missing column raises. *)
Definition col (c : string) : Expr := λ _ r, r !! c.

(** [pl.lit(v)] *)
Definition lit (v : value) : Expr := λ _ _, Some v.

(** Lifting of a unary operation on cells to expressions. *)
Definition map_expr (f : value → option value) (e : Expr) : Expr :=
  λ df r, e df r ≫= f.

(** Lifting of a binary operation on cells to expressions. *)
Definition map_expr2 (f : value → value → option value) (e1 e2 : Expr) : Expr :=
  λ df r, v1 ← e1 df r; v2 ← e2 df r; f v1 v2.

(** ** Frame operations *)

(** Values of the named output expressions at one row. *)
Definition eval_named (es : list (string * Expr)) (df : DataFrame) (r : Row)
    : option (list (string * value)) :=
  mapM (λ ne, v ← ne.2 df r; Some (ne.1, v)) es.

(** Writing a list of named cells into a row, replacing cells that exist. *)
Definition set_columns (vs : list (string * value)) (r : Row) : Row :=
  foldl (λ acc nv, <[nv.1 := nv.2]> acc) r vs.

(** [df.with_columns(...)]: every expression is evaluated on the frame as
    it is before the call, then the columns are added or replaced. *)
Definition with_columns (es : list (string * Expr)) (df : DataFrame)
    : option DataFrame :=
  mapM (λ r, vs ← eval_named es df r; Some (set_columns vs r)) df.

(** A predicate cell as a row mask: null does not select the row. *)
Definition as_mask (v : value) : option bool :=
  match v with
  | VBool b => Some b
  | VNull => Some false
  | _ => None
  end.

(** The rows a mask selects; the mask is computed for every row first, so
    a row on which it raises fails the whole selection. *)
Definition select_rows (mask : Row → option bool) (df : DataFrame)
    : option DataFrame :=
  ms ← mapM (λ r, b ← mask r; Some (b, r)) df;
  Some ((snd <$> filter (λ br, br.1 = true) ms) : DataFrame).

(** [df.filter(p)] *)
Definition filter_rows (p : Expr) (df : DataFrame) : option DataFrame :=
  select_rows (λ r, p df r ≫= as_mask) df.

(** [df.drop(cols)]: dropping a column that is absent raises. *)
Definition drop_columns (cols : list string) (df : DataFrame) : option DataFrame :=
  mapM (λ r : Row,
          if forallb (λ c, bool_decide (is_Some (r !! c))) cols
          then Some (foldr delete r cols) else None) df.

(** [df.drop_nulls([c])] *)
Definition drop_nulls (c : string) (df : DataFrame) : option DataFrame :=
  select_rows (λ r : Row, v ← r !! c; Some (bool_decide (v ≠ VNull))) df.

(** ** Cell operations *)

(** Kleene negation, conjunction and disjunction of nullable Booleans
    ([~], [&] and [|] on Boolean series). *)
Definition not3 (a : value) : option value :=
  match a with
  | VBool b => Some (VBool (negb b))
  | VNull => Some VNull
  | _ => None
  end.

Definition and3 (a b : value) : option value :=
  match a, b with
  | VBool x, VBool y => Some (VBool (x && y))
  | VBool false, VNull | VNull, VBool false => Some (VBool false)
  | VBool true, VNull | VNull, VBool true | VNull, VNull => Some VNull
  | _, _ => None
  end.

Definition or3 (a b : value) : option value :=
  match a, b with
  | VBool x, VBool y => Some (VBool (x || y))
  | VBool true, VNull | VNull, VBool true => Some (VBool true)
  | VBool false, VNull | VNull, VBool false | VNull, VNull => Some VNull
  | _, _ => None
  end.

(** [e.is_null()] and [e.is_not_null()] *)
Definition is_null (a : value) : option value :=
  Some (VBool (bool_decide (a = VNull))).
Definition is_not_null (a : value) : option value :=
  Some (VBool (bool_decide (a ≠ VNull))).

(** A numeric cell as a float. *)
Definition as_float (a : value) : option float :=
  match a with
  | VInt z => Some (f_of_Z z)
  | VFloat x => Some x
  | _ => None
  end.

(** [a == b]: null when either side is null. *)
Definition value_eq (a b : value) : option value :=
  match a, b with
  | VNull, _ | _, VNull => Some VNull
  | VStr s, VStr t => Some (VBool (bool_decide (s = t)))
  | VBool x, VBool y => Some (VBool (bool_decide (x = y)))
  | VInt x, VInt y => Some (VBool (bool_decide (x = y)))
  | VInt _, VFloat _ | VFloat _, VInt _ | VFloat _, VFloat _ =>
      x ← as_float a; y ← as_float b; Some (VBool (bool_decide (x = y)))
  | _, _ => None
  end.

(** [a != b] *)
Definition value_ne (a b : value) : option value := value_eq a b ≫= not3.

(** [a < b] on numbers: null when either side is null. *)
Definition value_lt (a b : value) : option value :=
  match a, b with
  | VNull, _ | _, VNull => Some VNull
  | VInt x, VInt y => Some (VBool (x <? y))
  | VInt _, VFloat _ | VFloat _, VInt _ | VFloat _, VFloat _ =>
      x ← as_float a; y ← as_float b; Some (VBool (f_ltb x y))
  | _, _ => None
  end.

(** [a > b] *)
Definition value_gt (a b : value) : option value := value_lt b a.

(** A float function applied to a numeric cell. *)
Definition float_unop (f : float → float) (a : value) : option value :=
  match a with
  | VNull => Some VNull
  | _ => x ← as_float a; Some (VFloat (f x))
  end.

(** [a.mul(b)] *)
Definition value_mul (a b : value) : option value :=
  match a, b with
  | VNull, _ | _, VNull => Some VNull
  | VInt x, VInt y => Some (VInt (x * y))
  | _, _ => x ← as_float a; y ← as_float b; Some (VFloat (f_mul x y))
  end.

(** [e.is_in(l)] for a list of string literals. *)
Definition is_in (l : list string) (a : value) : option value :=
  match a with
  | VNull => Some VNull
  | VStr s => Some (VBool (bool_decide (s ∈ l)))
  | _ => None
  end.

(** [e.cast(pl.Int8)] *)
Definition cast_int8 (a : value) : option value :=
  match a with
  | VNull => Some VNull
  | VBool b => Some (VInt (Z.b2z b))
  | VInt z => if bool_decide (-128 ≤ z ≤ 127) then Some (VInt z) else None
  | _ => None
  end.

(** [e.cast(pl.Float64)]: a string that is not a number raises. *)
Definition cast_float64 (a : value) : option value :=
  match a with
  | VNull => Some VNull
  | VBool b => Some (VFloat (f_of_Z (Z.b2z b)))
  | VInt z => Some (VFloat (f_of_Z z))
  | VFloat x => Some (VFloat x)
  | VStr s => VFloat <$> f_of_string s
  end.

(** Decimal digits of an unsigned integer. *)
Fixpoint parse_digits (s : string) (acc : Z) : option Z :=
  match s with
  | EmptyString => Some acc
  | String c s' =>
      let n := Z.of_N (Ascii.N_of_ascii c) in
      if bool_decide (48 ≤ n ≤ 57) then parse_digits s' (10 * acc + (n - 48))
      else None
  end.

(** [e.cast(pl.UInt16)]: strict, so a string that is not an unsigned
    16-bit number raises. *)
Definition cast_uint16 (a : value) : option value :=
  match a with
  | VNull => Some VNull
  | VStr EmptyString => None
  | VStr s =>
      z ← parse_digits s 0;
      if bool_decide (z ≤ 65535) then Some (VInt z) else None
  | VInt z => if bool_decide (0 ≤ z ≤ 65535) then Some (VInt z) else None
  | _ => None
  end.

(** Arithmetic on [UInt16] columns wraps around. *)
Definition uint16_mul_add (a : value) (k : Z) (b : value) : option value :=
  match a, b with
  | VInt x, VInt y => Some (VInt (((x * k) mod 65536 + y) mod 65536))
  | VNull, VNull | VNull, VInt _ | VInt _, VNull => Some VNull
  | _, _ => None
  end.

(** [s.split(sep)] for a one-character separator. *)
Fixpoint str_split (sep : Ascii.ascii) (s : string) : list string :=
  match s with
  | EmptyString => [EmptyString]
  | String c s' =>
      if Ascii.eqb c sep then EmptyString :: str_split sep s'
      else match str_split sep s' with
           | [] => [String c EmptyString]
           | p :: ps => String c p :: ps
           end
  end.

(** [e.str.split(sep).list.get(i)]: an index past the end raises. *)
Definition str_split_get (sep : Ascii.ascii) (i : nat) (a : value) : option value :=
  match a with
  | VNull => Some VNull
  | VStr s => VStr <$> str_split sep s !! i
  | _ => None
  end.

Fixpoint str_drop (n : nat) (s : string) : string :=
  match n, s with
  | O, _ => s
  | S n', String _ s' => str_drop n' s'
  | S _, EmptyString => EmptyString
  end.

(** Replacement of the first occurrence of a literal pattern. *)
Fixpoint str_replace_first (pat rep s : string) : string :=
  if String.prefix pat s then rep +:+ str_drop (String.length pat) s
  else match s with
       | EmptyString => EmptyString
       | String c s' => String c (str_replace_first pat rep s')
       end.

(** [e.str.replace(pat, rep)] *)
Definition str_replace (pat rep : string) (a : value) : option value :=
  match a with
  | VNull => Some VNull
  | VStr s => Some (VStr (str_replace_first pat rep s))
  | _ => None
  end.

(** [pl.when(c).then(t).otherwise(o)]: all three are evaluated; a null
    condition selects the otherwise-branch. *)
Definition when_then_otherwise (c t o : Expr) : Expr :=
  λ df r,
    vc ← c df r; vt ← t df r; vo ← o df r;
    b ← as_mask vc;
    Some (if b : bool then vt else vo).

(** Rows of one window: equal cells in every key column (nulls form a
    group of their own). *)
Definition same_group (keys : list string) (r r' : Row) : bool :=
  forallb (λ k, bool_decide (r !! k = r' !! k)) keys.

(** [e.filter(p).first().over(keys)]: the first cell of [e] among the rows
    of the window that satisfy [p], null when there is none. *)
Definition filter_first_over (e p : Expr) (keys : list string) : Expr :=
  λ df r,
    _ ← mapM (λ k, r !! k) keys;
    vs ← mapM (λ r', v ← e df r'; b ← p df r' ≫= as_mask; Some (b, v))
              (filter (λ r', same_group keys r r' = true) df);
    Some (default VNull (head (snd <$> filter (λ bv, bv.1 = true) vs))).

(** ** The phase-aware split *)

(** The order [sort] puts the cells of a column in: nulls first, then the
    order of the column's type. *)
Definition dtype_rank (a : value) : Z :=
  match a with
  | VNull => 0
  | VBool _ => 1
  | VInt _ => 2
  | VFloat _ => 3
  | VStr _ => 4
  end.

Definition value_leb (a b : value) : bool :=
  match a, b with
  | VBool x, VBool y => implb x y
  | VInt x, VInt y => x <=? y
  | VFloat x, VFloat y => negb (f_ltb y x)
  | VStr s, VStr t => String.leb s t
  | _, _ => dtype_rank a <=? dtype_rank b
  end.

Definition value_le (a b : value) : Prop := value_leb a b.

#[export] Instance value_le_dec : RelDecision value_le.
Proof. intros a b. unfold value_le. apply _. Defined.

(** [df.select([c])] as the list of the column's cells. *)
Definition select_column (c : string) (df : DataFrame) : option (list value) :=
  mapM (λ r : Row, r !! c) df.

(** [.unique().sort(c)] on a one-column frame. *)
Definition unique_sorted (l : list value) : list value :=
  merge_sort value_le (remove_dups l).

(** [frame.slice(offset, length)]. A negative offset counts from the end;
    a negative length is first turned into [height - offset + length], and
    a length that is still negative raises, as the length is unsigned. The
    window is then clipped to the frame. *)
Definition slice {A} (l : list A) (offset len : Z) : option (list A) :=
  let height := Z.of_nat (length l) in
  let len := if len <? 0 then height - offset + len else len in
  if len <? 0 then None
  else
    let start := if offset <? 0 then offset + height else offset in
    let stop := start + len in
    let start := Z.max 0 (Z.min height start) in
    let stop := Z.max 0 (Z.min height stop) in
    Some (take (Z.to_nat (stop - start)) (drop (Z.to_nat start) l)).

(** [df.join(ids, on=c, how="semi")]: the rows of [df] whose cell in [c]
    occurs among [ids]; a null cell matches nothing. *)
Definition semi_join (c : string) (ids : list value) (df : DataFrame)
    : option DataFrame :=
  select_rows
    (λ r : Row, v ← r !! c; Some (bool_decide (v ≠ VNull ∧ v ∈ ids))) df.

(** [(1.0 - val_ratio) * n_games]: a float difference, then a float
    product with the number of games converted to a float. *)
Definition train_share (ratio : pyfloat) (n_games : Z) : option pyfloat :=
  n ← float_of_int n_games;
  Some (py_mul (py_sub float_1_0 ratio) n).

(** [int((1.0 - val_ratio) * n_games)]: the number of training games for
    a ratio and a number of games. *)
Definition n_train_games_of (ratio : pyfloat) (n_games : Z) : option Z :=
  train_share ratio n_games ≫= int_of_float.

Definition _split_by_worldcup_phase (df : DataFrame) (ratio : pyfloat)
    : option (DataFrame * DataFrame) :=
  game_ids ← select_column "gameId" df;
  let game_ids_df := unique_sorted game_ids in
  let n_games := Z.of_nat (length game_ids_df) in
  n_train_games ← n_train_games_of ratio n_games;
  train_game_ids ← slice game_ids_df 0 n_train_games;
  val_game_ids ← slice game_ids_df n_train_games n_games;
  train_df ← semi_join "gameId" train_game_ids df;
  val_df ← semi_join "gameId" val_game_ids df;
  Some (train_df, val_df).

(** The match identifiers present in a frame: the non-null cells of its
    [gameId] column. *)
Definition game_ids_of (df : DataFrame) : list value :=
  filter (λ v, v ≠ VNull) (omap (λ r : Row, r !! "gameId") df).

(** ** The feature deriver *)

(** The goal coordinates [X_GOAL_LEFT], [X_GOAL_RIGHT] and [Y_GOAL] are
    constants of [soccerai.data.config], which is not among the sources;
    they are taken as parameters. *)
Variables (X_GOAL_LEFT X_GOAL_RIGHT Y_GOAL : float).

Definition cols_to_drop : list string :=
  [ "gameEventType"; "index"; "startTime"; "endTime"; "index_right";
    "gameId_right"; "visibility"; "videoUrl"; "homeTeamName"; "awayTeamName";
    "Age Info"; "Full Name"; "Height"; "birth_date"; "teamName"; "playerId" ].

(** The window of the per-event expressions. *)
Definition event_keys : list string := ["gameEventId"; "possessionEventId"].

(** The columns of the ball row that are broadcast onto its event. *)
Definition ball_source_cols : list string :=
  ["x"; "y"; "z"; "cos"; "sin"; "vx"; "vy"].

(** [pl.col(c).filter(pl.col("team").is_null()).first()
      .over("gameEventId", "possessionEventId").alias(f"{c}_ball")] *)
Definition ball_feature (c : string) : string * Expr :=
  (c +:+ "_ball",
   filter_first_over (col c) (map_expr is_null (col "team")) event_keys).

(** Velocity components from heading and speed. *)
Definition derive_velocity (df : DataFrame) : option DataFrame :=
  df ← with_columns
         [ ("cos", map_expr (float_unop f_cos)
                     (map_expr (float_unop f_radians) (col "direction")));
           ("sin", map_expr (float_unop f_sin)
                     (map_expr (float_unop f_radians) (col "direction"))) ] df;
  df ← with_columns
         [ ("vx", map_expr2 value_mul (col "velocity") (col "cos"));
           ("vy", map_expr2 value_mul (col "velocity") (col "sin")) ] df;
  drop_columns ["velocity"; "direction"] df.

(** The ball columns of every row of an event, then the raw [z] dropped. *)
Definition attach_ball_features (df : DataFrame) : option DataFrame :=
  df ← with_columns (ball_feature <$> ball_source_cols) df;
  drop_columns ["z"] df.

(** Player rows of events that are not shots. *)
Definition filter_player_rows (df : DataFrame) : option DataFrame :=
  df ← filter_rows (map_expr is_not_null (col "team")) df;
  df ← filter_rows
         (map_expr2 value_ne (col "possessionEventType") (lit (VStr "SH"))) df;
  filter_rows (map_expr is_not_null (col "playerName")) df.

(** (mm:ss) → s *)
Definition frame_time_expr : Expr :=
  λ df r,
    m ← map_expr cast_uint16
          (map_expr (str_split_get ":"%char 0) (col "frameTime")) df r;
    s ← map_expr cast_uint16
          (map_expr (str_split_get ":"%char 1) (col "frameTime")) df r;
    uint16_mul_add m 60 s.

Definition is_ball_carrier_expr : Expr :=
  when_then_otherwise
    (map_expr2 value_eq (col "playerName") (col "playerName_right"))
    (lit (VInt 1))
    (lit (VInt 0)).

Definition age_expr : Expr :=
  when_then_otherwise
    (map_expr2 value_lt (col "age") (lit (VInt 20))) (lit (VStr "Under 20"))
    (when_then_otherwise
       (map_expr2 value_lt (col "age") (lit (VInt 29))) (lit (VStr "20-28"))
       (when_then_otherwise
          (map_expr2 value_lt (col "age") (lit (VInt 35))) (lit (VStr "29-35"))
          (lit (VStr "35+")))).

Definition derive_player_columns (df : DataFrame) : option DataFrame :=
  df ← with_columns
         [ ("frameTime", frame_time_expr);
           ("is_ball_carrier", is_ball_carrier_expr);
           ("Weight", map_expr cast_float64
                        (map_expr (str_replace "kg" "") (col "Weight")));
           ("height_cm", map_expr cast_float64 (col "height_cm"));
           ("age", age_expr) ] df;
  drop_columns ["playerName"; "playerName_right"] df.

Definition macro_role_expr : Expr :=
  when_then_otherwise
    (map_expr (is_in ["DM"; "CM"; "AM"; "LM"; "RM"; "MCB"]) (col "playerRole"))
    (lit (VStr "M"))
    (when_then_otherwise
       (map_expr (is_in ["RCB"; "LCB"; "LB"; "RB"; "LWB"; "RWB"])
          (col "playerRole"))
       (lit (VStr "D"))
       (when_then_otherwise
          (map_expr (is_in ["RW"; "CF"; "LW"]) (col "playerRole"))
          (lit (VStr "F"))
          (col "playerRole"))).

(** The team of the first ball carrier of the row's event. *)
Definition possession_team_tmp_expr : Expr :=
  filter_first_over (col "team")
    (map_expr2 value_eq (col "is_ball_carrier") (lit (VInt 1))) event_keys.

Definition is_possession_team_expr : Expr :=
  map_expr cast_int8
    (map_expr2 value_eq (col "team") (col "possession_team_tmp")).

Definition possession_attribution (df : DataFrame) : option DataFrame :=
  df ← with_columns [("possession_team_tmp", possession_team_tmp_expr)] df;
  df ← with_columns [("is_possession_team", is_possession_team_expr)] df;
  df ← drop_columns ["possession_team_tmp"] df;
  drop_nulls "is_possession_team" df.

(** [df["team"] == "home"] *)
Definition is_home_team : Expr :=
  map_expr2 value_eq (col "team") (lit (VStr "home")).

(** [df["frameTime"] > df["startPeriod2"]] *)
Definition is_second_half : Expr :=
  map_expr2 value_gt (col "frameTime") (col "startPeriod2").

(** The disjunction of the four combinations that attack to the right,
    for the cells [h] (home team), [l] (home team starts left) and [s]
    (second half) of one row. *)
Definition goal_right_of (h l s : value) : option value :=
  nh ← not3 h; nl ← not3 l; ns ← not3 s;
  a1 ← and3 h l; t1 ← and3 a1 ns;
  a2 ← and3 h nl; t2 ← and3 a2 s;
  a3 ← and3 nh nl; t3 ← and3 a3 ns;
  a4 ← and3 nh l; t4 ← and3 a4 s;
  o ← or3 t1 t2; o ← or3 o t3; or3 o t4.

Definition is_goal_right : Expr :=
  λ df r,
    h ← is_home_team df r;
    l ← col "homeTeamStartLeft" df r;
    s ← is_second_half df r;
    goal_right_of h l s.

Definition x_goal_expr : Expr :=
  when_then_otherwise is_goal_right
    (lit (VFloat X_GOAL_RIGHT)) (lit (VFloat X_GOAL_LEFT)).

Definition assign_goal (df : DataFrame) : option DataFrame :=
  df ← with_columns
         [ ("x_goal", x_goal_expr); ("y_goal", lit (VFloat Y_GOAL)) ] df;
  drop_columns ["team"; "homeTeamStartLeft"; "startPeriod2"] df.

(** The table that enters the possession attribution. *)
Definition derive_features (cfg : DataConfig) (df : DataFrame)
    : option DataFrame :=
  df ← drop_columns cols_to_drop df;
  df ← derive_velocity df;
  df ← (if include_ball_features cfg then attach_ball_features df else Some df);
  df ← filter_player_rows df;
  df ← derive_player_columns df;
  if use_macro_roles cfg
  then with_columns [("playerRole", macro_role_expr)] df
  else Some df.

Definition _prepare_dataframe (cfg : DataConfig) (df : DataFrame)
    : option DataFrame :=
  df ← derive_features cfg df;
  df ← possession_attribution df;
  assign_goal df.

(** The cells of column [c] on the rows of the event of [r] that satisfy
    [P], in the order of the frame. *)
Definition event_cells (c : string) (P : Row → Prop) `{∀ r, Decision (P r)}
    (df : DataFrame) (r : Row) : list value :=
  omap (λ r' : Row, r' !! c)
       (filter (λ r', same_group event_keys r r' = true ∧ P r') df).

(** The ball rows are the rows without a team. *)
Definition is_ball_row (r : Row) : Prop := r !! "team" = Some VNull.

(** The ball-carrying rows are the rows whose [is_ball_carrier] is 1. *)
Definition is_carrier_row (r : Row) : Prop :=
  r !! "is_ball_carrier" ≫= (λ a, value_eq a (VInt 1)) = Some (VBool true).

#[export] Instance is_ball_row_dec r : Decision (is_ball_row r).
Proof. unfold is_ball_row. apply _. Defined.

#[export] Instance is_carrier_row_dec r : Decision (is_carrier_row r).
Proof. unfold is_carrier_row. apply _. Defined.

(** The cell of column [c] on the ball row of the event of [r]. *)
Definition ball_cell (c : string) (df : DataFrame) (r : Row) : value :=
  default VNull (head (event_cells c is_ball_row df r)).

(** The teams of the ball-carrying rows of the event of [r]. *)
Definition carrier_teams (df : DataFrame) (r : Row) : list value :=
  event_cells "team" is_carrier_row df r.

(** A row that belongs to a team. *)
Definition has_team (r : Row) : Prop := ∃ v, r !! "team" = Some v ∧ v ≠ VNull.

(** Two rows with the same cells in the columns [cs]. *)
Definition agree_on (cs : list string) (r r' : Row) : Prop :=
  ∀ c, c ∈ cs → r' !! c = r !! c.

(** Every row of [out] comes from a row of [df] with the same cells in
    the columns [cs]. *)
Definition traces (cs : list string) (df out : DataFrame) : Prop :=
  ∀ r', r' ∈ out → ∃ r, r ∈ df ∧ agree_on cs r r'.

(** The columns written or dropped between the ball features and the
    possession attribution, and from the possession attribution on. *)
Definition player_columns_written : list string :=
  ["frameTime"; "is_ball_carrier"; "Weight"; "height_cm"; "age";
   "playerName"; "playerName_right"; "playerRole"].

Definition attribution_columns_written : list string :=
  ["possession_team_tmp"; "is_possession_team";
   "x_goal"; "y_goal"; "team"; "homeTeamStartLeft"; "startPeriod2"].

(** ** The preprocessor *)

(** Columns a transformer of a [ColumnTransformer] is applied to: a list of
    names, or a function of the frame's columns. *)
Inductive column_selector :=
  | Cols (names : list string)
  | ColsOf (select : list string → list string).

(** The estimators the source builds, with the arguments it passes. *)
#[warnings="-register-all"]
Inductive estimator :=
  | ExtraTreesRegressor (n_estimators min_samples_leaf n_jobs random_state : Z)
  | IterativeImputer (est : estimator) (max_iter : Z)
      (initial_strategy : string) (random_state : Z)
  | SimpleImputer (strategy : string) (fill_value : option string)
  | KNNImputer (weights : string)
  | QuantileTransformer (output_distribution : string) (random_state : Z)
  | PCA (n_components : Q) (random_state : Z)
  | OneHotEncoder (handle_unknown drop : string) (sparse_output : bool)
  | PowerTransformer
  | PlayerLocationTransformer
  | GoalLocationTransformer
  | BallLocationTransformer
  | NonPossessionShootingStatsMask
  | Pipeline (steps : list (string * estimator))
  | ColumnTransformer
      (transformers : list (string * estimator * column_selector))
      (remainder : string) (verbose_feature_names_out : bool).

(** [SHOOTING_STATS], the named shooting-statistics columns, is a constant
    of [soccerai.data.config], which is not among the sources; it is taken
    as a parameter, as is the [random_state] the dataset is constructed
    with. *)
Variables (SHOOTING_STATS : list string) (random_state : Z).

Definition cat_cols : list string :=
  ["possessionEventType"; "playerRole"; "is_possession_team";
   "is_ball_carrier"; "age"].
Definition pos_cols : list string := ["x"; "y"].
Definition goal_cols : list string := ["x_goal"; "y_goal"].
Definition angle_cols : list string := ["cos"; "sin"].
Definition velocity_cols : list string := ["vx"; "vy"].

Definition ball_cols : list string :=
  ["x_ball"; "y_ball"; "z_ball"; "height_cm"; "cos_ball"; "sin_ball";
   "vx_ball"; "vy_ball"].

Definition exclude_cols (cfg : DataConfig) : list string :=
  cat_cols ++ pos_cols ++ goal_cols ++ angle_cols ++ velocity_cols
  ++ ["gameEventId"; "possessionEventId"; "label"; "gameId"; "chain_id";
      "jerseyNum"]
  ++ (if include_ball_features cfg then ball_cols else []).

Definition num_cols (cfg : DataConfig) (columns : list string) : list string :=
  filter (λ c, c ∉ exclude_cols cfg) columns.

Definition imputer (cfg : DataConfig) : estimator :=
  if use_regression_imputing cfg
  then IterativeImputer (ExtraTreesRegressor 100 2 (-1) random_state)
         10 "median" random_state
  else SimpleImputer "median" None.

Definition num_pipe (cfg : DataConfig) : estimator :=
  Pipeline
    ([ ("imputer", imputer cfg);
       ("scaler", QuantileTransformer "normal" random_state) ]
     ++ (if use_pca_on_roster_cols cfg
         then [ ("shooting_stats_pca",
                 ColumnTransformer
                   [ ("subset", PCA 0.99 random_state, Cols SHOOTING_STATS) ]
                   "passthrough" false) ]
         else [])).

Definition cat_pipe : estimator :=
  Pipeline
    [ ("imputer", SimpleImputer "constant" (Some "unknown"));
      ("onehot", OneHotEncoder "ignore" "if_binary" false) ].

Definition player_pipe : estimator :=
  Pipeline
    [ ("imputer", KNNImputer "distance");
      ("player_loc", PlayerLocationTransformer);
      ("speed_norm",
       ColumnTransformer [ ("pow", PowerTransformer, Cols ["vx"; "vy"]) ]
         "passthrough" false) ].

Definition ball_loc_pipe : estimator :=
  Pipeline
    [ ("imputer", SimpleImputer "median" None);
      ("ball_loc", BallLocationTransformer);
      ("diff_speed_norm",
       ColumnTransformer [ ("pow", PowerTransformer, Cols ["dvx"; "dvy"]) ]
         "passthrough" false) ].

Definition cols_to_mask (cfg : DataConfig) : column_selector :=
  if use_pca_on_roster_cols cfg
  then ColsOf (λ columns : list string,
                 (filter (λ c, String.prefix "pca" c = true) columns
                  ++ ["is_possession_team_1"])%list)
  else Cols (SHOOTING_STATS ++ ["is_possession_team_1"]).

(** [columns] is [df.columns] of the frame the preprocessor is built for. *)
Definition _create_preprocessor (cfg : DataConfig) (columns : list string)
    : estimator :=
  let transformers :=
    [ ("num", num_pipe cfg, Cols (num_cols cfg columns));
      ("cat", cat_pipe, Cols cat_cols);
      ("player_loc", player_pipe,
       Cols (pos_cols ++ angle_cols ++ velocity_cols ++ goal_cols)) ]
    ++ (if include_goal_features cfg
        then [ ("goal_loc", GoalLocationTransformer,
                Cols (pos_cols ++ goal_cols)) ]
        else [])
    ++ (if include_ball_features cfg
        then [ ("ball_pipe", ball_loc_pipe,
                Cols (pos_cols ++ angle_cols ++ velocity_cols ++ ball_cols)) ]
        else []) in
  let prep := ColumnTransformer transformers "passthrough" false in
  if mask_non_possession_shooting_stats cfg
  then Pipeline
         [ ("prep", prep);
           ("shooting_stats_mask",
            ColumnTransformer
              [ ("mask", NonPossessionShootingStatsMask, cols_to_mask cfg) ]
              "passthrough" false) ]
  else prep.

(** ** The categorical branch *)

(** Modelled from the spec: [SimpleImputer] and [OneHotEncoder] are
    scikit-learn's and not among the sources. The categorical branch fills
    nulls with a constant and one-hot encodes every column against the
    categories seen when fitting; a category unseen at transform time
    raises, unless [handle_unknown] is ["ignore"], and [drop] removes the
    first category of the columns it applies to. *)
Definition impute_constant (fill : string) (v : value) : value :=
  match v with
  | VNull => VStr fill
  | _ => v
  end.

(** Modelled from the spec: the categories of a column that keep an
    indicator column ([drop="if_binary"] collapses a binary column to a
    single indicator). *)
Definition kept_categories (drop_policy : string) (cs : list value)
    : list value :=
  if bool_decide (drop_policy = "first") then drop 1 cs
  else if bool_decide (drop_policy = "if_binary")
       then (if bool_decide (length cs = 2%nat) then drop 1 cs else cs)
       else cs.

(** Modelled from the spec: the indicator columns of one cell; an unseen
    category maps to the all-zero encoding when [handle_unknown] is
    ["ignore"], and raises otherwise. *)
Definition encode_cell (handle_unknown drop_policy : string)
    (cs : list value) (v : value) : option (list Z) :=
  if bool_decide (v ∈ cs)
  then Some ((λ c, Z.b2z (bool_decide (v = c)))
               <$> kept_categories drop_policy cs)
  else if bool_decide (handle_unknown = "ignore")
       then Some ((λ _, 0) <$> kept_categories drop_policy cs)
       else None.

(** The arguments of a constant-fill imputer followed by a one-hot encoder:
    fill value, [handle_unknown] and [drop]. *)
Definition cat_branch_params (p : estimator)
    : option (string * string * string) :=
  match p with
  | Pipeline [ (_, SimpleImputer strategy (Some fill));
               (_, OneHotEncoder handle_unknown drop_policy _) ] =>
      if bool_decide (strategy = "constant")
      then Some (fill, handle_unknown, drop_policy) else None
  | _ => None
  end.

(** Modelled from the spec: fitting the branch on the training frame
    learns the sorted distinct cells of every column, after imputation. *)
Definition cat_fit (p : estimator) (cols : list string) (train : DataFrame)
    : option (list (list value)) :=
  params ← cat_branch_params p;
  mapM (λ c, column ← select_column c train;
             Some (unique_sorted (impute_constant params.1.1 <$> column)))
       cols.

(** Modelled from the spec: transforming one row with the fitted
    categories gives one block of indicator columns per categorical
    column. *)
Definition cat_transform_row (p : estimator) (cols : list string)
    (cats : list (list value)) (r : Row) : option (list (list Z)) :=
  params ← cat_branch_params p;
  mapM (λ ccs : string * list value,
          v ← r !! ccs.1;
          encode_cell params.1.2 params.2 ccs.2
            (impute_constant params.1.1 v))
       (zip cols cats).

(** ** The build *)

(** Fitting and applying the estimators is scikit-learn's, and the graph
    converter is an external collaborator; they are taken as parameters:
    [sk_fit] learns the state of a preprocessor from a frame,
    [sk_transform] applies a learned state, and
    [convert_dataframe_to_data_list] yields the graph objects and the
    feature names of a frame. *)
Context {fitted data_list : Type}.
Variables
  (sk_fit : estimator → DataFrame → option fitted)
  (sk_transform : fitted → DataFrame → option DataFrame)
  (convert_dataframe_to_data_list :
     DataFrame → option (data_list * list string)).

(** A call received by the preprocessor object. *)
Inductive call :=
  | CallFit (df : DataFrame)
  | CallFitTransform (df : DataFrame)
  | CallTransform (df : DataFrame).

(** What a build mutates: the preprocessor object with its learned state,
    the calls it received, and the files written. *)
Record build_state := {
  preprocessor : option estimator;
  fitted_state : option fitted;
  calls : list call;
  saved : list (string * data_list);
  feature_names_file : option (list string);
}.

Definition initial_state : build_state :=
  {| preprocessor := None; fitted_state := None; calls := [];
     saved := []; feature_names_file := None |}.

(** A step of the build: it raises or returns a result and a new state. *)
Definition build (A : Type) : Type := build_state → option (A * build_state).

#[export] Instance build_ret : MRet build := λ A a s, Some (a, s).
#[export] Instance build_bind : MBind build :=
  λ A B f m s, match m s with
               | Some (a, s') => f a s'
               | None => None
               end.

(** A computation that does not touch the state. *)
Definition lift {A} (o : option A) : build A := λ s, (λ a, (a, s)) <$> o.

(** [preprocessor = self._create_preprocessor(train_df)] *)
Definition new_preprocessor (p : estimator) : build unit :=
  λ s, Some (tt, {| preprocessor := Some p; fitted_state := None;
                    calls := calls s; saved := saved s;
                    feature_names_file := feature_names_file s |}).

(** [preprocessor.fit_transform(df)]: learns the state from [df], keeps
    it, and applies it to [df]. *)
Definition fit_transform (df : DataFrame) : build DataFrame :=
  λ s,
    p ← preprocessor s;
    st ← sk_fit p df;
    out ← sk_transform st df;
    Some (out, {| preprocessor := preprocessor s; fitted_state := Some st;
                  calls := calls s ++ [CallFitTransform df];
                  saved := saved s;
                  feature_names_file := feature_names_file s |}).

(** [preprocessor.transform(df)]: applies the kept state; raises when
    nothing was fitted. *)
Definition transform (df : DataFrame) : build DataFrame :=
  λ s,
    st ← fitted_state s;
    out ← sk_transform st df;
    Some (out, {| preprocessor := preprocessor s;
                  fitted_state := fitted_state s;
                  calls := calls s ++ [CallTransform df];
                  saved := saved s;
                  feature_names_file := feature_names_file s |}).

(** [self.save(data_list, path)] *)
Definition save (d : data_list) (path : string) : build unit :=
  λ s, Some (tt, {| preprocessor := preprocessor s;
                    fitted_state := fitted_state s; calls := calls s;
                    saved := saved s ++ [(path, d)];
                    feature_names_file := feature_names_file s |}).

(** [fp.write_text(json.dumps(feature_names, ...))] *)
Definition write_feature_names (names : list string) : build unit :=
  λ s, Some (tt, {| preprocessor := preprocessor s;
                    fitted_state := fitted_state s; calls := calls s;
                    saved := saved s; feature_names_file := Some names |}).

(** [df.columns]: the columns of the rows of the frame, in the order of
    the row map (the order of the columns in the frame is not kept by this
    embedding). *)
Definition frame_columns (df : DataFrame) : list string :=
  match df with
  | r :: _ => (map_to_list r).*1
  | [] => []
  end.

(** [process], on the frame read from the raw file. *)
Definition process (cfg : DataConfig) (raw : DataFrame) : build unit :=
  df ← lift (_prepare_dataframe cfg raw);
  split ← lift (_split_by_worldcup_phase df (val_ratio cfg));
  let train_df := split.1 in
  let val_df := split.2 in
  _ ← new_preprocessor (_create_preprocessor cfg (frame_columns train_df));
  train_transformed ← fit_transform train_df;
  val_transformed ← transform val_df;
  train_converted ← lift (convert_dataframe_to_data_list train_transformed);
  val_converted ← lift (convert_dataframe_to_data_list val_transformed);
  _ ← save train_converted.1 "train_data.pt";
  _ ← save val_converted.1 "val_data.pt";
  write_feature_names train_converted.2.

(** ** The split in the words of the specification *)



(** ** The dataset object *)

Definition raw_file_names : list string := ["dataset.parquet"].

Definition processed_file_names : list string :=
  ["train_data.pt"; "val_data.pt"].

(** The augmentations of [soccerai.training.transforms], with the feature
    names and the probability they are built with. *)
Inductive augmentation :=
  | RandomHorizontalFlip (names : list string) (p : Q)
  | RandomVerticalFlip (names : list string) (p : Q).

(** What [__init__] leaves on the object: the loaded graphs, the feature
    names read back, and the transform. *)
Record dataset := {
  data : data_list;
  feature_names : list string;
  ds_transform : option (list augmentation);
}.

(** [self.load(path)]: the file last saved under [path]; a missing file
    raises. *)
Definition load (path : string) (s : build_state) : option data_list :=
  snd <$> last (filter (λ f, f.1 = path) (saved s)).

(** [__init__], after [super().__init__] has made sure the processed files
    exist; [s] holds the files. *)
Definition __init__ (split : string) (cfg : DataConfig) (s : build_state)
    : option dataset :=
  let data_path_idx := if bool_decide (split = "train") then 0%nat else 1%nat in
  path ← processed_file_names !! data_path_idx;
  d ← load path s;
  names ← feature_names_file s;
  Some {| data := d;
          feature_names := names;
          ds_transform :=
            if bool_decide (split = "train") && use_augmentations cfg
            then Some [ RandomHorizontalFlip names (1 # 2);
                        RandomVerticalFlip names (1 # 2) ]
            else None |}.

(** ** Reading a preprocessor *)

(** The transformers of the column transformer of a preprocessor, under
    its masking stage when there is one. *)
Definition prep_transformers (p : estimator)
    : list (string * estimator * column_selector) :=
  match p with
  | ColumnTransformer ts _ _ => ts
  | Pipeline ((_, ColumnTransformer ts _ _) :: _) => ts
  | _ => []
  end.

(** The columns of the masking stage of a preprocessor. *)
Definition masked_columns (p : estimator) : option column_selector :=
  match p with
  | Pipeline [ _; (_, ColumnTransformer
                        [(_, NonPossessionShootingStatsMask, sel)] _ _) ] =>
      Some sel
  | _ => None
  end.

(** The names a selector picks among the columns of a frame. *)
Definition selected (sel : column_selector) (columns : list string)
    : list string :=
  match sel with
  | Cols names => names
  | ColsOf select => select columns
  end.

(** The columns no branch of the preprocessor is given: the keys and the
    label. *)
Definition key_cols : list string :=
  ["gameEventId"; "possessionEventId"; "label"; "gameId"; "chain_id";
   "jerseyNum"].

(** ** Columns of the feature deriver *)

(** The columns the feature deriver writes or drops, by stage. *)
Definition velocity_columns_written : list string :=
  ["cos"; "sin"; "vx"; "vy"; "velocity"; "direction"].

Definition ball_columns_written : list string :=
  ((λ c, c +:+ "_ball") <$> ball_source_cols) ++ ["z"].

Definition prepare_columns_written (cfg : DataConfig) : list string :=
  cols_to_drop ++ velocity_columns_written
  ++ (if include_ball_features cfg then ball_columns_written else [])
  ++ player_columns_written ++ attribution_columns_written.

(** The columns the feature deriver drops. *)
Definition prepare_columns_dropped (cfg : DataConfig) : list string :=
  cols_to_drop ++ ["velocity"; "direction"]
  ++ (if include_ball_features cfg then ["z"] else [])
  ++ ["playerName"; "playerName_right"; "possession_team_tmp"; "team";
      "homeTeamStartLeft"; "startPeriod2"].

(** The columns the feature deriver assigns on every row it returns. *)
Definition prepare_columns_assigned (cfg : DataConfig) : list string :=
  ["cos"; "sin"; "vx"; "vy"]
  ++ (if include_ball_features cfg
      then (λ c, c +:+ "_ball") <$> ball_source_cols else [])
  ++ ["frameTime"; "is_ball_carrier"; "Weight"; "height_cm"; "age";
      "is_possession_team"; "x_goal"; "y_goal"].

(** The heading cell of a row in radians, turned by [f]. *)
Definition heading_of (f : float → float) (r : Row) : option value :=
  (r !! "direction" ≫= float_unop f_radians) ≫= float_unop f.

(** Whether a character occurs in a string. *)
Fixpoint has_char (ch : Ascii.ascii) (s : string) : bool :=
  match s with
  | EmptyString => false
  | String c s' => Ascii.eqb c ch || has_char ch s'
  end.

(** A cell that is an integer or null. *)
Definition is_int_cell (v : value) : Prop :=
  match v with
  | VInt _ | VNull => True
  | _ => False
  end.

(** A column that no row of a frame has. *)
Definition absent (c : string) (df : DataFrame) : Prop :=
  Forall (λ r : Row, r !! c = None) df.

(** The age bands and the role codes of the three macro roles. *)
Definition age_bands : list string := ["Under 20"; "20-28"; "29-35"; "35+"].

Definition midfield_roles : list string :=
  ["DM"; "CM"; "AM"; "LM"; "RM"; "MCB"].
Definition defense_roles : list string :=
  ["RCB"; "LCB"; "LB"; "RB"; "LWB"; "RWB"].
Definition forward_roles : list string := ["RW"; "CF"; "LW"].

(** The macro role of a role code. *)
Definition macro_role (role : string) : string :=
  if bool_decide (role ∈ midfield_roles) then "M"
  else if bool_decide (role ∈ defense_roles) then "D"
  else if bool_decide (role ∈ forward_roles) then "F"
  else role.

End Frames.

(** ** An instance of the float interface

    Floats as uninterpreted terms over integer literals: every operation
    of the interface builds the term that names its result, so that tables
    can be evaluated without fixing a rounding. *)
Inductive sym_float :=
  | FLit (z : Z)
  | FRadians (x : sym_float)
  | FCos (x : sym_float)
  | FSin (x : sym_float)
  | FMul (x y : sym_float).

#[export] Instance sym_float_eq_dec : EqDecision sym_float.
Proof. solve_decision. Defined.

Definition sym_ltb (x y : sym_float) : bool :=
  match x, y with
  | FLit a, FLit b => a <? b
  | _, _ => false
  end.

Definition sym_of_string (s : string) : option sym_float :=
  match s with
  | EmptyString => None
  | _ => FLit <$> parse_digits s 0
  end.

#[export] Instance sym_float_ops : FloatOps sym_float.
Proof.
  refine {| f_radians := FRadians; f_cos := FCos; f_sin := FSin;
            f_mul := FMul; f_of_Z := FLit; f_of_string := sym_of_string;
            f_ltb := sym_ltb |}.
  intros [a| | | |] [b| | | |]; simpl; try done.
  intros ?%Z.ltb_lt. apply Z.ltb_ge. lia.
Defined.

(** ** Example ratios *)

(** The floats nearest to 0.25, 0.5, 0.1, 0.8 and 0.9, which is what
    Python reads these literals as; 3.75 is a float itself, and so is the
    float nearest to -1e308. *)
Definition float_0_25 : pyfloat := S754_finite false 4503599627370496 (-54).
Definition float_0_5 : pyfloat := S754_finite false 4503599627370496 (-53).
Definition float_0_1 : pyfloat := S754_finite false 7205759403792794 (-56).
Definition float_0_8 : pyfloat := S754_finite false 7205759403792794 (-53).
Definition float_0_9 : pyfloat := S754_finite false 8106479329266893 (-53).
Definition float_3_75 : pyfloat := S754_finite false 8444249301319680 (-51).
Definition float_minus_1e308 : pyfloat :=
  S754_finite true 5010420900022432 971.

(** The correctly rounded quotient of two integers, as a float. *)
Definition float_quotient (a b : Z) : option pyfloat :=
  x ← float_of_int a; y ← float_of_int b; Some (SFdiv 53 1024 x y).

(** ** Example tables *)

(** A row of a derived table that belongs to match [game]. *)
Definition match_row (game chain : Z) : Row (float:=sym_float) :=
  {[ "gameId" := VInt game; "chain_id" := VInt chain ]}.

(** Two matches, 1 and 2, with rows in no particular order. *)
Definition two_matches : DataFrame (float:=sym_float) :=
  [match_row 2 0; match_row 1 0; match_row 1 1; match_row 2 1].

(** Five matches, 1 to 5, one row each. *)
Definition five_matches : DataFrame (float:=sym_float) :=
  [match_row 1 0; match_row 2 0; match_row 3 0; match_row 4 0; match_row 5 0].


(** A raw event row of match [game]: the columns the feature deriver
    reads, and nulls in the columns it drops first. *)
Definition raw_row (game : Z) (team name carrier : value) (x y z age : Z)
    : Row (float:=sym_float) :=
  list_to_map
    (((λ c, (c, VNull)) <$> cols_to_drop)
     ++ [ ("gameId", VInt game); ("gameEventId", VInt (7 * game));
          ("possessionEventId", VInt 3); ("team", team);
          ("possessionEventType", VStr "PA");
          ("playerName", name); ("playerName_right", carrier);
          ("x", VFloat (FLit x)); ("y", VFloat (FLit y));
          ("z", VFloat (FLit z));
          ("direction", VFloat (FLit 90)); ("velocity", VFloat (FLit 2));
          ("frameTime", VStr "12:30"); ("Weight", VStr "70kg");
          ("height_cm", VInt 180); ("age", VInt age);
          ("playerRole", VStr "CM");
          ("homeTeamStartLeft", VBool true); ("startPeriod2", VInt 2700) ]).

(** One possession event of match [game]: the ball at x = 50, y = 30,
    z = 1, the ball carrier of the home team and a player of the away
    team. *)
Definition event_of (game : Z) : DataFrame (float:=sym_float) :=
  [ raw_row game VNull VNull (VStr "Ann") 50 30 1 0;
    raw_row game (VStr "home") (VStr "Ann") (VStr "Ann") 48 29 0 19;
    raw_row game (VStr "away") (VStr "Bob") (VStr "Ann") 52 31 0 29 ].

Definition event_table : DataFrame (float:=sym_float) := event_of 1.

Definition example_cfg : DataConfig :=
  {| use_augmentations := false; include_ball_features := true;
     include_goal_features := true; use_macro_roles := true;
     use_regression_imputing := false; use_pca_on_roster_cols := false;
     mask_non_possession_shooting_stats := false; val_ratio := float_0_25 |}.

(** The derived table of [event_table], with goals at x = 0 and x = 105
    and y = 34. *)
Definition event_features : option (DataFrame (float:=sym_float)) :=
  _prepare_dataframe (FLit 0) (FLit 105) (FLit 34) example_cfg event_table.

(** The cells of a column, row by row. *)
Definition column {float : Type} (c : string) (df : DataFrame (float:=float))
    : list (option value) :=
  (λ r : Row, r !! c) <$> df.


(** A row of the home team in the first half and a row of the away team
    in the second half of the same match. *)
Definition home_first_half : Row (float:=sym_float) :=
  {[ "team" := VStr "home"; "frameTime" := VInt 750;
     "startPeriod2" := VInt 2700; "homeTeamStartLeft" := VBool true ]}.

Definition away_second_half : Row (float:=sym_float) :=
  {[ "team" := VStr "away"; "frameTime" := VInt 3000;
     "startPeriod2" := VInt 2700; "homeTeamStartLeft" := VBool true ]}.

(** A player row that is paired with no ball carrier. *)
Definition unpaired_player : Row (float:=sym_float) :=
  {[ "playerName" := VStr "Ann"; "playerName_right" := VNull;
     "age" := VInt 19 ]}.

(** Collaborators to run a build with: a preprocessor that learns the
    number of training rows and transforms nothing, and a converter that
    counts the rows of a frame. *)
Definition example_fit (p : estimator) (df : DataFrame (float:=sym_float))
    : option nat :=
  Some (length df).

Definition example_transform (st : nat) (df : DataFrame (float:=sym_float))
    : option (DataFrame (float:=sym_float)) :=
  Some df.

Definition example_convert (df : DataFrame (float:=sym_float))
    : option (nat * list string) :=
  Some (length df, []).

(** The build of a raw table with one event in each of the matches 1
    and 2. *)
Definition example_build : option (unit * build_state) :=
  process (FLit 0) (FLit 105) (FLit 34) [] 0
    example_fit example_transform example_convert
    example_cfg (event_of 1 ++ event_of 2) initial_state.

(** Categorical columns of two training rows, their fitted categories, and
    a row whose role was not seen in training. *)
Definition cat_row (event role : string) (possession carrier : Z)
    (age : string) : Row (float:=sym_float) :=
  {[ "possessionEventType" := VStr event; "playerRole" := VStr role;
     "is_possession_team" := VInt possession;
     "is_ball_carrier" := VInt carrier; "age" := VStr age ]}.

Definition cat_train : DataFrame (float:=sym_float) :=
  [cat_row "PA" "M" 1 1 "20-28"; cat_row "CR" "D" 0 0 "29-35"].

Definition cat_train_categories : option (list (list value)) :=
  cat_fit cat_pipe cat_cols cat_train.

Definition unseen_role_row : Row (float:=sym_float) :=
  cat_row "PA" "GK" 1 0 "20-28".

(** A raw table whose only row lacks the [videoUrl] column. *)
Definition raw_without_video : DataFrame (float:=sym_float) :=
  [delete "videoUrl" (raw_row 1 (VStr "home") (VStr "Ann") (VStr "Ann")
                        48 29 0 19)].

(** A raw table with one player whose kickoff side is unknown. *)
Definition raw_unknown_side : DataFrame (float:=sym_float) :=
  [<["homeTeamStartLeft" := VNull]>
     (raw_row 1 (VStr "home") (VStr "Ann") (VStr "Ann") 48 29 0 19)].

Definition unknown_side_features : option (DataFrame (float:=sym_float)) :=
  _prepare_dataframe (FLit 0) (FLit 105) (FLit 34) example_cfg
    raw_unknown_side.

(** A converter that keeps the match identifiers of the rows as the
    graphs, and the build of the two-match table with it. *)
Definition example_convert_ids (df : DataFrame (float:=sym_float))
    : option (list (option (value (float:=sym_float))) * list string) :=
  Some (column "gameId" df, ["x"; "y"]).

Definition example_build_ids : option (unit * build_state) :=
  process (FLit 0) (FLit 105) (FLit 34) [] 0
    example_fit example_transform example_convert_ids
    example_cfg (event_of 1 ++ event_of 2) initial_state.
(** A configuration with masking and PCA of the roster columns on. *)
Definition masking_cfg : DataConfig :=
  {| use_augmentations := false; include_ball_features := false;
     include_goal_features := false; use_macro_roles := false;
     use_regression_imputing := false; use_pca_on_roster_cols := true;
     mask_non_possession_shooting_stats := true; val_ratio := float_0_25 |}.

(** * Properties *)

(** ** Python floats *)

(** The sign of a rounded result is the sign of what is rounded. *)
Lemma binary_round_aux_sign (prec emax : Z) (s : bool) (m e : Z) l :
  has_sign s (binary_round_aux prec emax s m e l).
Proof.
  unfold binary_round_aux.
  destruct (shr_fexp prec emax m e l) as [mrs' e'].
  destruct (shr_fexp prec emax _ e' loc_Exact) as [mrs'' e''].
  destruct (shr_m mrs''); [done| |done].
  by destruct (e'' <=? emax - prec).
Qed.

Lemma binary_normalize_sign (prec emax m e : Z) :
  0 ≤ m → has_sign false (binary_normalize prec emax m e false).
Proof.
  destruct m as [|m|m]; intros Hm; [done| |lia].
  unfold binary_normalize, binary_round.
  destruct (shl_align m e _). apply binary_round_aux_sign.
Qed.

Lemma py_mul_sign (x y : pyfloat) :
  has_sign false x → has_sign false y → has_sign false (py_mul x y).
Proof.
  destruct x as [| | |sx mx ex], y as [| | |sy my ey]; try done.
  intros -> ->. apply binary_round_aux_sign.
Qed.

Lemma float_of_int_sign (n : Z) (x : pyfloat) :
  0 ≤ n → float_of_int n = Some x → has_sign false x.
Proof.
  unfold float_of_int. intros Hn Hx.
  pose proof (binary_normalize_sign 53 1024 n 0 Hn) as Hs.
  destruct (binary_normalize 53 1024 n 0 false); by simplify_eq.
Qed.

Lemma int_of_float_nonneg (x : pyfloat) (k : Z) :
  has_sign false x → int_of_float x = Some k → 0 ≤ k.
Proof.
  destruct x as [| | |s m e]; cbn [has_sign int_of_float];
    intros Hs Hk; simplify_eq; [done|].
  cbn [cond_Zopp]. destruct (Z.ltb_spec e 0).
  - apply Z.div_pos; [lia|]. apply Z.pow_pos_nonneg; lia.
  - assert (0 < 2 ^ e) by (apply Z.pow_pos_nonneg; lia). nia.
Qed.

Lemma iter_xO_pow (m d : positive) : Z.pos (Pos.iter xO m d) = Z.pos m * 2 ^ Z.pos d.
Proof.
  induction d as [|d IH] using Pos.peano_ind.
  - simpl. lia.
  - rewrite Pos.iter_succ, Pos2Z.inj_succ, Z.pow_succ_r by lia.
    rewrite Pos2Z.inj_xO, IH. lia.
Qed.

Lemma shl_align_fst (m : positive) (e e' : Z) :
  e' ≤ e → Z.pos (fst (shl_align m e e')) = Z.pos m * 2 ^ (e - e').
Proof.
  intros He. unfold shl_align.
  destruct (e' - e) as [|d|d] eqn:Hd; simpl; try lia.
  - replace (e - e') with 0 by lia. lia.
  - rewrite iter_xO_pow. f_equal. f_equal. lia.
Qed.

Lemma digits2_pos_gt (m : positive) : Z.pos m < 2 ^ Z.pos (digits2_pos m).
Proof.
  induction m as [m IH|m IH|]; simpl; [| |done];
    rewrite Pos2Z.inj_succ, Z.pow_succ_r by lia; lia.
Qed.

Lemma is_float_mantissa (s : bool) (m : positive) (e : Z) :
  is_float (S754_finite s m e) → Z.pos m < 2 ^ 53.
Proof.
  unfold is_float, valid_binary, bounded, canonical_mantissa, fexp.
  intros [Hc _]%andb_prop. apply Z.eqb_eq in Hc.
  pose proof (digits2_pos_gt m) as Hlt.
  eapply Z.lt_le_trans; [exact Hlt|].
  apply Z.pow_le_mono_r; lia.
Qed.

Lemma py_le_one (s : bool) (m : positive) (e : Z) :
  py_le (S754_finite s m e) float_1_0 = true →
  s = true ∨ e < -52 ∨ (e = -52 ∧ Z.pos m ≤ 2 ^ 52).
Proof.
  unfold py_le, SFleb, SFcompare, float_1_0.
  destruct s; [by left|]. intros Hle. right.
  destruct (Z.compare_spec e (-52)) as [He|He|He]; [|by left|done].
  right. split; [done|].
  pose proof (Pos.compare_spec m 4503599627370496) as Hm.
  unfold Pos.compare in Hm.
  destruct Hm as [Hm|Hm|Hm]; [| |done].
  - by subst m.
  - apply Pos2Z.pos_lt_pos in Hm. apply Z.lt_le_incl. exact Hm.
Qed.

Lemma py_sub_one_sign (ratio : pyfloat) :
  is_float ratio → py_le ratio float_1_0 = true →
  has_sign false (py_sub float_1_0 ratio).
Proof.
  destruct ratio as [s|s| |s m e]; [done..|].
  intros Hvalid%is_float_mantissa Hle%py_le_one.
  unfold py_sub, SFsub, float_1_0.
  apply binary_normalize_sign.
  rewrite !shl_align_fst by lia.
  change (Z.pos 4503599627370496) with (2 ^ 52).
  assert (0 < 2 ^ (e - Z.min (-52) e)) by (apply Z.pow_pos_nonneg; lia).
  assert (0 < 2 ^ (-52 - Z.min (-52) e)) by (apply Z.pow_pos_nonneg; lia).
  destruct Hle as [->|[He|[-> Hm]]]; cbn [cond_Zopp].
  - nia.
  - rewrite Z.min_r by lia. rewrite Z.sub_diag, Z.pow_0_r, Z.mul_1_r.
    rewrite <-Z.pow_add_r by lia.
    assert (2 ^ 53 ≤ 2 ^ (52 + (-52 - e))) by (apply Z.pow_le_mono_r; lia).
    destruct s; cbn [cond_Zopp]; lia.
  - rewrite Z.min_id, Z.sub_diag, Z.pow_0_r, !Z.mul_1_r.
    destruct s; cbn [cond_Zopp]; lia.
Qed.

Lemma n_train_games_of_nonneg (ratio : pyfloat) (n k : Z) :
  is_float ratio → py_le ratio float_1_0 = true → 0 ≤ n →
  n_train_games_of ratio n = Some k → 0 ≤ k.
Proof.
  intros Hvalid Hle Hn. unfold n_train_games_of, train_share.
  destruct (float_of_int n) as [x|] eqn:Hx; simpl; [|done].
  apply int_of_float_nonneg, py_mul_sign.
  - by apply py_sub_one_sign.
  - by eapply float_of_int_sign.
Qed.

(** Rounding does not overflow below the largest exponent. *)

Section Rounding.
Variables prec emax : Z.
















End Rounding.







(** The example ratios are floats, and the nearest ones to the decimal
    literals they are named after. *)
Lemma example_ratios_nearest :
  Forall is_float [float_0; float_1_0; float_0_25; float_0_5; float_0_1;
                   float_0_8; float_0_9; float_3_75; float_minus_1e308] ∧
  float_quotient 1 1 = Some float_1_0 ∧
  float_quotient 1 4 = Some float_0_25 ∧
  float_quotient 1 2 = Some float_0_5 ∧
  float_quotient 1 10 = Some float_0_1 ∧
  float_quotient 8 10 = Some float_0_8 ∧
  float_quotient 9 10 = Some float_0_9 ∧
  float_quotient 375 100 = Some float_3_75.
Proof.
  split; [repeat constructor|]. by vm_compute.
Qed.

Section FrameFacts.
Context {float : Type} `{FloatOps float}.

Implicit Types (r : Row (float:=float)) (df : DataFrame (float:=float)).
Implicit Types (v : value (float:=float)).

(** ** Row selection *)

Lemma select_rows_Some (mask : Row → option bool) df out :
  select_rows mask df = Some out →
  Forall (λ r, is_Some (mask r)) df ∧
  out = filter (λ r, mask r = Some true) df.
Proof.
  unfold select_rows. intros Hsel.
  destruct (mapM _ df) as [ms|] eqn:Hms; simplify_eq/=.
  apply mapM_Some in Hms.
  induction Hms as [|r [b r'] df ms Hr _ IH]; simpl; [done|].
  destruct (mask r) as [b'|] eqn:Hb; simplify_eq/=.
  destruct IH as [IH1 IH2]. split; [constructor; eauto|].
  rewrite (filter_cons (λ r, mask r = Some true)).
  destruct b; case_decide; simplify_eq/=.
  - by f_equal.
  - by rewrite filter_cons_False by (simpl; done).
Qed.

Lemma select_rows_is_Some (mask : Row → option bool) df :
  Forall (λ r, is_Some (mask r)) df → is_Some (select_rows mask df).
Proof.
  intros Hall. unfold select_rows.
  destruct (mapM _ df) as [ms|] eqn:Hms; [by eexists|].
  apply mapM_None in Hms. apply Exists_exists in Hms as (r & Hr & Hnone).
  rewrite Forall_forall in Hall. destruct (Hall r Hr) as [b Hb].
  rewrite Hb in Hnone. done.
Qed.

Lemma elem_of_select_rows (mask : Row → option bool) df out r :
  select_rows mask df = Some out →
  r ∈ out ↔ r ∈ df ∧ mask r = Some true.
Proof.
  intros [_ ->]%select_rows_Some. rewrite list_elem_of_filter. tauto.
Qed.

(** ** Slices *)

Local Ltac case_ltb :=
  repeat match goal with
    | H : context [?a <? ?b] |- _ =>
        destruct (Z.ltb_spec a b); try lia; simpl in H
    | |- context [?a <? ?b] => destruct (Z.ltb_spec a b); try lia; simpl
    end.

Lemma slice_split {A} (l a b : list A) (k : Z) :
  slice l 0 k = Some a →
  slice l k (Z.of_nat (length l)) = Some b →
  ∃ m : nat, a = take m l ∧ b = drop m l.
Proof.
  unfold slice. set (h := Z.of_nat (length l)).
  assert (0 ≤ h) by (unfold h; lia).
  intros Ha Hb.
  destruct (Z.ltb_spec k 0) as [Hk|Hk]; case_ltb; simplify_eq/=.
  - exists (Z.to_nat (h + k)). split.
    + replace (Z.to_nat (0 `max` (h `min` 0))) with 0%nat by lia.
      simpl. f_equal. lia.
    + replace (Z.to_nat (0 `max` (h `min` (k + h)))) with (Z.to_nat (h + k))
        by lia.
      apply take_ge. rewrite length_drop. unfold h. lia.
  - exists (Z.to_nat (h `min` k)). split.
    + replace (Z.to_nat (0 `max` (h `min` 0))) with 0%nat by lia.
      simpl. f_equal. lia.
    + replace (Z.to_nat (0 `max` (h `min` k))) with (Z.to_nat (h `min` k))
        by lia.
      apply take_ge. rewrite length_drop. unfold h. lia.
Qed.

Lemma slice_nonneg {A} (l : list A) (k : Z) :
  0 ≤ k →
  slice l 0 k = Some (take (Z.to_nat k) l) ∧
  slice l k (Z.of_nat (length l)) = Some (drop (Z.to_nat k) l).
Proof.
  intros Hk.
  assert (is_Some (slice l 0 k)) as [a Ha].
  { unfold slice. case_ltb. by eexists. }
  assert (is_Some (slice l k (Z.of_nat (length l)))) as [b Hb].
  { unfold slice. case_ltb. by eexists. }
  rewrite Ha, Hb.
  assert (length a = (Z.to_nat k `min` length l)%nat) as Hlen.
  { revert Ha. unfold slice. case_ltb.
    intros [= <-]. rewrite length_take, length_drop. lia. }
  destruct (slice_split _ _ _ _ Ha Hb) as (m & -> & ->).
  rewrite length_take in Hlen.
  assert (∀ n : nat, take n l = take (n `min` length l)%nat l
                     ∧ drop n l = drop (n `min` length l)%nat l) as Hclip.
  { intros n. destruct (decide (n ≤ length l)%nat).
    - by replace (n `min` length l)%nat with n by lia.
    - by rewrite !take_ge, !drop_ge by lia. }
  destruct (Hclip m) as [-> ->]. destruct (Hclip (Z.to_nat k)) as [-> ->].
  by rewrite Hlen.
Qed.

Lemma slice_neg {A} (l : list A) (k : Z) :
  k < 0 → - Z.of_nat (length l) ≤ k →
  slice l 0 k = Some (take (Z.to_nat (Z.of_nat (length l) + k)) l) ∧
  slice l k (Z.of_nat (length l))
  = Some (drop (Z.to_nat (Z.of_nat (length l) + k)) l).
Proof.
  intros Hk Hlow.
  assert (is_Some (slice l 0 k)) as [a Ha].
  { unfold slice. case_ltb. by eexists. }
  assert (is_Some (slice l k (Z.of_nat (length l)))) as [b Hb].
  { unfold slice. case_ltb. by eexists. }
  rewrite Ha, Hb.
  assert (length a = Z.to_nat (Z.of_nat (length l) + k)) as Hlen.
  { revert Ha. unfold slice. case_ltb.
    intros [= <-]. rewrite length_take, length_drop. lia. }
  destruct (slice_split _ _ _ _ Ha Hb) as (m & -> & ->).
  rewrite length_take in Hlen.
  destruct (decide (m ≤ length l)%nat).
  - by replace (Z.to_nat (Z.of_nat (length l) + k)) with m by lia.
  - replace (Z.to_nat (Z.of_nat (length l) + k)) with (length l) by lia.
    by rewrite !take_ge, !drop_ge by lia.
Qed.


(** The two slices of the split are a prefix and the suffix that follows
    it, for every count that does not make the first slice raise. *)
Lemma slice_prefix {A} (l : list A) (k : Z) :
  - Z.of_nat (length l) ≤ k →
  slice l 0 k
  = Some (take (Z.to_nat (if k <? 0 then Z.of_nat (length l) + k else k)) l) ∧
  slice l k (Z.of_nat (length l))
  = Some (drop (Z.to_nat (if k <? 0 then Z.of_nat (length l) + k else k)) l).
Proof.
  intros Hlow. destruct (Z.ltb_spec k 0).
  - by apply slice_neg.
  - by apply slice_nonneg.
Qed.

(** ** Sorted distinct cells *)

#[export] Instance value_le_total : Total (value_le (float:=float)).
Proof.
  intros a b. unfold value_le.
  destruct a as [|x|x|x|x], b as [|y|y|y|y]; simpl; auto.
  - destruct x, y; simpl; auto.
  - destruct (Z.leb_spec x y), (Z.leb_spec y x); simpl; auto; lia.
  - destruct (f_ltb y x) eqn:Hyx; simpl; auto.
    right. by rewrite (f_ltb_asym _ _ Hyx).
  - destruct (String.leb_total x y) as [->| ->]; simpl; auto.
Qed.

Lemma unique_sorted_perm (l : list value) :
  unique_sorted l ≡ₚ remove_dups l.
Proof. apply merge_sort_Permutation. Qed.

Lemma NoDup_unique_sorted (l : list value) : NoDup (unique_sorted l).
Proof. rewrite unique_sorted_perm. apply NoDup_remove_dups. Qed.

Lemma elem_of_unique_sorted (l : list value) x :
  x ∈ unique_sorted l ↔ x ∈ l.
Proof. by rewrite unique_sorted_perm, elem_of_remove_dups. Qed.

Lemma Sorted_unique_sorted (l : list value) :
  Sorted value_le (unique_sorted l).
Proof. apply (Sorted_merge_sort _). Qed.

(** ** Match identifiers of a frame *)

Lemma elem_of_select_column c df l g :
  select_column c df = Some l →
  g ∈ l ↔ ∃ r, r ∈ df ∧ r !! c = Some g.
Proof.
  unfold select_column. intros Hl%mapM_Some.
  induction Hl as [|r v df l Hr _ IH].
  - split; [by intros ?%elem_of_nil|]. by intros (? & ?%elem_of_nil & _).
  - rewrite elem_of_cons, IH. split.
    + intros [->|(r' & ? & ?)]; [exists r|exists r'];
        rewrite elem_of_cons; auto.
    + intros (r' & [->|?]%elem_of_cons & Hr'); [left; congruence|eauto].
Qed.

Lemma elem_of_game_ids_of df g :
  g ∈ game_ids_of df ↔ g ≠ VNull ∧ ∃ r, r ∈ df ∧ r !! "gameId" = Some g.
Proof.
  unfold game_ids_of. rewrite list_elem_of_filter, list_elem_of_omap. done.
Qed.

Lemma elem_of_semi_join c ids df out r :
  semi_join c ids df = Some out →
  r ∈ out ↔ r ∈ df ∧ ∃ v, r !! c = Some v ∧ v ≠ VNull ∧ v ∈ ids.
Proof.
  unfold semi_join. intros Hsel.
  rewrite (elem_of_select_rows _ _ _ _ Hsel).
  split; intros [Hr Hv]; split; try done.
  - destruct (r !! c) as [v|]; simplify_eq/=.
    exists v. split; [done|]. by apply bool_decide_eq_true_1 in Hv.
  - destruct Hv as (v & -> & Hv). simpl. f_equal.
    by apply bool_decide_eq_true_2.
Qed.

(** ** The split *)

Lemma split_Some df ratio train val :
  _split_by_worldcup_phase df ratio = Some (train, val) →
  ∃ (ids : list value) (m : nat),
    select_column "gameId" df = Some ids ∧
    (∃ k,
       n_train_games_of ratio (Z.of_nat (length (unique_sorted ids)))
       = Some k ∧
       slice (unique_sorted ids) 0 k = Some (take m (unique_sorted ids))) ∧
    semi_join "gameId" (take m (unique_sorted ids)) df = Some train ∧
    semi_join "gameId" (drop m (unique_sorted ids)) df = Some val.
Proof.
  unfold _split_by_worldcup_phase. intros Hsplit.
  destruct (select_column "gameId" df) as [ids|] eqn:Hids; simplify_eq/=.
  destruct (n_train_games_of ratio _) as [k|] eqn:Hk; simplify_eq/=.
  destruct (slice (unique_sorted ids) 0 k) as [a|] eqn:Ha; simplify_eq/=.
  destruct (slice (unique_sorted ids) k (Z.of_nat _)) as [b|] eqn:Hb;
    simplify_eq/=.
  destruct (slice_split _ _ _ _ Ha Hb) as (m & -> & ->).
  destruct (semi_join "gameId" (take m _) df) as [tr|] eqn:Htr; simplify_eq/=.
  destruct (semi_join "gameId" (drop m _) df) as [va|] eqn:Hva; simplify_eq/=.
  exists ids, m. eauto 6.
Qed.

Lemma split_partition df ratio train val :
  _split_by_worldcup_phase df ratio = Some (train, val) →
  (∀ g, g ∈ game_ids_of train → g ∈ game_ids_of val → False) ∧
  (∀ g, g ∈ game_ids_of df ↔ g ∈ game_ids_of train ∨ g ∈ game_ids_of val) ∧
  (∀ r, r ∈ train → r ∈ val → False).
Proof.
  intros (ids & m & Hids & _ & Htr & Hva)%split_Some.
  pose proof (NoDup_unique_sorted ids) as Hnd.
  rewrite <-(take_drop m (unique_sorted ids)) in Hnd.
  apply NoDup_app in Hnd as (_ & Hdisj & _).
  assert (∀ r, r ∈ train → r ∈ val → False) as Hrows.
  { intros r (_ & v & Hv & _ & Hin1)%(elem_of_semi_join _ _ _ _ _ Htr)
             (_ & v' & Hv' & _ & Hin2)%(elem_of_semi_join _ _ _ _ _ Hva).
    simplify_eq. by eapply Hdisj. }
  split; [|split; [|done]].
  - intros g (_ & r & Hr & Hg)%elem_of_game_ids_of
             (_ & r' & Hr' & Hg')%elem_of_game_ids_of.
    apply (elem_of_semi_join _ _ _ _ _ Htr) in Hr as (_ & v & Hv & _ & Hin1).
    apply (elem_of_semi_join _ _ _ _ _ Hva) in Hr' as (_ & v' & Hv' & _ & Hin2).
    simplify_eq. by eapply Hdisj.
  - intros g. rewrite !elem_of_game_ids_of. split.
    + intros (Hg & r & Hr & Hrg).
      assert (g ∈ take m (unique_sorted ids) ++ drop m (unique_sorted ids))
        as [Hin|Hin]%elem_of_app.
      { rewrite take_drop, elem_of_unique_sorted.
        apply (elem_of_select_column _ _ _ _ Hids). eauto. }
      * left. split; [done|]. exists r. split; [|done].
        apply (elem_of_semi_join _ _ _ _ _ Htr). eauto 6.
      * right. split; [done|]. exists r. split; [|done].
        apply (elem_of_semi_join _ _ _ _ _ Hva). eauto 6.
    + intros [(Hg & r & Hr & Hrg)|(Hg & r & Hr & Hrg)];
        (split; [done|]); exists r; (split; [|done]).
      * by apply (elem_of_semi_join _ _ _ _ _ Htr) in Hr as [? _].
      * by apply (elem_of_semi_join _ _ _ _ _ Hva) in Hr as [? _].
Qed.

Lemma semi_join_is_Some c ids (l : list value) df :
  select_column c df = Some l → is_Some (semi_join c ids df).
Proof.
  unfold select_column, semi_join. intros Hl.
  apply select_rows_is_Some, Forall_forall. intros r Hr.
  assert (is_Some (mapM (λ r : Row, r !! c) df)) as Hsome by eauto.
  apply mapM_is_Some in Hsome. rewrite Forall_forall in Hsome.
  destruct (Hsome r Hr) as [v Hv]; simpl in Hv. rewrite Hv. by eexists.
Qed.



(** The split returns for every count that is computed and is not below
    minus the number of games; its partitions are the semi-joins against
    a prefix of the sorted identifiers and the suffix that follows it. *)
Lemma split_returns df ratio (ids : list value) (k : Z) :
  select_column "gameId" df = Some ids →
  n_train_games_of ratio (Z.of_nat (length (unique_sorted ids))) = Some k →
  - Z.of_nat (length (unique_sorted ids)) ≤ k →
  ∃ train val,
    _split_by_worldcup_phase df ratio = Some (train, val) ∧
    semi_join "gameId"
      (take (Z.to_nat (if k <? 0
                       then Z.of_nat (length (unique_sorted ids)) + k else k))
         (unique_sorted ids)) df = Some train ∧
    semi_join "gameId"
      (drop (Z.to_nat (if k <? 0
                       then Z.of_nat (length (unique_sorted ids)) + k else k))
         (unique_sorted ids)) df = Some val.
Proof.
  intros Hids Hk Hlow. unfold _split_by_worldcup_phase.
  rewrite Hids. simpl. rewrite Hk. simpl.
  destruct (slice_prefix (unique_sorted ids) k Hlow) as [-> ->]. simpl.
  set (m := Z.to_nat _).
  destruct (semi_join_is_Some "gameId" (take m (unique_sorted ids)) _ _ Hids)
    as [train Htr].
  destruct (semi_join_is_Some "gameId" (drop m (unique_sorted ids)) _ _ Hids)
    as [val Hva].
  exists train, val. by rewrite Htr, Hva.
Qed.


(** A frame whose match identifiers are exactly 1 and 2. *)
Lemma unique_sorted_two (l : list value) :
  (∀ x, x ∈ l ↔ x = VInt 1 ∨ x = VInt 2) →
  unique_sorted l = [VInt 1; VInt 2].
Proof.
  intros Hl.
  assert (unique_sorted l ≡ₚ [VInt 1; VInt 2]) as Hperm.
  { apply NoDup_Permutation.
    - apply NoDup_unique_sorted.
    - apply NoDup_cons. split; [|apply NoDup_singleton].
      rewrite list_elem_of_singleton. congruence.
    - intros x. rewrite elem_of_unique_sorted, Hl, !elem_of_cons, elem_of_nil.
      tauto. }
  pose proof (Sorted_unique_sorted l) as Hsorted.
  symmetry in Hperm. apply Permutation_length_2_inv in Hperm as [->| Heq].
  - done.
  - rewrite Heq in Hsorted. inversion Hsorted as [|?? _ Hhd]; subst.
    inversion Hhd as [|?? Hle]; subst. by vm_compute in Hle.
Qed.

End FrameFacts.

(** ** The phase-aware split: claims *)

(** C2. The match identifiers of the train and validation partitions are
    disjoint and together are the match identifiers of the input, and no
    row is in both partitions; when the identifiers of the input are
    exactly 1 and 2 and the ratio is 0.5, the rows of match 1 are the
    training partition and the rows of match 2 the validation partition. *)
Theorem split_partitions_matches {float : Type} `{FloatOps float}
    (df train val : DataFrame (float:=float)) (ratio : pyfloat) :
  _split_by_worldcup_phase df ratio = Some (train, val) →
  (∀ g, g ∈ game_ids_of train → g ∉ game_ids_of val) ∧
  (∀ g, g ∈ game_ids_of df ↔ g ∈ game_ids_of train ∨ g ∈ game_ids_of val) ∧
  (∀ r, r ∈ train → r ∉ val) ∧
  ((∀ g, (∃ r, r ∈ df ∧ r !! "gameId" = Some g) ↔ g = VInt 1 ∨ g = VInt 2) →
   ratio = float_0_5 →
   train = filter (λ r, r !! "gameId" = Some (VInt 1)) df ∧
   val = filter (λ r, r !! "gameId" = Some (VInt 2)) df).
Proof.
  intros Hsplit.
  destruct (split_partition _ _ _ _ Hsplit) as (Hdisj & Hunion & Hrows).
  split; [|split; [|split]]; [by eauto..|].
  intros Hids ->.
  apply split_Some
    in Hsplit as (ids & m & Hsel & (k & Hk & Hslice) & Htr & Hva).
  assert (unique_sorted ids = [VInt 1; VInt 2]) as Hsorted.
  { apply unique_sorted_two. intros x.
    by rewrite (elem_of_select_column _ _ _ _ Hsel). }
  rewrite Hsorted in *.
  assert (k = 1) as ->.
  { vm_compute in Hk. by injection Hk as <-. }
  assert (m = 1%nat) as ->.
  { vm_compute in Hslice. destruct m as [|[|m]]; simplify_eq/=. done. }
  simpl in Htr, Hva.
  apply select_rows_Some in Htr as [_ ->], Hva as [_ ->].
  split; apply list_filter_iff; intros r;
    (destruct (r !! "gameId") as [v|] eqn:Hv; simpl; [|by split]);
    (split; intros [= Heq]; [apply bool_decide_eq_true_1 in Heq|]).
  - destruct Heq as [_ ->%list_elem_of_singleton]. done.
  - by subst v.
  - destruct Heq as [_ ->%list_elem_of_singleton]. done.
  - by subst v.
Qed.

Lemma split_partitions_matches_witness :
  ∃ train val,
    _split_by_worldcup_phase two_matches float_0_5 = Some (train, val) ∧
    (∀ r, r ∈ train → r ∉ val) ∧
    train = filter (λ r, r !! "gameId" = Some (VInt 1)) two_matches ∧
    val = filter (λ r, r !! "gameId" = Some (VInt 2)) two_matches.
Proof.
  destruct (split_returns two_matches float_0_5
              [VInt 2; VInt 1; VInt 1; VInt 2] 1)
    as (train & val & Hsplit & _);
    [vm_compute; reflexivity|vm_compute; reflexivity|vm_compute; discriminate|].
  exists train, val. split; [exact Hsplit|].
  destruct (split_partitions_matches _ _ _ _ Hsplit)
    as (_ & _ & Hrows & Hscen).
  split; [exact Hrows|].
  apply Hscen; [|reflexivity].
  intros g. unfold two_matches. split.
  - intros (r & Hr & Hg). rewrite !elem_of_cons, elem_of_nil in Hr.
    destruct Hr as [->|[->|[->|[->|[]]]]]; vm_compute in Hg;
      injection Hg as <-; auto.
  - intros [->| ->]; [exists (match_row 1 0)|exists (match_row 2 0)];
      (split; [rewrite !elem_of_cons; auto|vm_compute; reflexivity]).
Defined.







(** ** Columns through the frame operations *)

Section ColumnFacts.
Context {float : Type} `{FloatOps float}.

Implicit Types (r : Row (float:=float)) (df : DataFrame (float:=float)).
Implicit Types (v : value (float:=float)).

Lemma lookup_set_columns_ne (vs : list (string * value)) r c :
  c ∉ vs.*1 → set_columns vs r !! c = r !! c.
Proof.
  unfold set_columns. revert r.
  induction vs as [|[n v] vs IH]; intros r Hc; simpl; [done|].
  rewrite fmap_cons, not_elem_of_cons in Hc. destruct Hc as [Hne Hc].
  rewrite IH by done. simpl. unfold Row in *. by rewrite lookup_insert_ne.
Qed.

Lemma lookup_set_columns (vs : list (string * value)) r c v :
  NoDup vs.*1 → (c, v) ∈ vs → set_columns vs r !! c = Some v.
Proof.
  unfold set_columns. revert r.
  induction vs as [|[n w] vs IH]; intros r Hnd Hin; simpl.
  - by apply elem_of_nil in Hin.
  - rewrite fmap_cons in Hnd. apply NoDup_cons in Hnd as [Hn Hnd].
    apply elem_of_cons in Hin as [[= <- <-]|Hin].
    + fold (set_columns vs (<[c:=v]> r)).
      rewrite lookup_set_columns_ne by done. unfold Row in *.
      apply lookup_insert_eq.
    + by apply IH.
Qed.

Lemma eval_named_Some (es : list (string * Expr)) df r vs :
  eval_named es df r = Some vs →
  vs.*1 = es.*1 ∧
  ∀ c e, (c, e) ∈ es → ∃ v, e df r = Some v ∧ (c, v) ∈ vs.
Proof.
  unfold eval_named. intros Hvs%mapM_Some.
  induction Hvs as [|[c e] [c' v] es vs Hev _ [IH1 IH2]]; simpl.
  - split; [done|]. by intros ?? ?%elem_of_nil.
  - simpl in Hev. destruct (e df r) as [w|] eqn:Hw; simplify_eq/=.
    split; [by f_equal|].
    intros c0 e0 [[= -> ->]|Hin]%elem_of_cons.
    + exists v. split; [done|]. by left.
    + destruct (IH2 _ _ Hin) as (v0 & ? & ?). exists v0.
      split; [done|]. by right.
Qed.

(** The rows after [with_columns], one for each row before. *)
Lemma with_columns_Some (es : list (string * Expr)) df out :
  with_columns es df = Some out →
  Forall2 (λ r r', ∃ vs, eval_named es df r = Some vs
                         ∧ r' = set_columns vs r) df out.
Proof.
  unfold with_columns. intros Hout%mapM_Some.
  eapply Forall2_impl; [exact Hout|]. simpl. intros r r' Hr.
  destruct (eval_named es df r) as [vs|]; simplify_eq/=. eauto.
Qed.

(** A column that is not assigned keeps its cells. *)
Lemma with_columns_keeps (es : list (string * Expr)) df out c :
  c ∉ es.*1 →
  with_columns es df = Some out →
  Forall2 (λ r r', r' !! c = r !! c) df out.
Proof.
  intros Hc Hout%with_columns_Some.
  eapply Forall2_impl; [exact Hout|]. simpl.
  intros r r' (vs & [Hnames _]%eval_named_Some & ->).
  apply lookup_set_columns_ne. by rewrite Hnames.
Qed.

(** An assigned column holds the value of its expression. *)
Lemma with_columns_assigns (es : list (string * Expr)) df out c e :
  NoDup es.*1 → (c, e) ∈ es →
  with_columns es df = Some out →
  Forall2 (λ r r', is_Some (r' !! c) ∧ r' !! c = e df r) df out.
Proof.
  intros Hnd Hin Hout%with_columns_Some.
  eapply Forall2_impl; [exact Hout|]. simpl.
  intros r r' (vs & [Hnames Hvals]%eval_named_Some & ->).
  destruct (Hvals _ _ Hin) as (v & Hv & Hvin).
  rewrite Hv, (lookup_set_columns vs r c v); [eauto|by rewrite Hnames|done].
Qed.

(** The rows after [drop_columns]. *)
Lemma drop_columns_Some (cols : list string) df out :
  drop_columns cols df = Some out →
  out = (λ r : Row, foldr delete r cols) <$> df.
Proof.
  unfold drop_columns. intros Hout%mapM_Some.
  induction Hout as [|r r' df out Hr _ IH]; simpl; [done|].
  destruct (forallb _ cols); simplify_eq/=. done.
Qed.

Lemma drop_columns_keeps (cols : list string) df out c :
  c ∉ cols →
  drop_columns cols df = Some out →
  Forall2 (λ r r', r' !! c = r !! c) df out.
Proof.
  intros Hc ->%drop_columns_Some. apply Forall2_fmap_r, Forall_Forall2_diag.
  apply Forall_forall. intros r _. simpl. unfold Row in *.
  by rewrite lookup_foldr_delete_not_elem_of.
Qed.

Lemma drop_columns_drops (cols : list string) df out c :
  c ∈ cols →
  drop_columns cols df = Some out →
  Forall (λ r', r' !! c = None) out.
Proof.
  intros Hc ->%drop_columns_Some. apply Forall_fmap, Forall_forall.
  intros r _. simpl. unfold Row in *. by rewrite lookup_foldr_delete.
Qed.

Lemma with_columns_single c (e : Expr) df out :
  with_columns [(c, e)] df = Some out →
  Forall2 (λ r r', ∃ v, e df r = Some v ∧ r' = <[c:=v]> r) df out.
Proof.
  intros Hout%with_columns_Some.
  eapply Forall2_impl; [exact Hout|]. simpl.
  intros r r' (vs & Hvs & ->). unfold eval_named in Hvs. simpl in Hvs.
  destruct (e df r) as [v|]; simplify_eq/=.
  injection Hvs as <-. eauto.
Qed.

(** ** Window expressions *)

Lemma filter_first_over_col c (p : Expr) (P : Row → Prop)
    `{∀ r, Decision (P r)} df r v :
  (∀ r' b, p df r' ≫= as_mask = Some b → b = true ↔ P r') →
  filter_first_over (col c) p event_keys df r = Some v →
  v = default VNull (head (event_cells c P df r)).
Proof.
  intros Hp. unfold filter_first_over, event_cells.
  generalize event_keys. intros keys Hv.
  destruct (mapM (λ k, r !! k) keys) as [ks|]; simplify_eq/=.
  destruct (mapM _ (filter _ df)) as [vs|] eqn:Hvs; simplify_eq/=.
  do 2 f_equal.
  assert (filter (λ r', same_group keys r r' = true ∧ P r') df
          = filter P (filter (λ r', same_group keys r r' = true) df))
    as ->.
  { etransitivity; [|symmetry; apply list_filter_filter].
    apply list_filter_iff. tauto. }
  apply mapM_Some in Hvs. revert Hvs.
  generalize (filter (λ r', same_group keys r r' = true) df).
  intros g Hvs. induction Hvs as [|r' [b w] g vs Hr _ IH]; [done|].
  unfold col in Hr. simpl in Hr.
  destruct (r' !! c) as [w'|] eqn:Hw; simplify_eq/=.
  destruct (p df r' ≫= as_mask) as [b'|] eqn:Hb; simplify_eq/=.
  specialize (Hp _ _ Hb).
  rewrite filter_cons, (filter_cons P). simpl.
  destruct b; case_decide; try done.
  - destruct (decide (P r')) as [|[]]; [|by apply Hp].
    simpl. rewrite Hw. simpl. by f_equal.
  - destruct (decide (P r')) as [HP|]; [|done].
    apply Hp in HP. done.
Qed.

(** ** Relating the rows of two frames *)

Lemma Forall2_compose {A B C} (R1 : A → B → Prop) (R2 : B → C → Prop)
    l1 l2 l3 :
  Forall2 R1 l1 l2 → Forall2 R2 l2 l3 →
  Forall2 (λ x z, ∃ y, R1 x y ∧ R2 y z) l1 l3.
Proof.
  intros H1. revert l3.
  induction H1; intros l3 H2; inversion H2; subst; constructor; eauto.
Qed.

Lemma Forall2_and {A B} (R1 R2 : A → B → Prop) l k :
  Forall2 R1 l k → Forall2 R2 l k → Forall2 (λ x y, R1 x y ∧ R2 x y) l k.
Proof.
  intros H1. induction H1; intros H2; inversion H2; subst; constructor; auto.
Qed.

Lemma Forall2_with_Forall {A B} (P : A → Prop) (R : A → B → Prop) l k :
  Forall P l → Forall2 R l k → Forall2 (λ x y, P x ∧ R x y) l k.
Proof.
  intros HP HR. induction HR; inversion HP; subst; constructor; auto.
Qed.

Lemma Forall2_filter {A B} (R : A → B → Prop) (P : A → Prop) (Q : B → Prop)
    `{∀ x, Decision (P x)} `{∀ y, Decision (Q y)} l k :
  Forall2 (λ x y, (Q y ↔ P x) ∧ (P x → R x y)) l k →
  Forall2 R (filter P l) (filter Q k).
Proof.
  induction 1 as [|x y l k [HPQ HR] _ IH]; [constructor|].
  rewrite (filter_cons P), (filter_cons Q).
  destruct (decide (P x)), (decide (Q y)); try tauto.
  constructor; auto.
Qed.

Lemma Forall2_elem_of_r {A B} (R : A → B → Prop) l k y :
  Forall2 R l k → y ∈ k → ∃ x, x ∈ l ∧ R x y.
Proof.
  induction 1 as [|x y' l k HR _ IH]; [by intros ?%elem_of_nil|].
  intros [->|Hy]%elem_of_cons.
  - exists x. split; [by left|done].
  - destruct (IH Hy) as (x' & ? & ?). exists x'. split; [by right|done].
Qed.

(** ** Equality of cells *)

Lemma value_eq_Some (a b x : value (float:=float)) :
  value_eq a b = Some x →
  (x = VNull ∧ (a = VNull ∨ b = VNull))
  ∨ (∃ c, x = VBool c ∧ a ≠ VNull ∧ b ≠ VNull).
Proof.
  destruct a, b; simpl; intros; simplify_eq; eauto 10.
Qed.


(** ** The possession attribution *)

Lemma carrier_mask_spec df r' (b : bool) :
  map_expr2 value_eq (col "is_ball_carrier") (lit (VInt 1)) df r' ≫= as_mask
  = Some b →
  b = true ↔ is_carrier_row r'.
Proof.
  unfold map_expr2, col, lit, is_carrier_row. simpl.
  destruct (r' !! "is_ball_carrier") as [a|]; simpl; [|done].
  destruct (value_eq a (VInt 1)) as [x|]; simpl; [|done].
  destruct x; simpl; intros; simplify_eq; split; intros; simplify_eq; done.
Qed.

Lemma elem_of_event_cells c (P : Row → Prop) `{∀ r, Decision (P r)} df r x :
  x ∈ event_cells c P df r → ∃ r', r' ∈ df ∧ P r' ∧ r' !! c = Some x.
Proof.
  unfold event_cells. rewrite list_elem_of_omap.
  intros (r' & ([_ HP] & Hr')%list_elem_of_filter & Hx). eauto.
Qed.

Lemma possession_attribution_Some t out :
  Forall has_team t →
  possession_attribution t = Some out →
  Forall2
    (λ r r',
       (∃ team cteam (b : bool),
          r !! "team" = Some team ∧
          head (carrier_teams t r) = Some cteam ∧
          value_eq team cteam = Some (VBool b) ∧
          r' !! "is_possession_team" = Some (VInt (Z.b2z b))) ∧
       ∀ c, c ≠ "is_possession_team" → c ≠ "possession_team_tmp" →
            r' !! c = r !! c)
    (filter (λ r, carrier_teams t r ≠ []) t) out.
Proof.
  intros Hteams. unfold possession_attribution. intros Hout.
  destruct (with_columns [("possession_team_tmp", _)] t) as [t1|] eqn:H1;
    simplify_eq/=.
  destruct (with_columns [("is_possession_team", _)] t1) as [t2|] eqn:H2;
    simplify_eq/=.
  destruct (drop_columns ["possession_team_tmp"] t2) as [t3|] eqn:H3;
    simplify_eq/=.
  apply with_columns_single in H1, H2.
  apply drop_columns_Some in H3. apply select_rows_Some in Hout as [_ ->].
  assert (Forall2 (λ r2 r3 : Row, r3 = delete "possession_team_tmp" r2) t2 t3)
    as H3'.
  { subst t3. apply Forall2_fmap_r, Forall_Forall2_diag, Forall_forall.
    by intros. }
  pose proof (Forall2_with_Forall _ _ _ _ Hteams
                (Forall2_compose _ _ _ _ _
                   (Forall2_compose _ _ _ _ _ H1 H2) H3')) as Hall.
  apply Forall2_filter. eapply Forall2_impl; [exact Hall|]. simpl.
  intros r r3 ((team & Hteam & Hnn) & r2 & (r1 & (v & Hv & ->)
                        & (w & Hw & ->)) & ->).
  apply (filter_first_over_col _ _ is_carrier_row) in Hv;
    [|apply carrier_mask_spec].
  fold (carrier_teams t r) in Hv.
  unfold is_possession_team_expr, map_expr, map_expr2, col in Hw.
  unfold Row in *.
  rewrite (lookup_insert_ne _ "possession_team_tmp" "team") in Hw by done.
  rewrite Hteam in Hw. rewrite lookup_insert_eq in Hw.
  simpl in Hw.
  destruct (value_eq team v) as [x|] eqn:Hx; simplify_eq/=.
  rewrite lookup_delete_ne, lookup_insert_eq by done. simpl.
  destruct (carrier_teams t r) as [|ct cts] eqn:Hcts; simpl in Hx.
  - assert (w = VNull) as -> by (destruct team; by simplify_eq/=).
    split; [|done]. split; intros; simplify_eq.
  - assert (ct ≠ VNull) as Hct.
    { assert (ct ∈ carrier_teams t r) as Hin by (rewrite Hcts; by left).
      apply elem_of_event_cells in Hin as (r' & Hr' & _ & Hr't).
      rewrite Forall_forall in Hteams.
      destruct (Hteams r' Hr') as (? & ? & ?). congruence. }
    destruct (value_eq_Some _ _ _ Hx) as [[_ [?|?]]|(b & -> & _)]; [done..|].
    simpl in Hw. simplify_eq. split; [done|]. intros _. split.
    + exists team, ct, b. done.
    + intros c ??.
      by rewrite lookup_delete_ne, !lookup_insert_ne by done.
Qed.

(** ** Tracing rows back through the stages *)

Lemma traces_trans cs df1 df2 df3 :
  traces cs df1 df2 → traces cs df2 df3 → traces cs df1 df3.
Proof.
  intros H12 H23 r3 (r2 & Hr2 & Ha23)%H23.
  destruct (H12 r2 Hr2) as (r1 & Hr1 & Ha12).
  exists r1. split; [done|]. intros c Hc. by rewrite Ha23, Ha12.
Qed.

Lemma Forall2_traces cs df out :
  Forall2 (agree_on cs) df out → traces cs df out.
Proof. intros Hall r' Hr'. by eapply Forall2_elem_of_r. Qed.

Lemma with_columns_agree (es : list (string * Expr)) cs df out :
  Forall (λ c, c ∉ es.*1) cs →
  with_columns es df = Some out →
  Forall2 (agree_on cs) df out.
Proof.
  intros Hcs Hout%with_columns_Some.
  eapply Forall2_impl; [exact Hout|]. simpl.
  intros r r' (vs & [Hnames _]%eval_named_Some & ->) c Hc.
  apply lookup_set_columns_ne. rewrite Hnames.
  rewrite Forall_forall in Hcs. auto.
Qed.

Lemma drop_columns_agree (cols : list string) cs df out :
  Forall (λ c, c ∉ cols) cs →
  drop_columns cols df = Some out →
  Forall2 (agree_on cs) df out.
Proof.
  intros Hcs ->%drop_columns_Some.
  apply Forall2_fmap_r, Forall_Forall2_diag, Forall_forall.
  intros r _ c Hc. unfold Row in *.
  rewrite lookup_foldr_delete_not_elem_of; [done|].
  rewrite Forall_forall in Hcs. auto.
Qed.

Lemma select_rows_traces (mask : Row → option bool) cs df out :
  select_rows mask df = Some out → traces cs df out.
Proof.
  intros Hout r' [Hr' _]%(elem_of_select_rows _ _ _ _ Hout).
  exists r'. done.
Qed.

Lemma Forall2_agree_Forall c cs (P : option value → Prop) df out :
  c ∈ cs →
  Forall2 (agree_on cs) df out →
  Forall (λ r, P (r !! c)) df → Forall (λ r, P (r !! c)) out.
Proof.
  intros Hc Hall. induction Hall as [|r r' df out Hr _ IH]; [done|].
  intros [HP Hdf]%Forall_cons. constructor; [|auto].
  by rewrite (Hr c Hc).
Qed.

Lemma select_rows_Forall (mask : Row → option bool) (P : Row → Prop) df out :
  select_rows mask df = Some out → Forall P df → Forall P out.
Proof.
  intros [_ ->]%select_rows_Some Hdf. rewrite Forall_forall in Hdf |- *.
  intros r [_ Hr]%list_elem_of_filter. auto.
Qed.


(** ** The stages of the feature deriver *)

Lemma filter_player_rows_Some cs df out :
  filter_player_rows df = Some out →
  Forall has_team out ∧ traces cs df out.
Proof.
  unfold filter_player_rows, filter_rows. intros Hout.
  destruct (select_rows _ df) as [t1|] eqn:H1; simplify_eq/=.
  destruct (select_rows _ t1) as [t2|] eqn:H2; simplify_eq/=.
  split.
  - eapply select_rows_Forall; [exact Hout|].
    eapply select_rows_Forall; [exact H2|].
    apply Forall_forall.
    intros r [_ Hr]%(elem_of_select_rows _ _ _ _ H1).
    unfold map_expr, col, is_not_null in Hr.
    destruct (r !! "team") as [v|] eqn:Hv; simplify_eq/=.
    exists v. split; [done|]. by apply bool_decide_eq_true_1 in Hr.
  - eapply traces_trans; [|eapply select_rows_traces, Hout].
    eapply traces_trans; eapply select_rows_traces; eauto.
Qed.

Lemma not_elem_of_weaken (c : string) (l k : list string) :
  k ⊆ l → c ∉ l → c ∉ k.
Proof. intros Hsub Hc Hk. apply Hc, Hsub, Hk. Qed.

Lemma Forall_not_elem_of_weaken (cs l k : list string) :
  k ⊆ l → Forall (λ c, c ∉ l) cs → Forall (λ c, c ∉ k) cs.
Proof.
  intros Hsub Hl. eapply Forall_impl; [exact Hl|].
  intros c. by apply not_elem_of_weaken.
Qed.

Local Ltac solve_sub :=
  let x := fresh in
  intros x; unfold player_columns_written, attribution_columns_written;
  rewrite !elem_of_cons, !elem_of_nil; tauto.

Lemma derive_player_columns_agree cs df out :
  Forall (λ c, c ∉ player_columns_written) cs →
  derive_player_columns df = Some out →
  Forall2 (agree_on cs) df out.
Proof.
  intros Hcs. unfold derive_player_columns. intros Hout.
  destruct (with_columns _ df) as [t1|] eqn:H1; simplify_eq/=.
  eapply Forall2_impl.
  - eapply Forall2_compose.
    + eapply (with_columns_agree _ cs), H1.
      eapply Forall_not_elem_of_weaken, Hcs. simpl. solve_sub.
    + eapply (drop_columns_agree _ cs), Hout.
      eapply Forall_not_elem_of_weaken, Hcs. solve_sub.
  - simpl. intros r r' (r1 & H01 & H1') c Hc. by rewrite H1', H01.
Qed.

Lemma macro_roles_agree (b : bool) cs df out :
  Forall (λ c, c ∉ player_columns_written) cs →
  (if b then with_columns [("playerRole", macro_role_expr)] df else Some df)
  = Some out →
  Forall2 (agree_on cs) df out.
Proof.
  intros Hcs. destruct b.
  - apply with_columns_agree.
    eapply Forall_not_elem_of_weaken, Hcs. simpl. solve_sub.
  - intros [= <-]. apply Forall_Forall2_diag, Forall_forall. by intros.
Qed.

Lemma possession_attribution_traces cs df out :
  Forall (λ c, c ∉ attribution_columns_written) cs →
  possession_attribution df = Some out →
  traces cs df out.
Proof.
  intros Hcs. unfold possession_attribution. intros Hout.
  destruct (with_columns [("possession_team_tmp", _)] df) as [t1|] eqn:H1;
    simplify_eq/=.
  destruct (with_columns [("is_possession_team", _)] t1) as [t2|] eqn:H2;
    simplify_eq/=.
  destruct (drop_columns ["possession_team_tmp"] t2) as [t3|] eqn:H3;
    simplify_eq/=.
  eapply traces_trans; [|eapply select_rows_traces, Hout].
  eapply traces_trans; [|eapply Forall2_traces, drop_columns_agree, H3].
  eapply traces_trans; eapply Forall2_traces, with_columns_agree; eauto.
  all: eapply Forall_not_elem_of_weaken, Hcs; simpl; solve_sub.
Qed.


Section Goal.
Variables (X_GOAL_LEFT X_GOAL_RIGHT Y_GOAL : float).

Lemma x_goal_expr_Some df r v :
  x_goal_expr X_GOAL_LEFT X_GOAL_RIGHT df r = Some v →
  v = VFloat X_GOAL_RIGHT ∨ v = VFloat X_GOAL_LEFT.
Proof.
  unfold x_goal_expr, when_then_otherwise, lit. intros Hv.
  destruct (is_goal_right df r) as [g|]; simplify_eq/=.
  destruct (as_mask g) as [[]|]; simplify_eq/=; auto.
Qed.

Lemma assign_goal_Some cs df out :
  Forall (λ c, c ∉ ["x_goal"; "y_goal"; "team"; "homeTeamStartLeft";
                    "startPeriod2"]) cs →
  assign_goal X_GOAL_LEFT X_GOAL_RIGHT Y_GOAL df = Some out →
  Forall2
    (λ r r',
       agree_on cs r r' ∧
       r' !! "y_goal" = Some (VFloat Y_GOAL) ∧
       r' !! "x_goal" = x_goal_expr X_GOAL_LEFT X_GOAL_RIGHT df r ∧
       (r' !! "x_goal" = Some (VFloat X_GOAL_RIGHT)
        ∨ r' !! "x_goal" = Some (VFloat X_GOAL_LEFT)))
    df out.
Proof.
  intros Hcs. unfold assign_goal. intros Hout.
  destruct (with_columns _ df) as [t1|] eqn:H1; simplify_eq/=.
  assert (Forall2 (agree_on cs) df t1) as Ha1.
  { eapply with_columns_agree, H1.
    eapply Forall_not_elem_of_weaken, Hcs. simpl. solve_sub. }
  assert (Forall2 (agree_on (["x_goal"; "y_goal"] ++ cs)) t1 out) as Ha2.
  { eapply drop_columns_agree, Hout. apply Forall_app. split.
    - repeat constructor; rewrite !elem_of_cons, elem_of_nil;
        intros [?|[?|[?|[]]]]; discriminate.
    - eapply Forall_not_elem_of_weaken, Hcs. solve_sub. }
  assert (NoDup ["x_goal"; "y_goal"]) as Hnd.
  { apply NoDup_cons. split; [|apply NoDup_singleton].
    rewrite list_elem_of_singleton. discriminate. }
  assert (Forall2 (λ r r1, is_Some (r1 !! "x_goal")
                           ∧ r1 !! "x_goal"
                             = x_goal_expr X_GOAL_LEFT X_GOAL_RIGHT df r)
            df t1) as Hx.
  { eapply with_columns_assigns, H1; [exact Hnd|by left]. }
  assert (Forall2 (λ r r1, is_Some (r1 !! "y_goal")
                           ∧ r1 !! "y_goal" = lit (VFloat Y_GOAL) df r)
            df t1) as Hy.
  { eapply with_columns_assigns, H1; [exact Hnd|by right; left]. }
  pose proof (Forall2_compose _ _ _ _ _
                (Forall2_and _ _ _ _ (Forall2_and _ _ _ _ Ha1 Hx) Hy) Ha2)
    as Hall.
  eapply Forall2_impl; [exact Hall|]. simpl.
  intros r r' (r1 & ((Ha & [v Hv] & Hxe) & _ & Hye) & Hb).
  assert (r' !! "x_goal" = r1 !! "x_goal") as Hx'
    by (apply Hb; rewrite !elem_of_cons; auto).
  assert (r' !! "y_goal" = r1 !! "y_goal") as Hy'
    by (apply Hb; rewrite !elem_of_cons; auto).
  rewrite Hx', Hy', Hye. split; [|split; [done|split; [done|]]].
  - intros c Hc. rewrite (Hb c), (Ha c); [done..|].
    rewrite !elem_of_cons. auto.
  - rewrite Hv. rewrite Hxe in Hv.
    destruct (x_goal_expr_Some _ _ _ Hv) as [->| ->]; auto.
Qed.
End Goal.

(** ** The ball features *)

Lemma ball_mask_spec df r' (b : bool) :
  map_expr is_null (col "team") df r' ≫= as_mask = Some b →
  b = true ↔ is_ball_row r'.
Proof.
  unfold map_expr, col, is_null, is_ball_row. 
  destruct (r' !! "team") as [a|]; simpl; [|done].
  intros [= <-]. rewrite bool_decide_eq_true. split; congruence.
Qed.

Lemma event_cells_agree_row c (P : Row → Prop) `{∀ r, Decision (P r)}
    df r r' :
  agree_on event_keys r r' →
  event_cells c P df r' = event_cells c P df r.
Proof.
  intros Hagree. unfold event_cells. f_equal. apply list_filter_iff.
  intros x. unfold same_group, event_keys. simpl.
  rewrite (Hagree "gameEventId"), (Hagree "possessionEventId");
    [done|unfold event_keys; rewrite !elem_of_cons; auto..].
Qed.

Lemma omap_cons_eq {A B} (f : A → option B) (a : A) (l : list A) :
  omap f (a :: l)
  = match f a with Some y => y :: omap f l | None => omap f l end.
Proof. done. Qed.

Lemma event_cells_agree_frame c df df' r :
  Forall2 (agree_on (c :: "team" :: event_keys)) df df' →
  event_cells c is_ball_row df' r = event_cells c is_ball_row df r.
Proof.
  unfold event_cells. induction 1 as [|x x' df df' Hx _ IH]; [done|].
  assert (x' !! c = x !! c) as Hc by (apply Hx; by left).
  assert (x' !! "team" = x !! "team") as Ht
    by (apply Hx; rewrite !elem_of_cons; auto).
  assert (same_group event_keys r x' = same_group event_keys r x) as Hg.
  { unfold same_group, event_keys. simpl.
    rewrite (Hx "gameEventId"), (Hx "possessionEventId");
      [done|unfold event_keys; rewrite !elem_of_cons; auto..]. }
  rewrite !(filter_cons
              (λ r', same_group event_keys r r' = true ∧ is_ball_row r')).
  assert (is_ball_row x' ↔ is_ball_row x) as Hb
    by (unfold is_ball_row; by rewrite Ht).
  assert ((same_group event_keys r x' = true ∧ is_ball_row x')
          ↔ (same_group event_keys r x = true ∧ is_ball_row x)) as Hiff
    by (by rewrite Hg, Hb).
  destruct (decide (same_group event_keys r x' = true ∧ is_ball_row x'))
    as [Hx'|Hx'],
    (decide (same_group event_keys r x = true ∧ is_ball_row x)) as [Hx0|Hx0];
    [|by apply Hiff in Hx'|by apply Hiff in Hx0|].
  - rewrite !omap_cons_eq, Hc.
    destruct (x !! c); [f_equal|]; exact IH.
  - done.
Qed.

Lemma attach_ball_features_Some df out :
  attach_ball_features df = Some out →
  Forall2
    (λ r r',
       (∀ c, c ∈ ball_source_cols →
             r' !! (c +:+ "_ball") = Some (ball_cell c df r)) ∧
       r' !! "z" = None ∧
       agree_on event_keys r r')
    df out.
Proof.
  unfold attach_ball_features. intros Hout.
  destruct (with_columns _ df) as [t1|] eqn:H1'; simplify_eq/=.
  assert (with_columns (ball_feature <$> ball_source_cols) df = Some t1)
    as H1 by exact H1'.
  clear H1'.
  assert (NoDup (ball_feature <$> ball_source_cols).*1) as Hnd.
  { apply (bool_decide_unpack _). vm_compute. exact I. }
  assert (Forall2 (λ r1 r', r' !! "z" = None
                            ∧ agree_on (((λ c, c +:+ "_ball") <$> ball_source_cols)
                                         ++ event_keys) r1 r') t1 out)
    as Hdrop.
  { apply Forall2_and.
    - apply drop_columns_Some in Hout as ->.
      apply Forall2_fmap_r, Forall_Forall2_diag, Forall_forall.
      intros r _. simpl. unfold Row. by rewrite lookup_delete_eq. 
    - eapply drop_columns_agree, Hout.
      apply (bool_decide_unpack _). vm_compute. exact I. }
  pose proof (Forall2_compose _ _ _ _ _ (with_columns_Some _ _ _ H1) Hdrop)
    as Hall.
  eapply Forall2_impl; [exact Hall|]. cbv beta.
  intros r r' (r1 & (vs & Hvs & ->) & Hz & Hagree).
  apply eval_named_Some in Hvs as [Hnames Hvals].
  split; [|split; [done|]].
  - intros c Hc.
    destruct (Hvals (c +:+ "_ball") (ball_feature c).2) as (v & Hv & Hin).
    { apply (list_elem_of_fmap_2 ball_feature) in Hc. exact Hc. }
    rewrite (Hagree (c +:+ "_ball")).
    2:{ apply elem_of_app. left.
        by apply (list_elem_of_fmap_2 (λ c, c +:+ "_ball")). }
    rewrite (lookup_set_columns vs r _ v); [|by rewrite Hnames|done].
    f_equal. simpl in Hv.
    eapply (filter_first_over_col _ _ is_ball_row), Hv. apply ball_mask_spec.
  - intros k Hk. rewrite (Hagree k) by (apply elem_of_app; by right).
    apply lookup_set_columns_ne. rewrite Hnames.
    revert Hk. unfold event_keys. rewrite !elem_of_cons, elem_of_nil.
    intros [->|[->|[]]]; apply (bool_decide_unpack _); vm_compute; exact I.
Qed.


(** ** The table that enters the possession attribution *)

Lemma derive_velocity_agree cs df out :
  Forall (λ c, c ∉ ["cos"; "sin"; "vx"; "vy"; "velocity"; "direction"]) cs →
  derive_velocity df = Some out →
  Forall2 (agree_on cs) df out.
Proof.
  intros Hcs. unfold derive_velocity. intros Hout.
  destruct (with_columns _ df) as [t1|] eqn:H1; simplify_eq/=.
  destruct (with_columns _ t1) as [t2|] eqn:H2; simplify_eq/=.
  assert (Forall2 (agree_on cs) df t1) as Ha1.
  { eapply with_columns_agree, H1.
    eapply Forall_not_elem_of_weaken, Hcs. simpl. solve_sub. }
  assert (Forall2 (agree_on cs) t1 t2) as Ha2.
  { eapply with_columns_agree, H2.
    eapply Forall_not_elem_of_weaken, Hcs. simpl. solve_sub. }
  assert (Forall2 (agree_on cs) t2 out) as Ha3.
  { eapply drop_columns_agree, Hout.
    eapply Forall_not_elem_of_weaken, Hcs. solve_sub. }
  eapply Forall2_impl;
    [exact (Forall2_compose _ _ _ _ _
              (Forall2_compose _ _ _ _ _ Ha1 Ha2) Ha3)|].
  cbv beta. intros r r' (r2 & (r1 & H01 & H12) & H23) c Hc.
  by rewrite H23, H12, H01.
Qed.

Lemma derive_features_Some cfg raw t :
  derive_features cfg raw = Some t →
  ∃ t0 tv ta,
    drop_columns cols_to_drop raw = Some t0 ∧
    derive_velocity t0 = Some tv ∧
    (if include_ball_features cfg then attach_ball_features tv else Some tv)
    = Some ta ∧
    Forall has_team t ∧
    ∀ cs, Forall (λ c, c ∉ player_columns_written) cs → traces cs ta t.
Proof.
  unfold derive_features. intros Ht.
  destruct (drop_columns cols_to_drop raw) as [t0|] eqn:H0; simplify_eq/=.
  destruct (derive_velocity t0) as [tv|] eqn:Hv; simplify_eq/=.
  destruct (if include_ball_features cfg then _ else _) as [ta|] eqn:Ha;
    simplify_eq/=.
  destruct (filter_player_rows ta) as [t1|] eqn:H1; simplify_eq/=.
  destruct (derive_player_columns t1) as [t2|] eqn:H2; simplify_eq/=.
  exists t0, tv, ta. split; [done|]. split; [done|]. split; [done|].
  assert (∀ cs, Forall (λ c, c ∉ player_columns_written) cs →
                Forall2 (agree_on cs) t1 t) as Hagree.
  { intros cs Hcs.
    pose proof (derive_player_columns_agree cs _ _ Hcs H2) as Ha2.
    pose proof (macro_roles_agree _ cs _ _ Hcs Ht) as Ha3.
    eapply Forall2_impl; [exact (Forall2_compose _ _ _ _ _ Ha2 Ha3)|].
    cbv beta. intros r r' (r2 & H12 & H23) c Hc. by rewrite H23, H12. }
  split.
  - destruct (filter_player_rows_Some [] _ _ H1) as [Hteam _].
    apply (Forall2_agree_Forall "team" ["team"]
             (λ o, ∃ v, o = Some v ∧ v ≠ VNull) t1 t); [by left| |exact Hteam].
    apply Hagree. repeat constructor.
    unfold player_columns_written. rewrite !elem_of_cons, elem_of_nil.
    intros [?|[?|[?|[?|[?|[?|[?|[?|[]]]]]]]]]; discriminate.
  - intros cs Hcs.
    destruct (filter_player_rows_Some cs _ _ H1) as [_ Htr].
    eapply traces_trans; [exact Htr|]. by apply Forall2_traces, Hagree.
Qed.

End ColumnFacts.

Section DeriverFacts.
Context {float : Type} `{FloatOps float}.
Variables (X_GOAL_LEFT X_GOAL_RIGHT Y_GOAL : float).

(** ** The whole feature deriver *)

Lemma prepare_dataframe_traces cfg raw out :
  _prepare_dataframe X_GOAL_LEFT X_GOAL_RIGHT Y_GOAL cfg raw = Some out →
  ∃ t0 tv ta,
    drop_columns cols_to_drop raw = Some t0 ∧
    derive_velocity t0 = Some tv ∧
    (if include_ball_features cfg then attach_ball_features tv else Some tv)
    = Some ta ∧
    ∀ cs, Forall (λ c, c ∉ player_columns_written) cs →
          Forall (λ c, c ∉ attribution_columns_written) cs →
          traces cs ta out.
Proof.
  unfold _prepare_dataframe. intros Hout.
  destruct (derive_features cfg raw) as [t|] eqn:Ht; simplify_eq/=.
  destruct (possession_attribution t) as [t4|] eqn:H4; simplify_eq/=.
  destruct (derive_features_Some _ _ _ Ht)
    as (t0 & tv & ta & H0 & Hv & Ha & _ & Htr).
  exists t0, tv, ta. repeat (split; [done|]).
  intros cs Hcs1 Hcs2.
  eapply traces_trans; [by apply Htr|].
  eapply traces_trans; [by eapply possession_attribution_traces|].
  eapply Forall2_traces, Forall2_impl.
  - eapply (assign_goal_Some _ _ _ cs), Hout.
    eapply Forall_not_elem_of_weaken, Hcs2.
    intros x. unfold attribution_columns_written.
    rewrite !elem_of_cons, !elem_of_nil. tauto.
  - cbv beta. tauto.
Qed.

End DeriverFacts.

(** ** The feature deriver: claims *)

(** C5. On every row of the derived table [is_possession_team] is 0 or 1,
    never null. The rows of the output are, in order, the rows of the
    table entering the possession attribution whose event has a
    ball-carrying row; each is flagged with [team == carrier's team],
    where the carrier is the first ball-carrying row of the event, and
    the rows of an event without ball carrier are dropped. *)
Theorem possession_attribution_resolved {float : Type} `{FloatOps float}
    (X_GOAL_LEFT X_GOAL_RIGHT Y_GOAL : float) (cfg : DataConfig)
    (raw out : DataFrame (float:=float)) :
  _prepare_dataframe X_GOAL_LEFT X_GOAL_RIGHT Y_GOAL cfg raw = Some out →
  ∃ t,
    derive_features cfg raw = Some t ∧
    (∀ r', r' ∈ out →
           r' !! "is_possession_team" = Some (VInt 0)
           ∨ r' !! "is_possession_team" = Some (VInt 1)) ∧
    Forall2
      (λ r r',
         ∃ team cteam (b : bool),
           r !! "team" = Some team ∧
           head (carrier_teams t r) = Some cteam ∧
           value_eq team cteam = Some (VBool b) ∧
           (∀ s s', team = VStr s → cteam = VStr s' → b = true ↔ s = s') ∧
           r' !! "is_possession_team" = Some (VInt (Z.b2z b)))
      (filter (λ r, carrier_teams t r ≠ []) t) out.
Proof.
  unfold _prepare_dataframe. intros Hout.
  destruct (derive_features cfg raw) as [t|] eqn:Ht; simplify_eq/=.
  destruct (possession_attribution t) as [t4|] eqn:H4; simplify_eq/=.
  exists t. split; [done|].
  destruct (derive_features_Some _ _ _ Ht)
    as (t0 & tv & ta & _ & _ & _ & Hteam & _).
  pose proof (possession_attribution_Some _ _ Hteam H4) as Hattr.
  assert (Forall (λ c, c ∉ ["x_goal"; "y_goal"; "team"; "homeTeamStartLeft";
                            "startPeriod2"]) ["is_possession_team"]) as Hcs.
  { repeat constructor. rewrite !elem_of_cons, elem_of_nil.
    intros [?|[?|[?|[?|[?|[]]]]]]; discriminate. }
  pose proof (assign_goal_Some _ _ _ _ _ _ Hcs Hout) as Hgoal.
  pose proof (Forall2_compose _ _ _ _ _ Hattr Hgoal) as Hall.
  assert (Forall2
            (λ r r',
               ∃ team cteam (b : bool),
                 r !! "team" = Some team ∧
                 head (carrier_teams t r) = Some cteam ∧
                 value_eq team cteam = Some (VBool b) ∧
                 (∀ s s', team = VStr s → cteam = VStr s' →
                          b = true ↔ s = s') ∧
                 r' !! "is_possession_team" = Some (VInt (Z.b2z b)))
            (filter (λ r, carrier_teams t r ≠ []) t) out) as Hrows.
  { eapply Forall2_impl; [exact Hall|]. cbv beta.
    intros r r' (r4 & ((team & cteam & b & Hrt & Hhd & Heq & Hflag) & _)
                    & Hagree & _).
    exists team, cteam, b. repeat (split; [done|]). split.
    - intros s s' -> ->. simpl in Heq. injection Heq as <-.
      apply bool_decide_eq_true.
    - rewrite (Hagree "is_possession_team") by (by left). done. }
  split; [|exact Hrows].
  intros r' Hr'.
  destruct (Forall2_elem_of_r _ _ _ _ Hrows Hr')
    as (r & _ & _ & _ & b & _ & _ & _ & _ & ->).
  destruct b; auto.
Qed.

Lemma possession_attribution_resolved_witness :
  ∃ out,
    event_features = Some out ∧
    column "is_possession_team" out = [Some (VInt 1); Some (VInt 0)] ∧
    ∀ r', r' ∈ out →
          r' !! "is_possession_team" = Some (VInt 0)
          ∨ r' !! "is_possession_team" = Some (VInt 1).
Proof.
  assert (column "is_possession_team" <$> event_features
          = Some [Some (VInt 1); Some (VInt 0)]) as Hcol
    by (vm_compute; reflexivity).
  destruct event_features as [out|] eqn:Hout; [|discriminate].
  exists out. split; [reflexivity|]. split.
  - by injection Hcol.
  - unfold event_features in Hout.
    destruct (possession_attribution_resolved _ _ _ _ _ _ Hout)
      as (t & _ & Hflag & _).
    exact Hflag.
Defined.

(** C7, as the source has it. With ball features enabled, every row of
    the derived table carries, for each of x, y, z, cos, sin, vx and vy, the
    cell of the first ball row (null team) of its event, in the column
    named after it with the suffix [_ball]; for x, y and z this is the raw
    cell. The raw [z] column is dropped afterward, while its broadcast copy
    [z_ball] stays and is one of the ball columns of the preprocessor. For
    the event with the ball at x = 50, y = 30, both player rows have
    [x_ball] = 50 and [y_ball] = 30. *)
Theorem ball_features_broadcast {float : Type} `{FloatOps float}
    (X_GOAL_LEFT X_GOAL_RIGHT Y_GOAL : float) (cfg : DataConfig)
    (raw out : DataFrame (float:=float)) :
  include_ball_features cfg = true →
  _prepare_dataframe X_GOAL_LEFT X_GOAL_RIGHT Y_GOAL cfg raw = Some out →
  (∃ t0 tv,
     drop_columns cols_to_drop raw = Some t0 ∧
     derive_velocity t0 = Some tv ∧
     ∀ r', r' ∈ out →
       (∀ c, c ∈ ball_source_cols →
             r' !! (c +:+ "_ball") = Some (ball_cell c tv r')) ∧
       (∀ c, c ∈ ["x"; "y"; "z"] → ball_cell c tv r' = ball_cell c raw r') ∧
       r' !! "z" = None) ∧
  "z" ∈ ball_source_cols ∧
  (λ c, c +:+ "_ball") <$> ball_source_cols
  = ["x_ball"; "y_ball"; "z_ball"; "cos_ball"; "sin_ball"; "vx_ball";
     "vy_ball"] ∧
  "z_ball" ∈ ball_cols ∧
  (column "x_ball" <$> event_features
   = Some [Some (VFloat (FLit 50)); Some (VFloat (FLit 50))]) ∧
  (column "y_ball" <$> event_features
   = Some [Some (VFloat (FLit 30)); Some (VFloat (FLit 30))]).
Proof.
  intros Hball Hout.
  split; [|repeat split; try (vm_compute; reflexivity);
           apply (bool_decide_unpack _); vm_compute; exact I].
  destruct (prepare_dataframe_traces _ _ _ _ _ _ Hout)
    as (t0 & tv & ta & H0 & Hv & Ha & Htr).
  rewrite Hball in Ha.
  exists t0, tv. repeat (split; [done|]).
  intros r' Hr'.
  set (cs := ((λ c, c +:+ "_ball") <$> ball_source_cols)
             ++ event_keys ++ ["z"]).
  destruct (Htr cs) with (r' := r') as (ra & Hra & Hagree); [..|done|].
  { apply (bool_decide_unpack _). vm_compute. exact I. }
  { apply (bool_decide_unpack _). vm_compute. exact I. }
  destruct (Forall2_elem_of_r _ _ _ _ (attach_ball_features_Some _ _ Ha) Hra)
    as (rv & Hrv & Hcells & Hz & Hkeys).
  assert (agree_on event_keys rv r') as Hkeys'.
  { intros k Hk. rewrite (Hagree k), (Hkeys k); [done..|].
    unfold cs. rewrite !elem_of_app. auto. }
  split; [|split].
  - intros c Hc. rewrite (Hagree (c +:+ "_ball")), (Hcells c Hc).
    + unfold ball_cell. by rewrite (event_cells_agree_row _ _ _ _ _ Hkeys').
    + unfold cs. rewrite !elem_of_app. left.
      by apply (list_elem_of_fmap_2 (λ c, c +:+ "_ball")).
  - intros c Hc. unfold ball_cell. f_equal. f_equal.
    apply event_cells_agree_frame.
    assert (Forall (λ k, k ∉ cols_to_drop) (c :: "team" :: event_keys)
            ∧ Forall (λ k, k ∉ ["cos"; "sin"; "vx"; "vy"; "velocity";
                                "direction"])
                (c :: "team" :: event_keys)) as [Hd1 Hd2].
    { rewrite !elem_of_cons, elem_of_nil in Hc.
      destruct Hc as [->|[->|[->|[]]]];
        split; apply (bool_decide_unpack _); vm_compute; exact I. }
    eapply Forall2_impl;
      [exact (Forall2_compose _ _ _ _ _
                (drop_columns_agree _ _ _ _ Hd1 H0)
                (derive_velocity_agree _ _ _ Hd2 Hv))|].
    cbv beta. intros r1 r2 (r0 & H01 & H12) k Hk. by rewrite H12, H01.
  - rewrite (Hagree "z"); [done|].
    unfold cs. rewrite !elem_of_app, !elem_of_cons. auto.
Qed.

Lemma ball_features_broadcast_witness :
  include_ball_features example_cfg = true ∧
  ∃ out,
    event_features = Some out ∧
    ∀ r', r' ∈ out →
          r' !! "z" = None ∧
          r' !! "x_ball" = Some (ball_cell "x" event_table r').
Proof.
  split; [reflexivity|].
  assert (column "z" <$> event_features = Some [None; None]) as Hcol
    by (vm_compute; reflexivity).
  destruct event_features as [out|] eqn:Hout; [|discriminate].
  exists out. split; [reflexivity|].
  unfold event_features in Hout.
  destruct (ball_features_broadcast (FLit 0) (FLit 105) (FLit 34)
              example_cfg event_table out eq_refl Hout)
    as ((t0 & tv & _ & _ & Hrows) & _).
  intros r' Hr'. destruct (Hrows r' Hr') as (Hcells & Hraw & Hz).
  split; [exact Hz|].
  rewrite <-(Hraw "x") by (rewrite !elem_of_cons; auto).
  apply (Hcells "x"). unfold ball_source_cols. rewrite !elem_of_cons. auto.
Defined.

(** The ball's height is carried as the ball feature [z_ball], as are the
    heading components [cos_ball] and [sin_ball]. *)
Lemma ball_height_counterexample :
  "z_ball" ∈ ball_cols ∧
  column "z_ball" <$> event_features
  = Some [Some (VFloat (FLit 1)); Some (VFloat (FLit 1))] ∧
  column "cos_ball" <$> event_features
  = Some [Some (VFloat (FCos (FRadians (FLit 90))));
          Some (VFloat (FCos (FRadians (FLit 90))))].
Proof.
  split; [apply (bool_decide_unpack _); vm_compute; exact I|].
  split; vm_compute; reflexivity.
Qed.

Section ExprFacts.
Context {float : Type} `{FloatOps float}.
Implicit Types (r : Row (float:=float)) (df : DataFrame (float:=float)).
Implicit Types (v : value (float:=float)).
Variables (X_GOAL_LEFT X_GOAL_RIGHT Y_GOAL : float).

(** ** Expressions of the feature deriver *)

Lemma goal_right_of_swap (h l s nh ns : value (float:=float)) :
  not3 h = Some nh → not3 s = Some ns →
  goal_right_of nh l ns = goal_right_of h l s.
Proof.
  destruct h as [|[]| | |]; simpl; intros Hh; simplify_eq;
    destruct s as [|[]| | |]; simpl; intros Hs; simplify_eq;
    destruct l as [|[]| | |]; reflexivity.
Qed.

Lemma goal_right_of_None_l (h l s : value (float:=float)) :
  not3 h = None → goal_right_of h l s = None.
Proof. destruct h; simpl; intros; simplify_eq; reflexivity. Qed.

Lemma goal_right_of_None_r (h l s : value (float:=float)) :
  not3 s = None → goal_right_of h l s = None.
Proof.
  destruct s; simpl; intros; simplify_eq;
    destruct h as [|[]| | |], l as [|[]| | |]; reflexivity.
Qed.

Lemma goal_right_of_bool (h l s : bool) :
  goal_right_of (float:=float) (VBool h) (VBool l) (VBool s)
  = Some (VBool ((h && l && negb s) || (h && negb l && s)
                 || (negb h && negb l && negb s) || (negb h && l && s))).
Proof. by destruct h, l, s. Qed.

Lemma x_goal_expr_swap df r df' r' :
  is_home_team df' r' = is_home_team df r ≫= not3 →
  is_second_half df' r' = is_second_half df r ≫= not3 →
  r' !! "homeTeamStartLeft" = r !! "homeTeamStartLeft" →
  x_goal_expr X_GOAL_LEFT X_GOAL_RIGHT df' r'
  = x_goal_expr X_GOAL_LEFT X_GOAL_RIGHT df r.
Proof.
  intros Hh Hs Hl. unfold x_goal_expr, when_then_otherwise, is_goal_right, col.
  rewrite Hh, Hs, Hl.
  destruct (is_home_team df r) as [h|]; simpl; [|done].
  destruct (not3 h) as [nh|] eqn:Hnh; simpl.
  - destruct (r !! "homeTeamStartLeft") as [l|]; simpl; [|done].
    destruct (is_second_half df r) as [s|]; simpl; [|done].
    destruct (not3 s) as [ns|] eqn:Hns; simpl.
    + by rewrite (goal_right_of_swap h l s nh ns).
    + by rewrite (goal_right_of_None_r h l s).
  - destruct (r !! "homeTeamStartLeft") as [l|]; simpl; [|done].
    destruct (is_second_half df r) as [s|]; simpl; [|done].
    by rewrite (goal_right_of_None_l h l s).
Qed.


Lemma prepare_dataframe_goal cfg raw out :
  _prepare_dataframe X_GOAL_LEFT X_GOAL_RIGHT Y_GOAL cfg raw = Some out →
  ∃ t4,
    Forall2
      (λ r r',
         r' !! "y_goal" = Some (VFloat Y_GOAL) ∧
         r' !! "x_goal" = x_goal_expr X_GOAL_LEFT X_GOAL_RIGHT t4 r ∧
         (r' !! "x_goal" = Some (VFloat X_GOAL_RIGHT)
          ∨ r' !! "x_goal" = Some (VFloat X_GOAL_LEFT)))
      t4 out.
Proof.
  unfold _prepare_dataframe. intros Hout.
  destruct (derive_features cfg raw) as [t|]; simplify_eq/=.
  destruct (possession_attribution t) as [t4|]; simplify_eq/=.
  exists t4.
  eapply Forall2_impl;
    [exact (assign_goal_Some _ _ _ [] _ _ (Forall_nil_2 _) Hout)|].
  cbv beta. tauto.
Qed.

Lemma derive_player_columns_Some df out :
  derive_player_columns df = Some out →
  Forall2
    (λ r r',
       (is_Some (r' !! "age") ∧ r' !! "age" = age_expr df r) ∧
       (is_Some (r' !! "is_ball_carrier")
        ∧ r' !! "is_ball_carrier" = is_ball_carrier_expr df r))
    df out.
Proof.
  unfold derive_player_columns. intros Hout.
  destruct (with_columns _ df) as [t1|] eqn:H1; simplify_eq/=.
  assert (NoDup ["frameTime"; "is_ball_carrier"; "Weight"; "height_cm";
                 "age"]) as Hnd
    by (apply (bool_decide_unpack _); vm_compute; exact I).
  assert (Forall2 (λ r r1, is_Some (r1 !! "age")
                           ∧ r1 !! "age" = age_expr df r) df t1) as Hage.
  { eapply with_columns_assigns, H1; [exact Hnd|].
    rewrite !elem_of_cons. auto 10. }
  assert (Forall2 (λ r r1, is_Some (r1 !! "is_ball_carrier")
                           ∧ r1 !! "is_ball_carrier"
                             = is_ball_carrier_expr df r) df t1) as Hibc.
  { eapply with_columns_assigns, H1; [exact Hnd|].
    rewrite !elem_of_cons. auto 10. }
  assert (Forall2 (agree_on ["age"; "is_ball_carrier"]) t1 out) as Hkeep.
  { eapply drop_columns_agree, Hout.
    apply (bool_decide_unpack _). vm_compute. exact I. }
  eapply Forall2_impl;
    [exact (Forall2_compose _ _ _ _ _ (Forall2_and _ _ _ _ Hage Hibc) Hkeep)|].
  cbv beta. intros r r' (r1 & (Ha & Hb) & Hagree).
  rewrite (Hagree "age"), (Hagree "is_ball_carrier");
    [done|rewrite !elem_of_cons; auto..].
Qed.

Lemma is_ball_carrier_expr_Some df r v :
  is_ball_carrier_expr df r = Some v → v = VInt 0 ∨ v = VInt 1.
Proof.
  unfold is_ball_carrier_expr, when_then_otherwise, lit. intros Hv.
  destruct (map_expr2 _ _ _ df r) as [x|]; simplify_eq/=.
  destruct (as_mask x) as [[]|]; simplify_eq/=; auto.
Qed.

End ExprFacts.

(** C6. Negating both the home-team membership and the second-half
    indicator of a row, with the same starting side, leaves the goal
    x-coordinate unchanged. On Boolean cells attacking right is the
    disjunction of the four home/away x left/right x half combinations,
    no two of which hold together; and on every row of the derived table
    the goal x-coordinate is the right or the left goal and the goal
    y-coordinate is the constant [Y_GOAL]. *)
Theorem attack_direction_symmetric {float : Type} `{FloatOps float}
    (X_GOAL_LEFT X_GOAL_RIGHT Y_GOAL : float)
    (df df' : DataFrame (float:=float)) (r r' : Row (float:=float)) :
  is_home_team df' r' = is_home_team df r ≫= not3 →
  is_second_half df' r' = is_second_half df r ≫= not3 →
  r' !! "homeTeamStartLeft" = r !! "homeTeamStartLeft" →
  x_goal_expr X_GOAL_LEFT X_GOAL_RIGHT df' r'
  = x_goal_expr X_GOAL_LEFT X_GOAL_RIGHT df r ∧
  (∀ h l s : bool,
     let t1 := h && l && negb s in
     let t2 := h && negb l && s in
     let t3 := negb h && negb l && negb s in
     let t4 := negb h && l && s in
     goal_right_of (float:=float) (VBool h) (VBool l) (VBool s)
     = Some (VBool (t1 || t2 || t3 || t4)) ∧
     t1 && t2 = false ∧ t1 && t3 = false ∧ t1 && t4 = false ∧
     t2 && t3 = false ∧ t2 && t4 = false ∧ t3 && t4 = false) ∧
  (∀ cfg raw out,
     _prepare_dataframe X_GOAL_LEFT X_GOAL_RIGHT Y_GOAL cfg raw = Some out →
     ∃ t,
       Forall2
         (λ r0 r1,
            r1 !! "y_goal" = Some (VFloat Y_GOAL) ∧
            r1 !! "x_goal" = x_goal_expr X_GOAL_LEFT X_GOAL_RIGHT t r0 ∧
            (r1 !! "x_goal" = Some (VFloat X_GOAL_RIGHT)
             ∨ r1 !! "x_goal" = Some (VFloat X_GOAL_LEFT)))
         t out).
Proof.
  intros Hh Hs Hl. split; [by apply x_goal_expr_swap|]. split.
  - intros h l s. by destruct h, l, s.
  - intros cfg raw out. apply prepare_dataframe_goal.
Qed.

Lemma attack_direction_symmetric_witness :
  x_goal_expr (FLit 0) (FLit 105) [] away_second_half
  = x_goal_expr (FLit 0) (FLit 105) [] home_first_half ∧
  x_goal_expr (FLit 0) (FLit 105) [] home_first_half
  = Some (VFloat (FLit 105)).
Proof.
  split; [|vm_compute; reflexivity].
  apply (attack_direction_symmetric (FLit 0) (FLit 105) (FLit 34)
           [] [] home_first_half away_second_half);
    vm_compute; reflexivity.
Defined.

(** C9. An integer age is bucketed into four bands: below 20 "Under 20",
    from 20 to 28 "20-28", from 29 to 34 "29-35", from 35 on "35+"; so 19
    is "Under 20", 29 is "29-35" and 40 is "35+". The [age] column of the
    table with the derived player columns holds this bucket. *)
Theorem age_buckets {float : Type} `{FloatOps float}
    (df : DataFrame (float:=float)) (r : Row (float:=float)) (a : Z) :
  r !! "age" = Some (VInt a) →
  (a < 20 → age_expr df r = Some (VStr "Under 20")) ∧
  (20 ≤ a < 29 → age_expr df r = Some (VStr "20-28")) ∧
  (29 ≤ a < 35 → age_expr df r = Some (VStr "29-35")) ∧
  (35 ≤ a → age_expr df r = Some (VStr "35+")) ∧
  (a = 19 → age_expr df r = Some (VStr "Under 20")) ∧
  (a = 29 → age_expr df r = Some (VStr "29-35")) ∧
  (a = 40 → age_expr df r = Some (VStr "35+")) ∧
  (∀ t out, derive_player_columns t = Some out →
            Forall2 (λ r0 r1, is_Some (r1 !! "age")
                              ∧ r1 !! "age" = age_expr t r0) t out).
Proof.
  intros Ha.
  assert (age_expr df r
          = Some (VStr (if a <? 20 then "Under 20"
                        else if a <? 29 then "20-28"
                        else if a <? 35 then "29-35" else "35+"))) as ->.
  { unfold age_expr, when_then_otherwise, map_expr2, col, lit.
    rewrite Ha. simpl.
    by destruct (a <? 20), (a <? 29), (a <? 35). }
  repeat split; try (intros; repeat case_match; try done; lia).
  intros t out Hout.
  eapply Forall2_impl; [exact (derive_player_columns_Some _ _ Hout)|].
  cbv beta. tauto.
Qed.

Lemma age_buckets_witness :
  age_expr [] unpaired_player = Some (VStr "Under 20").
Proof.
  refine (proj1 (age_buckets [] unpaired_player 19 _) _).
  - vm_compute. reflexivity.
  - lia.
Defined.

(** C10. Whenever it is evaluated, [is_ball_carrier] is 0 or 1 and never
    null; a null [playerName_right] yields 0, since the null comparison
    selects the otherwise-branch; on string names it is 1 exactly when
    the two names are equal. The [is_ball_carrier] column of the table
    with the derived player columns holds this flag. *)
Theorem ball_carrier_flag_total {float : Type} `{FloatOps float}
    (df : DataFrame (float:=float)) (r : Row (float:=float))
    (n c : value (float:=float)) :
  r !! "playerName" = Some n →
  r !! "playerName_right" = Some c →
  (∀ v, is_ball_carrier_expr df r = Some v → v = VInt 0 ∨ v = VInt 1) ∧
  (c = VNull → is_ball_carrier_expr df r = Some (VInt 0)) ∧
  (∀ s s', n = VStr s → c = VStr s' →
           is_ball_carrier_expr df r
           = Some (VInt (Z.b2z (bool_decide (s = s'))))) ∧
  (∀ t out, derive_player_columns t = Some out →
            ∀ r1, r1 ∈ out →
                  r1 !! "is_ball_carrier" = Some (VInt 0)
                  ∨ r1 !! "is_ball_carrier" = Some (VInt 1)).
Proof.
  intros Hn Hc. split; [apply is_ball_carrier_expr_Some|].
  split; [|split].
  - intros ->. unfold is_ball_carrier_expr, when_then_otherwise, map_expr2,
      col, lit. rewrite Hn, Hc. by destruct n.
  - intros s s' -> ->.
    unfold is_ball_carrier_expr, when_then_otherwise, map_expr2, col, lit.
    rewrite Hn, Hc. simpl. by case_bool_decide.
  - intros t out Hout r1 Hr1.
    destruct (Forall2_elem_of_r _ _ _ _ (derive_player_columns_Some _ _ Hout)
                Hr1) as (r0 & _ & _ & [v Hv] & Heq).
    rewrite Hv. rewrite Hv in Heq. symmetry in Heq.
    destruct (is_ball_carrier_expr_Some _ _ _ Heq) as [->| ->]; auto.
Qed.

Lemma ball_carrier_flag_total_witness :
  is_ball_carrier_expr [] unpaired_player = Some (VInt 0).
Proof.
  refine (proj1 (proj2 (ball_carrier_flag_total [] unpaired_player
                          (VStr "Ann") VNull _ _)) eq_refl);
    vm_compute; reflexivity.
Defined.

(** ** The build: claims *)

(** C1. In a completed build the preprocessor receives exactly two
    calls: [fit_transform] on the training partition, then [transform] on
    the validation partition. The state learned from the training
    partition by that one fit is the state the object keeps, and it is the
    state both partitions are transformed with before they are
    converted and saved. *)
Theorem fit_once_on_train {float : Type} `{FloatOps float}
    (X_GOAL_LEFT X_GOAL_RIGHT Y_GOAL : float)
    (SHOOTING_STATS : list string) (random_state : Z)
    {fitted data_list : Type}
    (sk_fit : estimator → DataFrame (float:=float) → option fitted)
    (sk_transform : fitted → DataFrame (float:=float) → option DataFrame)
    (convert : DataFrame (float:=float) → option (data_list * list string))
    (cfg : DataConfig) (raw : DataFrame (float:=float))
    (s' : build_state (fitted:=fitted) (data_list:=data_list)) :
  process X_GOAL_LEFT X_GOAL_RIGHT Y_GOAL SHOOTING_STATS random_state
    sk_fit sk_transform convert cfg raw initial_state = Some (tt, s') →
  ∃ df train val st,
    _prepare_dataframe X_GOAL_LEFT X_GOAL_RIGHT Y_GOAL cfg raw = Some df ∧
    _split_by_worldcup_phase df (val_ratio cfg) = Some (train, val) ∧
    calls s' = [CallFitTransform train; CallTransform val] ∧
    sk_fit (_create_preprocessor SHOOTING_STATS random_state cfg
              (frame_columns train)) train = Some st ∧
    fitted_state s' = Some st ∧
    ∃ train_transformed val_transformed train_converted val_converted,
      sk_transform st train = Some train_transformed ∧
      sk_transform st val = Some val_transformed ∧
      convert train_transformed = Some train_converted ∧
      convert val_transformed = Some val_converted ∧
      saved s' = [("train_data.pt", train_converted.1);
                  ("val_data.pt", val_converted.1)] ∧
      feature_names_file s' = Some train_converted.2.
Proof.
  unfold process, mbind, build_bind, lift, new_preprocessor, fit_transform,
    transform, save, write_feature_names.
  intros Hrun.
  destruct (_prepare_dataframe _ _ _ cfg raw) as [df|] eqn:Hdf;
    simplify_eq/=.
  destruct (_split_by_worldcup_phase df (val_ratio cfg)) as [[train val]|]
    eqn:Hsplit; simplify_eq/=.
  destruct (sk_fit _ train) as [st|] eqn:Hfit; simplify_eq/=.
  destruct (sk_transform st train) as [tt'|] eqn:Htt; simplify_eq/=.
  destruct (sk_transform st val) as [vt|] eqn:Hvt; simplify_eq/=.
  destruct (convert tt') as [tc|] eqn:Htc; simplify_eq/=.
  destruct (convert vt) as [vc|] eqn:Hvc; simplify_eq/=.
  exists df, train, val, st. do 5 (split; [done|]).
  exists tt', vt, tc, vc. done.
Qed.


Lemma fit_once_on_train_witness :
  ∃ s',
    example_build = Some (tt, s') ∧
    length (calls s') = 2%nat ∧
    fitted_state s' = Some 2%nat.
Proof.
  assert ((λ x, fitted_state x.2) <$> example_build = Some (Some 2%nat))
    as Hst by (vm_compute; reflexivity).
  destruct example_build as [[[] s']|] eqn:Hrun; [|discriminate].
  exists s'. split; [reflexivity|]. split; [|by injection Hst].
  unfold example_build in Hrun.
  destruct (fit_once_on_train _ _ _ _ _ _ _ _ _ _ _ Hrun)
    as (df & train & val & st & _ & _ & -> & _).
  reflexivity.
Defined.

(** C8. With the categories fitted on the training frame, transforming
    a row never raises, and where the (imputed) cell of a categorical
    column is none of the (imputed) cells of that column in the training
    frame, the indicator columns of that column are all zero. *)
Theorem unseen_category_all_zero {float : Type} `{FloatOps float}
    (train : DataFrame (float:=float)) (cats : list (list value))
    (r : Row (float:=float)) :
  cat_fit cat_pipe cat_cols train = Some cats →
  (∀ c, c ∈ cat_cols → is_Some (r !! c)) →
  ∃ blocks,
    cat_transform_row cat_pipe cat_cols cats r = Some blocks ∧
    length blocks = length cat_cols ∧
    ∀ (i : nat) c v,
      cat_cols !! i = Some c → r !! c = Some v →
      (∀ r0 v0, r0 ∈ train → r0 !! c = Some v0 →
                impute_constant "unknown" v0 ≠ impute_constant "unknown" v) →
      ∃ block, blocks !! i = Some block ∧ Forall (λ x, x = 0) block.
Proof.
  generalize cat_cols. intros cols Hfit Hrow.
  unfold cat_fit, cat_transform_row in *.
  assert (cat_branch_params cat_pipe = Some ("unknown", "ignore", "if_binary"))
    as Hparams by reflexivity.
  rewrite Hparams in Hfit |- *. simpl in Hfit |- *.
  apply mapM_Some in Hfit.
  set (f := λ ccs : string * list value,
              r !! ccs.1
              ≫= λ v, encode_cell "ignore" "if_binary" ccs.2
                        (impute_constant "unknown" v)).
  assert (is_Some (mapM f (zip cols cats))) as [blocks Hblocks].
  { apply mapM_is_Some, Forall_forall. intros [c cs] Hin.
    apply elem_of_zip_l in Hin. destruct (Hrow c Hin) as [v Hv].
    unfold f. simpl. rewrite Hv. simpl. unfold encode_cell.
    case_bool_decide; [by eexists|]. by eexists. }
  exists blocks. split; [exact Hblocks|].
  apply mapM_Some in Hblocks. split.
  { rewrite <-(Forall2_length _ _ _ Hblocks), length_zip_with.
    rewrite <-(Forall2_length _ _ _ Hfit). lia. }
  intros i c v Hc Hv Hunseen.
  destruct (Forall2_lookup_l _ _ _ _ _ Hfit Hc) as (cs & Hcs & Hcol).
  destruct (select_column c train) as [column|] eqn:Hsel; simplify_eq/=.
  assert (zip cols cats !! i = Some (c, unique_sorted
            (impute_constant "unknown" <$> column))) as Hi.
  { rewrite lookup_zip_with. rewrite Hc. simpl. by rewrite Hcs. }
  destruct (Forall2_lookup_l _ _ _ _ _ Hblocks Hi) as (block & Hblock & Hf).
  exists block. split; [done|].
  unfold f in Hf. simpl in Hf. rewrite Hv in Hf. simpl in Hf.
  unfold encode_cell in Hf. rewrite bool_decide_eq_false_2 in Hf.
  - simpl in Hf. injection Hf as <-. apply Forall_fmap, Forall_forall. done.
  - rewrite elem_of_unique_sorted, list_elem_of_fmap.
    intros (v0 & Heq & Hin).
    apply (elem_of_select_column _ _ _ _ Hsel) in Hin as (r0 & Hr0 & Hv0).
    by eapply Hunseen.
Qed.

Lemma unseen_category_all_zero_witness :
  ∃ cats blocks,
    cat_train_categories = Some cats ∧
    cat_transform_row cat_pipe cat_cols cats unseen_role_row = Some blocks ∧
    ∃ block, blocks !! 1%nat = Some block ∧ Forall (λ x, x = 0) block.
Proof.
  assert (length <$> cat_train_categories = Some 5%nat) as Hlen
    by (vm_compute; reflexivity).
  destruct cat_train_categories as [cats|] eqn:Hfit; [|discriminate].
  unfold cat_train_categories in Hfit.
  destruct (unseen_category_all_zero cat_train cats unseen_role_row Hfit)
    as (blocks & Hblocks & _ & Hzero).
  - intros c Hc. unfold cat_cols in Hc.
    rewrite !elem_of_cons, elem_of_nil in Hc.
    destruct Hc as [->|[->|[->|[->|[->|[]]]]]]; vm_compute; eauto.
  - exists cats, blocks. split; [reflexivity|]. split; [exact Hblocks|].
    apply (Hzero 1%nat "playerRole" (VStr "GK")).
    + reflexivity.
    + vm_compute. reflexivity.
    + intros r0 v0 Hr0 Hv0. unfold cat_train in Hr0.
      rewrite !elem_of_cons, elem_of_nil in Hr0.
      destruct Hr0 as [->|[->|[]]]; vm_compute in Hv0;
        injection Hv0 as <-; discriminate.
Defined.

(** * Further properties *)

Section StageFacts.
Context {float : Type} `{FloatOps float}.
Implicit Types (r : Row (float:=float)) (df : DataFrame (float:=float)).
Implicit Types (v : value (float:=float)).
Variables (X_GOAL_LEFT X_GOAL_RIGHT Y_GOAL : float).

Local Ltac decide_list := apply (bool_decide_unpack _); vm_compute; exact I.

(** ** The stages of a completed derivation *)

Lemma prepare_dataframe_stages cfg raw out :
  _prepare_dataframe X_GOAL_LEFT X_GOAL_RIGHT Y_GOAL cfg raw = Some out →
  ∃ t0 tv ta t1 t2 t t4,
    drop_columns cols_to_drop raw = Some t0 ∧
    derive_velocity t0 = Some tv ∧
    (if include_ball_features cfg then attach_ball_features tv else Some tv)
    = Some ta ∧
    filter_player_rows ta = Some t1 ∧
    derive_player_columns t1 = Some t2 ∧
    (if use_macro_roles cfg
     then with_columns [("playerRole", macro_role_expr)] t2 else Some t2)
    = Some t ∧
    possession_attribution t = Some t4 ∧
    assign_goal X_GOAL_LEFT X_GOAL_RIGHT Y_GOAL t4 = Some out.
Proof.
  unfold _prepare_dataframe, derive_features. intros Hout.
  destruct (drop_columns cols_to_drop raw) as [t0|] eqn:H0; simplify_eq/=.
  destruct (derive_velocity t0) as [tv|] eqn:Hv; simplify_eq/=.
  destruct (if include_ball_features cfg then _ else _) as [ta|] eqn:Ha;
    simplify_eq/=.
  destruct (filter_player_rows ta) as [t1|] eqn:H1; simplify_eq/=.
  destruct (derive_player_columns t1) as [t2|] eqn:H2; simplify_eq/=.
  destruct (if use_macro_roles cfg then _ else _) as [t|] eqn:Ht;
    simplify_eq/=.
  destruct (possession_attribution t) as [t4|] eqn:H4; simplify_eq/=.
  by exists t0, tv, ta, t1, t2, t, t4.
Qed.

(** ** Columns the stages leave alone *)

Lemma Forall2_agree_trans cs df1 df2 df3 :
  Forall2 (agree_on cs) df1 df2 → Forall2 (agree_on cs) df2 df3 →
  Forall2 (agree_on cs) df1 df3.
Proof.
  intros H12 H23.
  eapply Forall2_impl; [exact (Forall2_compose _ _ _ _ _ H12 H23)|].
  cbv beta. intros r r' (r2 & Ha & Hb) c Hc. by rewrite Hb, Ha.
Qed.

Lemma attach_ball_features_agree cs df out :
  Forall (λ c, c ∉ ball_columns_written) cs →
  attach_ball_features df = Some out →
  Forall2 (agree_on cs) df out.
Proof.
  intros Hcs. unfold attach_ball_features. intros Hout.
  destruct (with_columns _ df) as [t1|] eqn:H1'; simplify_eq/=.
  assert (with_columns (ball_feature <$> ball_source_cols) df = Some t1)
    as H1 by exact H1'.
  clear H1'.
  eapply Forall2_agree_trans.
  - eapply with_columns_agree, H1.
    eapply Forall_impl; [exact Hcs|]. intros c Hc Hin. apply Hc.
    unfold ball_columns_written. apply elem_of_app. left.
    revert Hin. vm_compute ((ball_feature <$> ball_source_cols).*1).
    vm_compute ((λ c, c +:+ "_ball") <$> ball_source_cols). done.
  - eapply drop_columns_agree, Hout.
    eapply Forall_impl; [exact Hcs|]. intros c Hc Hin. apply Hc.
    unfold ball_columns_written. apply elem_of_app. by right.
Qed.

Lemma ball_stage_agree (b : bool) cs df out :
  Forall (λ c, c ∉ (if b then ball_columns_written else [])) cs →
  (if b then attach_ball_features df else Some df) = Some out →
  Forall2 (agree_on cs) df out.
Proof.
  destruct b.
  - apply attach_ball_features_agree.
  - intros _ [= <-]. apply Forall_Forall2_diag, Forall_forall. by intros.
Qed.


Lemma prepare_written_split cfg cs :
  Forall (λ c, c ∉ prepare_columns_written cfg) cs →
  Forall (λ c, c ∉ cols_to_drop) cs ∧
  Forall (λ c, c ∉ velocity_columns_written) cs ∧
  Forall (λ c, c ∉ (if include_ball_features cfg
                    then ball_columns_written else [])) cs ∧
  Forall (λ c, c ∉ player_columns_written) cs ∧
  Forall (λ c, c ∉ attribution_columns_written) cs.
Proof.
  intros Hcs. unfold prepare_columns_written in Hcs.
  repeat split; (eapply Forall_impl; [exact Hcs|]);
    intros c Hc Hin; apply Hc; rewrite !elem_of_app; auto.
Qed.

(** From the raw table to the table that enters the player filter. *)
Lemma early_stages_agree cfg cs raw t0 tv ta :
  Forall (λ c, c ∉ cols_to_drop) cs →
  Forall (λ c, c ∉ velocity_columns_written) cs →
  Forall (λ c, c ∉ (if include_ball_features cfg
                    then ball_columns_written else [])) cs →
  drop_columns cols_to_drop raw = Some t0 →
  derive_velocity t0 = Some tv →
  (if include_ball_features cfg then attach_ball_features tv else Some tv)
  = Some ta →
  Forall2 (agree_on cs) raw ta.
Proof.
  intros Hc0 Hcv Hcb H0 Hv Ha.
  eapply Forall2_agree_trans; [exact (drop_columns_agree _ _ _ _ Hc0 H0)|].
  eapply Forall2_agree_trans; [exact (derive_velocity_agree _ _ _ Hcv Hv)|].
  exact (ball_stage_agree _ _ _ _ Hcb Ha).
Qed.

(** From the table that leaves the player filter to the derived table. *)
Lemma late_stages_traces cfg cs t1 t2 t t4 out :
  Forall (λ c, c ∉ player_columns_written) cs →
  Forall (λ c, c ∉ attribution_columns_written) cs →
  derive_player_columns t1 = Some t2 →
  (if use_macro_roles cfg
   then with_columns [("playerRole", macro_role_expr)] t2 else Some t2)
  = Some t →
  possession_attribution t = Some t4 →
  assign_goal X_GOAL_LEFT X_GOAL_RIGHT Y_GOAL t4 = Some out →
  traces cs t1 out.
Proof.
  intros Hcp Hca H2 Ht H4 Hout.
  eapply traces_trans;
    [exact (Forall2_traces _ _ _
              (derive_player_columns_agree _ _ _ Hcp H2))|].
  eapply traces_trans;
    [exact (Forall2_traces _ _ _ (macro_roles_agree _ _ _ _ Hcp Ht))|].
  eapply traces_trans;
    [exact (possession_attribution_traces _ _ _ Hca H4)|].
  eapply Forall2_traces, Forall2_impl.
  - eapply (assign_goal_Some _ _ _ cs), Hout.
    eapply Forall_impl; [exact Hca|]. intros c Hc Hin. apply Hc.
    unfold attribution_columns_written. revert Hin.
    rewrite !elem_of_cons, !elem_of_nil. tauto.
  - cbv beta. tauto.
Qed.

Lemma filter_player_rows_subset df out r :
  filter_player_rows df = Some out → r ∈ out → r ∈ df.
Proof.
  unfold filter_player_rows, filter_rows. intros Hout Hr.
  destruct (select_rows _ df) as [t1|] eqn:H1; simplify_eq/=.
  destruct (select_rows _ t1) as [t2|] eqn:H2; simplify_eq/=.
  apply (elem_of_select_rows _ _ _ _ Hout) in Hr as [Hr _].
  apply (elem_of_select_rows _ _ _ _ H2) in Hr as [Hr _].
  by apply (elem_of_select_rows _ _ _ _ H1) in Hr as [Hr _].
Qed.

Lemma prepare_dataframe_passthrough cfg cs raw out :
  Forall (λ c, c ∉ prepare_columns_written cfg) cs →
  _prepare_dataframe X_GOAL_LEFT X_GOAL_RIGHT Y_GOAL cfg raw = Some out →
  traces cs raw out.
Proof.
  intros (Hc0 & Hcv & Hcb & Hcp & Hca)%prepare_written_split
         (t0 & tv & ta & t1 & t2 & t & t4 & H0 & Hv & Ha & H1 & H2 & Ht & H4
          & Hout)%prepare_dataframe_stages.
  pose proof (early_stages_agree _ _ _ _ _ _ Hc0 Hcv Hcb H0 Hv Ha) as Hearly.
  pose proof (late_stages_traces _ _ _ _ _ _ _ Hcp Hca H2 Ht H4 Hout) as Hlate.
  intros r' (r1 & Hr1 & Hagree1)%Hlate.
  apply (filter_player_rows_subset _ _ _ H1) in Hr1.
  destruct (Forall2_elem_of_r _ _ _ _ Hearly Hr1) as (r & Hr & Hagree0).
  exists r. split; [done|]. intros c Hc. by rewrite Hagree1, Hagree0.
Qed.


(** ** The rows the player filter keeps *)

Lemma value_ne_true (e : value (float:=float)) (s : string) :
  value_ne e (VStr s) ≫= as_mask = Some true →
  ∃ s', e = VStr s' ∧ s' ≠ s.
Proof.
  unfold value_ne. destruct e; simpl; intros He; simplify_eq/=.
  case_bool_decide; simplify_eq/=. eauto.
Qed.

Lemma filter_player_rows_rows df out r :
  filter_player_rows df = Some out → r ∈ out →
  has_team r ∧
  (∃ n, r !! "playerName" = Some n ∧ n ≠ VNull) ∧
  (∃ s, r !! "possessionEventType" = Some (VStr s) ∧ s ≠ "SH").
Proof.
  unfold filter_player_rows, filter_rows. intros Hout Hr.
  destruct (select_rows _ df) as [t1|] eqn:H1; simplify_eq/=.
  destruct (select_rows _ t1) as [t2|] eqn:H2; simplify_eq/=.
  apply (elem_of_select_rows _ _ _ _ Hout) in Hr as [Hr Hname].
  apply (elem_of_select_rows _ _ _ _ H2) in Hr as [Hr Hshot].
  apply (elem_of_select_rows _ _ _ _ H1) in Hr as [Hr Hteam].
  unfold map_expr, map_expr2, col, lit, is_not_null, has_team in *.
  split; [|split].
  - destruct (r !! "team") as [v|]; simplify_eq/=.
    exists v. split; [done|]. by apply bool_decide_eq_true_1 in Hteam.
  - destruct (r !! "playerName") as [v|]; simplify_eq/=.
    exists v. split; [done|]. by apply bool_decide_eq_true_1 in Hname.
  - destruct (r !! "possessionEventType") as [e|]; simplify_eq/=.
    destruct (value_ne_true _ _ Hshot) as (s & -> & Hs). eauto.
Qed.

(** ** Columns that are gone *)

Lemma traces_absent c cs df out :
  c ∈ cs → traces cs df out → absent c df → absent c out.
Proof.
  unfold absent. rewrite !Forall_forall.
  intros Hc Htr Hdf r' (r & Hr & Hagree)%Htr.
  rewrite (Hagree c Hc). auto.
Qed.

Lemma drop_columns_absent (cols : list string) c df out :
  c ∈ cols → drop_columns cols df = Some out → absent c out.
Proof. apply drop_columns_drops. Qed.

Lemma macro_roles_agree_other (b : bool) cs df out :
  Forall (λ c, c ≠ "playerRole") cs →
  (if b then with_columns [("playerRole", macro_role_expr)] df else Some df)
  = Some out →
  Forall2 (agree_on cs) df out.
Proof.
  intros Hcs. destruct b.
  - apply with_columns_agree. simpl.
    eapply Forall_impl; [exact Hcs|]. intros c Hc.
    by rewrite list_elem_of_singleton.
  - intros [= <-]. apply Forall_Forall2_diag, Forall_forall. by intros.
Qed.

Lemma derive_player_columns_absent c df out :
  c ∈ ["playerName"; "playerName_right"] →
  derive_player_columns df = Some out → absent c out.
Proof.
  intros Hc. unfold derive_player_columns. intros Hout.
  destruct (with_columns _ df) as [t1|]; simplify_eq/=.
  by eapply drop_columns_absent.
Qed.

Lemma possession_attribution_absent df out :
  possession_attribution df = Some out → absent "possession_team_tmp" out.
Proof.
  unfold possession_attribution. intros Hout.
  destruct (with_columns [("possession_team_tmp", _)] df) as [t1|];
    simplify_eq/=.
  destruct (with_columns [("is_possession_team", _)] t1) as [t2|];
    simplify_eq/=.
  destruct (drop_columns ["possession_team_tmp"] t2) as [t3|] eqn:H3;
    simplify_eq/=.
  eapply select_rows_Forall; [exact Hout|].
  eapply drop_columns_absent, H3. by left.
Qed.

Lemma assign_goal_absent c df out :
  c ∈ ["team"; "homeTeamStartLeft"; "startPeriod2"] →
  assign_goal X_GOAL_LEFT X_GOAL_RIGHT Y_GOAL df = Some out → absent c out.
Proof.
  intros Hc. unfold assign_goal. intros Hout.
  destruct (with_columns _ df) as [t1|]; simplify_eq/=.
  by eapply drop_columns_absent.
Qed.

Lemma assign_goal_traces cs df out :
  Forall (λ c, c ∉ ["x_goal"; "y_goal"; "team"; "homeTeamStartLeft";
                    "startPeriod2"]) cs →
  assign_goal X_GOAL_LEFT X_GOAL_RIGHT Y_GOAL df = Some out →
  traces cs df out.
Proof.
  intros Hcs Hout. eapply Forall2_traces, Forall2_impl.
  - exact (assign_goal_Some _ _ _ cs _ _ Hcs Hout).
  - cbv beta. tauto.
Qed.


Lemma Forall2_agree_absent c df out :
  Forall2 (agree_on [c]) df out → absent c df → absent c out.
Proof.
  intros Hagree. by apply (traces_absent c [c]); [left|apply Forall2_traces].
Qed.

Lemma filter_player_rows_absent c df out :
  filter_player_rows df = Some out → absent c df → absent c out.
Proof.
  unfold absent. rewrite !Forall_forall.
  intros Hout Hdf r Hr. eapply Hdf, filter_player_rows_subset; eauto.
Qed.

Lemma prepare_dataframe_dropped cfg raw out c :
  c ∈ prepare_columns_dropped cfg →
  _prepare_dataframe X_GOAL_LEFT X_GOAL_RIGHT Y_GOAL cfg raw = Some out →
  absent c out.
Proof.
  intros Hc (t0 & tv & ta & t1 & t2 & t & t4 & H0 & Hv & Ha & H1 & H2 & Ht
             & H4 & Hout)%prepare_dataframe_stages.
  unfold prepare_columns_dropped in Hc.
  (* the steps, each for a column it leaves alone *)
  assert (c ∉ ["x_goal"; "y_goal"; "team"; "homeTeamStartLeft";
               "startPeriod2"] → absent c t4 → absent c out) as Sgoal.
  { intros Hn. apply (traces_absent c [c]); [by left|].
    eapply assign_goal_traces, Hout. by repeat constructor. }
  assert (c ∉ attribution_columns_written → absent c t → absent c t4)
    as Sattr.
  { intros Hn. apply (traces_absent c [c]); [by left|].
    eapply possession_attribution_traces, H4. by repeat constructor. }
  assert (c ≠ "playerRole" → absent c t2 → absent c t) as Smacro.
  { intros Hn. apply Forall2_agree_absent.
    eapply macro_roles_agree_other, Ht. by repeat constructor. }
  assert (c ∉ player_columns_written → absent c t1 → absent c t2) as Splayer.
  { intros Hn. apply Forall2_agree_absent.
    eapply derive_player_columns_agree, H2. by repeat constructor. }
  pose proof (filter_player_rows_absent c _ _ H1) as Sfilter.
  assert (c ∉ ball_columns_written → absent c tv → absent c ta) as Sball.
  { intros Hn. apply Forall2_agree_absent.
    eapply ball_stage_agree, Ha. repeat constructor.
    by destruct (include_ball_features cfg); [|apply not_elem_of_nil]. }
  assert (c ∉ velocity_columns_written → absent c t0 → absent c tv) as Svel.
  { intros Hn. apply Forall2_agree_absent.
    eapply derive_velocity_agree, Hv. by repeat constructor. }
  assert (∀ l : list string,
            c ∈ l →
            Forall (λ c, c ∉ attribution_columns_written) l →
            c ∉ attribution_columns_written) as Hfa.
  { intros l Hin Hall. rewrite Forall_forall in Hall. auto. }
  rewrite !elem_of_app in Hc. destruct Hc as [Hc|[Hc|[Hc|Hc]]].
  - (* dropped first *)
    assert (Forall (λ c, (c ∉ velocity_columns_written) ∧
                         (c ∉ ball_columns_written) ∧
                         (c ∉ player_columns_written) ∧
                         (c ∉ attribution_columns_written)) cols_to_drop)
      as Hall by decide_list.
    rewrite Forall_forall in Hall.
    destruct (Hall c Hc) as (Hn1 & Hn2 & Hn3 & Hn4).
    apply Sgoal; [|apply Sattr; [done|apply Smacro; [|apply Splayer; [done|
      apply Sfilter, Sball; [done|apply Svel; [done|
      by eapply drop_columns_absent]]]]]].
    + intros Hin. apply Hn4. unfold attribution_columns_written.
      revert Hin. clear. rewrite !elem_of_cons, !elem_of_nil. tauto.
    + intros ->. apply Hn3. unfold player_columns_written.
      rewrite !elem_of_cons. auto 10.
  - (* speed and heading *)
    assert (Forall (λ c, (c ∉ ball_columns_written) ∧
                         (c ∉ player_columns_written) ∧
                         (c ∉ attribution_columns_written))
              ["velocity"; "direction"]) as Hall by decide_list.
    rewrite Forall_forall in Hall.
    destruct (Hall c Hc) as (Hn2 & Hn3 & Hn4).
    apply Sgoal; [|apply Sattr; [done|apply Smacro; [|apply Splayer; [done|
      apply Sfilter, Sball; [done|]]]]].
    + intros Hin. apply Hn4. unfold attribution_columns_written.
      revert Hin. clear. rewrite !elem_of_cons, !elem_of_nil. tauto.
    + intros ->. apply Hn3. unfold player_columns_written.
      rewrite !elem_of_cons. auto 10.
    + unfold derive_velocity in Hv.
      destruct (with_columns _ t0) as [u1|]; simplify_eq/=.
      destruct (with_columns _ u1) as [u2|]; simplify_eq/=.
      by eapply drop_columns_absent.
  - (* the raw height of the ball *)
    destruct (include_ball_features cfg); [|by apply elem_of_nil in Hc].
    apply list_elem_of_singleton in Hc as ->.
    apply Sgoal; [decide_list|apply Sattr; [decide_list|
      apply Smacro; [done|apply Splayer; [decide_list|apply Sfilter]]]].
    unfold attach_ball_features in Ha.
    destruct (with_columns _ tv) as [u1|]; simplify_eq/=.
    eapply drop_columns_absent, Ha. by left.
  - rewrite !elem_of_cons, elem_of_nil in Hc.
    destruct Hc as [->|[->|[->|[->|[->|[->|[]]]]]]].
    + apply Sgoal; [decide_list|apply Sattr; [decide_list|apply Smacro;
        [done|]]].
      eapply derive_player_columns_absent, H2. by left.
    + apply Sgoal; [decide_list|apply Sattr; [decide_list|apply Smacro;
        [done|]]].
      eapply derive_player_columns_absent, H2. by right; left.
    + apply Sgoal; [decide_list|]. by eapply possession_attribution_absent.
    + eapply assign_goal_absent, Hout. by left.
    + eapply assign_goal_absent, Hout. by right; left.
    + eapply assign_goal_absent, Hout. by right; right; left.
Qed.


Lemma prepare_dataframe_player_rows cfg raw out r' :
  _prepare_dataframe X_GOAL_LEFT X_GOAL_RIGHT Y_GOAL cfg raw = Some out →
  r' ∈ out →
  ∃ r,
    r ∈ raw ∧
    agree_on ["gameId"; "gameEventId"; "possessionEventId";
              "possessionEventType"] r r' ∧
    has_team r ∧
    (∃ n, r !! "playerName" = Some n ∧ n ≠ VNull) ∧
    (∃ s, r !! "possessionEventType" = Some (VStr s) ∧ s ≠ "SH").
Proof.
  intros (t0 & tv & ta & t1 & t2 & t & t4 & H0 & Hv & Ha & H1 & H2 & Ht
          & H4 & Hout)%prepare_dataframe_stages Hr'.
  set (cs := ["gameId"; "gameEventId"; "possessionEventId";
              "possessionEventType"]).
  destruct (late_stages_traces cfg cs t1 t2 t t4 out) with (r' := r')
    as (r1 & Hr1 & Hagree1); [decide_list|decide_list|done..|].
  destruct (filter_player_rows_rows _ _ _ H1 Hr1)
    as ((tm & Htm & Htmn) & (n & Hn & Hnn) & (s & Hs & Hsn)).
  apply (filter_player_rows_subset _ _ _ H1) in Hr1.
  assert (Forall2 (agree_on (cs ++ ["team"; "playerName"])) raw ta) as Hearly.
  { eapply (early_stages_agree cfg); [decide_list|decide_list| |done..].
    destruct (include_ball_features cfg); [decide_list|].
    apply Forall_forall. intros ? _. apply not_elem_of_nil. }
  destruct (Forall2_elem_of_r _ _ _ _ Hearly Hr1) as (r & Hr & Hagree0).
  exists r. split; [done|]. split; [|split; [|split]].
  - intros c Hc. rewrite (Hagree1 c Hc). apply Hagree0.
    apply elem_of_app. by left.
  - exists tm. split; [|done]. rewrite <-(Hagree0 "team"); [done|].
    rewrite !elem_of_app, !elem_of_cons. auto.
  - exists n. split; [|done]. rewrite <-(Hagree0 "playerName"); [done|].
    rewrite !elem_of_app, !elem_of_cons. auto.
  - exists s. split; [|done].
    rewrite <-(Hagree0 "possessionEventType"); [done|].
    apply elem_of_app. left. unfold cs. rewrite !elem_of_cons. auto.
Qed.

(** ** Cells the player stage computes *)

Lemma age_expr_band df r v :
  age_expr df r = Some v → ∃ s, v = VStr s ∧ s ∈ age_bands.
Proof.
  unfold age_expr, when_then_otherwise, map_expr2, col, lit. simpl.
  destruct (r !! "age") as [a|]; simpl; [|done].
  unfold age_bands.
  destruct a as [|b|z|x|s]; simpl; try done.
  - intros [= <-]. eexists. split; [done|]. rewrite !elem_of_cons. auto.
  - destruct (z <? 20), (z <? 29), (z <? 35); simpl; intros [= <-];
      eexists; (split; [done|]); rewrite !elem_of_cons; auto.
  - destruct (f_ltb x (f_of_Z 20)), (f_ltb x (f_of_Z 29)),
      (f_ltb x (f_of_Z 35)); simpl; intros [= <-];
      eexists; (split; [done|]); rewrite !elem_of_cons; auto.
Qed.

Lemma age_expr_null df r :
  r !! "age" = Some VNull → age_expr df r = Some (VStr "35+").
Proof.
  intros Ha. unfold age_expr, when_then_otherwise, map_expr2, col, lit.
  by rewrite Ha.
Qed.



(** ** Velocity components *)

Lemma derive_velocity_Some df out :
  derive_velocity df = Some out →
  Forall2
    (λ r r',
       r' !! "cos" = heading_of f_cos r ∧
       r' !! "sin" = heading_of f_sin r ∧
       r' !! "vx" = (v ← r !! "velocity"; c ← heading_of f_cos r;
                     value_mul v c) ∧
       r' !! "vy" = (v ← r !! "velocity"; c ← heading_of f_sin r;
                     value_mul v c) ∧
       is_Some (r' !! "vx") ∧ is_Some (r' !! "vy"))
    df out.
Proof.
  unfold derive_velocity. intros Hout.
  destruct (with_columns _ df) as [t1|] eqn:H1; simplify_eq/=.
  destruct (with_columns _ t1) as [t2|] eqn:H2; simplify_eq/=.
  assert (NoDup ["cos"; "sin"]) as Hnd1 by decide_list.
  assert (NoDup ["vx"; "vy"]) as Hnd2 by decide_list.
  assert (Forall2 (λ r r1, is_Some (r1 !! "cos")
                           ∧ r1 !! "cos"
                             = map_expr (float_unop f_cos)
                                 (map_expr (float_unop f_radians)
                                    (col "direction")) df r) df t1) as Hcos.
  { eapply with_columns_assigns, H1; [exact Hnd1|by left]. }
  assert (Forall2 (λ r r1, is_Some (r1 !! "sin")
                           ∧ r1 !! "sin"
                             = map_expr (float_unop f_sin)
                                 (map_expr (float_unop f_radians)
                                    (col "direction")) df r) df t1) as Hsin.
  { eapply with_columns_assigns, H1; [exact Hnd1|by right; left]. }
  assert (Forall2 (agree_on ["velocity"]) df t1) as Hvel.
  { eapply with_columns_agree, H1. decide_list. }
  assert (Forall2 (λ r1 r2, is_Some (r2 !! "vx")
                            ∧ r2 !! "vx"
                              = map_expr2 value_mul (col "velocity")
                                  (col "cos") t1 r1) t1 t2) as Hvx.
  { eapply with_columns_assigns, H2; [exact Hnd2|by left]. }
  assert (Forall2 (λ r1 r2, is_Some (r2 !! "vy")
                            ∧ r2 !! "vy"
                              = map_expr2 value_mul (col "velocity")
                                  (col "sin") t1 r1) t1 t2) as Hvy.
  { eapply with_columns_assigns, H2; [exact Hnd2|by right; left]. }
  assert (Forall2 (agree_on ["cos"; "sin"]) t1 t2) as Hkeep2.
  { eapply with_columns_agree, H2. decide_list. }
  assert (Forall2 (agree_on ["cos"; "sin"; "vx"; "vy"]) t2 out) as Hkeep3.
  { eapply drop_columns_agree, Hout. decide_list. }
  pose proof (Forall2_compose _ _ _ _ _
                (Forall2_compose _ _ _ _ _
                   (Forall2_and _ _ _ _ Hcos (Forall2_and _ _ _ _ Hsin Hvel))
                   (Forall2_and _ _ _ _ Hvx (Forall2_and _ _ _ _ Hvy Hkeep2)))
                Hkeep3) as Hall.
  eapply Forall2_impl; [exact Hall|]. cbv beta.
  intros r r' (r2 & (r1 & ((_ & Hc) & (_ & Hs) & Hv)
                      & ((Hxs & Hx) & (Hys & Hy) & Hk2)) & Hk3).
  assert (r1 !! "cos" = heading_of f_cos r) as Hc' by exact Hc.
  assert (r1 !! "sin" = heading_of f_sin r) as Hs' by exact Hs.
  assert (r1 !! "velocity" = r !! "velocity") as Hv' by (apply Hv; by left).
  rewrite (Hk3 "cos"), (Hk3 "sin"), (Hk3 "vx"), (Hk3 "vy")
    by (rewrite !elem_of_cons; auto).
  rewrite (Hk2 "cos"), (Hk2 "sin") by (rewrite !elem_of_cons; auto).
  rewrite Hx, Hy. unfold map_expr2, col. rewrite Hv', Hc', Hs'.
  repeat (split; [done|]).
  rewrite <-Hv', <-Hc', <-Hs'.
  change (is_Some (map_expr2 value_mul (col "velocity") (col "cos") t1 r1)
          ∧ is_Some (map_expr2 value_mul (col "velocity") (col "sin") t1 r1)).
  by rewrite <-Hx, <-Hy.
Qed.


(** ** Cells of the derived table, from the raw row *)

Lemma frame_time_expr_ext df df' r r' :
  r' !! "frameTime" = r !! "frameTime" →
  frame_time_expr df' r' = frame_time_expr df r.
Proof. intros Heq. unfold frame_time_expr, map_expr, col. by rewrite Heq. Qed.

Lemma macro_role_expr_ext df df' r r' :
  r' !! "playerRole" = r !! "playerRole" →
  macro_role_expr df' r' = macro_role_expr df r.
Proof.
  intros Heq. unfold macro_role_expr, when_then_otherwise, map_expr, col.
  by rewrite Heq.
Qed.

Lemma derive_player_columns_cells df out :
  derive_player_columns df = Some out →
  Forall2
    (λ r r',
       (is_Some (r' !! "frameTime")
        ∧ r' !! "frameTime" = frame_time_expr df r) ∧
       (is_Some (r' !! "Weight")
        ∧ r' !! "Weight"
          = (r !! "Weight" ≫= str_replace "kg" "") ≫= cast_float64) ∧
       (is_Some (r' !! "height_cm")
        ∧ r' !! "height_cm" = r !! "height_cm" ≫= cast_float64))
    df out.
Proof.
  unfold derive_player_columns. intros Hout.
  destruct (with_columns _ df) as [t1|] eqn:H1; simplify_eq/=.
  assert (NoDup ["frameTime"; "is_ball_carrier"; "Weight"; "height_cm";
                 "age"]) as Hnd by decide_list.
  assert (Forall2 (λ r r1, is_Some (r1 !! "frameTime")
                           ∧ r1 !! "frameTime" = frame_time_expr df r)
            df t1) as Htime.
  { eapply with_columns_assigns, H1; [exact Hnd|].
    rewrite !elem_of_cons. auto 10. }
  assert (Forall2 (λ r r1, is_Some (r1 !! "Weight")
                           ∧ r1 !! "Weight"
                             = map_expr cast_float64
                                 (map_expr (str_replace "kg" "")
                                    (col "Weight")) df r) df t1) as Hweight.
  { eapply with_columns_assigns, H1; [exact Hnd|].
    rewrite !elem_of_cons. auto 10. }
  assert (Forall2 (λ r r1, is_Some (r1 !! "height_cm")
                           ∧ r1 !! "height_cm"
                             = map_expr cast_float64 (col "height_cm") df r)
            df t1) as Hheight.
  { eapply with_columns_assigns, H1; [exact Hnd|].
    rewrite !elem_of_cons. auto 10. }
  assert (Forall2 (agree_on ["frameTime"; "Weight"; "height_cm"]) t1 out)
    as Hkeep.
  { eapply drop_columns_agree, Hout. decide_list. }
  eapply Forall2_impl;
    [exact (Forall2_compose _ _ _ _ _
              (Forall2_and _ _ _ _ Htime
                 (Forall2_and _ _ _ _ Hweight Hheight)) Hkeep)|].
  cbv beta. intros r r' (r1 & (Ha & Hb & Hc) & Hagree).
  rewrite (Hagree "frameTime"), (Hagree "Weight"), (Hagree "height_cm");
    [done|rewrite !elem_of_cons; auto..].
Qed.

(** The player stage leaves every other column alone, the role too. *)
Lemma derive_player_columns_keeps cs df out :
  Forall (λ c, c ∉ ["frameTime"; "is_ball_carrier"; "Weight"; "height_cm";
                    "age"; "playerName"; "playerName_right"]) cs →
  derive_player_columns df = Some out →
  Forall2 (agree_on cs) df out.
Proof.
  intros Hcs. unfold derive_player_columns. intros Hout.
  destruct (with_columns _ df) as [t1|] eqn:H1; simplify_eq/=.
  eapply Forall2_agree_trans.
  - eapply (with_columns_agree _ cs), H1.
    eapply Forall_impl; [exact Hcs|]. cbv beta. intros c Hc Hin. apply Hc.
    revert Hin. simpl. rewrite !elem_of_cons, !elem_of_nil. tauto.
  - eapply (drop_columns_agree _ cs), Hout.
    eapply Forall_impl; [exact Hcs|]. cbv beta. intros c Hc Hin. apply Hc.
    revert Hin. rewrite !elem_of_cons, !elem_of_nil. tauto.
Qed.

Lemma macro_roles_cells (b : bool) df out :
  (if b then with_columns [("playerRole", macro_role_expr)] df else Some df)
  = Some out →
  Forall2
    (λ r r', r' !! "playerRole"
             = if b then macro_role_expr df r else r !! "playerRole")
    df out.
Proof.
  destruct b.
  - intros Hout. eapply Forall2_impl.
    + eapply (with_columns_assigns _ _ _ "playerRole"), Hout;
        [decide_list|by left].
    + cbv beta. tauto.
  - intros [= <-]. apply Forall_Forall2_diag, Forall_forall. by intros.
Qed.

(** The columns the cell lemma follows from the raw table on. *)
Lemma prepare_dataframe_cells cfg raw out r' :
  _prepare_dataframe X_GOAL_LEFT X_GOAL_RIGHT Y_GOAL cfg raw = Some out →
  r' ∈ out →
  ∃ r,
    r ∈ raw ∧
    agree_on ["gameId"; "gameEventId"; "possessionEventId"] r r' ∧
    (is_Some (r' !! "frameTime")
     ∧ r' !! "frameTime" = frame_time_expr raw r) ∧
    (is_Some (r' !! "Weight")
     ∧ r' !! "Weight"
       = (r !! "Weight" ≫= str_replace "kg" "") ≫= cast_float64) ∧
    (is_Some (r' !! "height_cm")
     ∧ r' !! "height_cm" = r !! "height_cm" ≫= cast_float64) ∧
    r' !! "playerRole"
    = (if use_macro_roles cfg then macro_role_expr raw r
       else r !! "playerRole") ∧
    r' !! "cos" = heading_of f_cos r ∧
    r' !! "sin" = heading_of f_sin r ∧
    (is_Some (r' !! "vx")
     ∧ r' !! "vx" = (v ← r !! "velocity"; c ← heading_of f_cos r;
                     value_mul v c)) ∧
    (is_Some (r' !! "vy")
     ∧ r' !! "vy" = (v ← r !! "velocity"; c ← heading_of f_sin r;
                     value_mul v c)).
Proof.
  intros (t0 & tv & ta & t1 & t2 & t & t4 & H0 & Hv & Ha & H1 & H2 & Ht
          & H4 & Hout)%prepare_dataframe_stages Hr'.
  set (keys := ["gameId"; "gameEventId"; "possessionEventId"]).
  set (vel := ["cos"; "sin"; "vx"; "vy"]).
  set (pl := ["frameTime"; "Weight"; "height_cm"]).
  (* from the table with the roles to the derived table *)
  assert (traces (keys ++ vel ++ pl ++ ["playerRole"]) t out) as Hlate.
  { eapply traces_trans;
      [eapply possession_attribution_traces, H4; decide_list|].
    eapply assign_goal_traces, Hout. decide_list. }
  destruct (Hlate r' Hr') as (rt & Hrt & Hagree_t).
  (* the roles *)
  assert (Forall2 (agree_on (keys ++ vel ++ pl)) t2 t) as Hmacro_keep.
  { eapply macro_roles_agree_other, Ht. decide_list. }
  destruct (Forall2_elem_of_r _ _ _ _
              (Forall2_and _ _ _ _ Hmacro_keep (macro_roles_cells _ _ _ Ht))
              Hrt) as (r2 & Hr2 & Hagree_2 & Hrole).
  (* the player columns *)
  assert (Forall2 (agree_on (keys ++ vel ++ ["playerRole"])) t1 t2)
    as Hplayer_keep.
  { eapply derive_player_columns_keeps, H2. decide_list. }
  destruct (Forall2_elem_of_r _ _ _ _
              (Forall2_and _ _ _ _ Hplayer_keep
                 (derive_player_columns_cells _ _ H2)) Hr2)
    as (r1 & Hr1 & Hagree_1 & Htime & Hweight & Hheight).
  apply (filter_player_rows_subset _ _ _ H1) in Hr1.
  (* the early stages *)
  assert (Forall2 (agree_on (keys ++ pl ++ ["playerRole"])) raw ta) as Hearly.
  { eapply (early_stages_agree cfg); [decide_list|decide_list| |done..].
    destruct (include_ball_features cfg); [decide_list|].
    apply Forall_forall. intros ? _. apply not_elem_of_nil. }
  assert (Forall2 (agree_on ["velocity"; "direction"]) raw t0) as Hraw_vel.
  { eapply drop_columns_agree, H0. decide_list. }
  assert (Forall2 (agree_on vel) tv ta) as Hball_keep.
  { eapply ball_stage_agree, Ha.
    destruct (include_ball_features cfg); [decide_list|].
    apply Forall_forall. intros ? _. apply not_elem_of_nil. }
  pose proof (Forall2_compose _ _ _ _ _
                (Forall2_compose _ _ _ _ _ Hraw_vel
                   (derive_velocity_Some _ _ Hv)) Hball_keep) as Hvel.
  destruct (Forall2_elem_of_r _ _ _ _ (Forall2_and _ _ _ _ Hearly Hvel) Hr1)
    as (r & Hr & Hagree_0
        & rv & (r0 & Hagree_v & Hcos & Hsin & Hvx & Hvy & Hsx & Hsy)
        & Hagree_b).
  assert (∀ c, c ∈ keys ++ vel → r' !! c = r1 !! c) as Hback.
  { intros c Hc. rewrite (Hagree_t c), (Hagree_2 c), (Hagree_1 c);
      [done|revert Hc; rewrite !elem_of_app; tauto..]. }
  assert (∀ c, c ∈ pl → r' !! c = r2 !! c) as Hback_pl.
  { intros c Hc. rewrite (Hagree_t c), (Hagree_2 c);
      [done|revert Hc; rewrite !elem_of_app; tauto..]. }
  assert (heading_of f_cos r0 = heading_of f_cos r
          ∧ heading_of f_sin r0 = heading_of f_sin r
          ∧ r0 !! "velocity" = r !! "velocity") as (Hhc & Hhs & Hvl).
  { unfold heading_of. rewrite !(Hagree_v "direction"), (Hagree_v "velocity")
      by (rewrite !elem_of_cons; auto). done. }
  exists r. split; [done|]. split; [|split; [|split; [|split; [|split]]]].
  - intros c Hc. rewrite Hback by (apply elem_of_app; by left).
    apply Hagree_0. apply elem_of_app. by left.
  - rewrite (Hback_pl "frameTime") by (unfold pl; rewrite !elem_of_cons; auto).
    destruct Htime as [? Heq]. split; [done|]. rewrite Heq.
    apply frame_time_expr_ext, Hagree_0.
    unfold pl. rewrite !elem_of_app, !elem_of_cons. auto 10.
  - rewrite (Hback_pl "Weight") by (unfold pl; rewrite !elem_of_cons; auto).
    destruct Hweight as [? Heq]. split; [done|]. rewrite Heq.
    rewrite (Hagree_0 "Weight"); [done|].
    unfold pl. rewrite !elem_of_app, !elem_of_cons. auto 10.
  - rewrite (Hback_pl "height_cm") by (unfold pl; rewrite !elem_of_cons; auto).
    destruct Hheight as [? Heq]. split; [done|]. rewrite Heq.
    rewrite (Hagree_0 "height_cm"); [done|].
    unfold pl. rewrite !elem_of_app, !elem_of_cons. auto 10.
  - rewrite (Hagree_t "playerRole")
      by (rewrite !elem_of_app, !elem_of_cons; auto 10).
    rewrite Hrole.
    assert (r2 !! "playerRole" = r !! "playerRole") as Heq.
    { rewrite (Hagree_1 "playerRole"), (Hagree_0 "playerRole");
        [done|rewrite !elem_of_app, !elem_of_cons; auto 10..]. }
    destruct (use_macro_roles cfg); [|done].
    by apply macro_role_expr_ext.
  - assert (∀ c, c ∈ vel → r' !! c = rv !! c) as Hback_v.
    { intros c Hc. rewrite Hback by (apply elem_of_app; by right).
      by apply Hagree_b. }
    rewrite !Hback_v by (unfold vel; rewrite !elem_of_cons; auto).
    rewrite Hcos, Hsin, Hvx, Hvy, Hhc, Hhs, Hvl.
    repeat split; try done.
    + rewrite <-Hvl, <-Hhc, <-Hvx. done.
    + rewrite <-Hvl, <-Hhs, <-Hvy. done.
Qed.


Lemma age_expr_ext df df' r r' :
  r' !! "age" = r !! "age" → age_expr df' r' = age_expr df r.
Proof.
  intros Heq. unfold age_expr, when_then_otherwise, map_expr2, col.
  by rewrite Heq.
Qed.

Lemma prepare_dataframe_age_cell cfg raw out r' :
  _prepare_dataframe X_GOAL_LEFT X_GOAL_RIGHT Y_GOAL cfg raw = Some out →
  r' ∈ out →
  ∃ r,
    r ∈ raw ∧
    agree_on ["gameId"; "gameEventId"; "possessionEventId"] r r' ∧
    is_Some (r' !! "age") ∧
    r' !! "age" = age_expr raw r.
Proof.
  intros (t0 & tv & ta & t1 & t2 & t & t4 & H0 & Hv & Ha & H1 & H2 & Ht
          & H4 & Hout)%prepare_dataframe_stages Hr'.
  set (keys := ["gameId"; "gameEventId"; "possessionEventId"]).
  assert (traces (keys ++ ["age"]) t2 out) as Hlate.
  { eapply traces_trans;
      [eapply Forall2_traces, macro_roles_agree_other, Ht; decide_list|].
    eapply traces_trans;
      [eapply possession_attribution_traces, H4; decide_list|].
    eapply assign_goal_traces, Hout. decide_list. }
  destruct (Hlate r' Hr') as (r2 & Hr2 & Hagree_2).
  assert (Forall2 (agree_on keys) t1 t2) as Hplayer_keep.
  { eapply derive_player_columns_keeps, H2. decide_list. }
  destruct (Forall2_elem_of_r _ _ _ _
              (Forall2_and _ _ _ _ Hplayer_keep
                 (derive_player_columns_Some _ _ H2)) Hr2)
    as (r1 & Hr1 & Hagree_1 & (Hsome & Hage) & _).
  apply (filter_player_rows_subset _ _ _ H1) in Hr1.
  assert (Forall2 (agree_on (keys ++ ["age"])) raw ta) as Hearly.
  { eapply (early_stages_agree cfg); [decide_list|decide_list| |done..].
    destruct (include_ball_features cfg); [decide_list|].
    apply Forall_forall. intros ? _. apply not_elem_of_nil. }
  destruct (Forall2_elem_of_r _ _ _ _ Hearly Hr1) as (r & Hr & Hagree_0).
  exists r. split; [done|]. split; [|split].
  - intros c Hc. rewrite (Hagree_2 c), (Hagree_1 c), (Hagree_0 c);
      [done|try (apply elem_of_app; by left); done..].
  - rewrite (Hagree_2 "age"); [done|].
    apply elem_of_app. right. by left.
  - rewrite (Hagree_2 "age") by (apply elem_of_app; right; by left).
    rewrite Hage. apply age_expr_ext, Hagree_0.
    apply elem_of_app. right. by left.
Qed.


(** ** Strings *)

Lemma parse_digits_no_char (ch : Ascii.ascii) (s : string) (acc m : Z) :
  ¬ (48 ≤ Z.of_N (Ascii.N_of_ascii ch) ≤ 57) →
  parse_digits s acc = Some m → has_char ch s = false.
Proof.
  intros Hch. revert acc. induction s as [|c s IH]; intros acc; simpl; [done|].
  case_bool_decide as Hc; [|done]. intros Hm.
  rewrite (IH _ Hm), orb_false_r.
  apply Ascii.eqb_neq. intros ->. done.
Qed.

Lemma parse_digits_nonneg (s : string) (acc m : Z) :
  0 ≤ acc → parse_digits s acc = Some m → 0 ≤ m.
Proof.
  revert acc. induction s as [|c s IH]; intros acc Hacc; simpl.
  - by intros [= <-].
  - case_bool_decide as Hc; [|done]. apply IH. lia.
Qed.

Lemma str_split_no_sep (sep : Ascii.ascii) (s : string) :
  has_char sep s = false → str_split sep s = [s].
Proof.
  induction s as [|c s IH]; simpl; [done|].
  intros [Hc Hs]%orb_false_elim. rewrite Hc, (IH Hs). done.
Qed.

Lemma str_split_app (sep : Ascii.ascii) (a b : string) :
  has_char sep a = false →
  str_split sep (a +:+ String sep b) = a :: str_split sep b.
Proof.
  induction a as [|c a IH]; simpl.
  - intros _. by rewrite Ascii.eqb_refl.
  - intros [Hc Ha]%orb_false_elim. rewrite Hc, (IH Ha). done.
Qed.

Lemma str_replace_first_kg (s : string) :
  has_char "k"%char s = false → str_replace_first "kg" "" (s +:+ "kg") = s.
Proof.
  induction s as [|c s IH]; [done|].
  intros [Hc Hs]%orb_false_elim.
  change (String c s +:+ "kg") with (String c (s +:+ "kg")).
  cbn [str_replace_first String.prefix]. 
  destruct (Ascii.ascii_dec "k" c) as [<-|Hne].
  - by rewrite Ascii.eqb_refl in Hc.
  - by rewrite (IH Hs).
Qed.

(** ** Macro roles *)

Lemma macro_role_expr_str df r (s : string) :
  r !! "playerRole" = Some (VStr s) →
  macro_role_expr df r = Some (VStr (macro_role s)).
Proof.
  intros Hr. unfold macro_role_expr, when_then_otherwise, map_expr, col, lit.
  rewrite Hr. simpl. unfold macro_role, midfield_roles, defense_roles,
    forward_roles.
  repeat case_bool_decide; done.
Qed.

Lemma macro_role_expr_null df r :
  r !! "playerRole" = Some VNull → macro_role_expr df r = Some VNull.
Proof.
  intros Hr. unfold macro_role_expr, when_then_otherwise, map_expr, col, lit.
  by rewrite Hr.
Qed.

Lemma macro_role_expr_Some df r v :
  macro_role_expr df r = Some v →
  v = VNull ∨ ∃ s, r !! "playerRole" = Some (VStr s) ∧ v = VStr (macro_role s).
Proof.
  intros Hv. destruct (r !! "playerRole") as [[| | | |s]|] eqn:Hr.
  - rewrite (macro_role_expr_null _ _ Hr) in Hv. left. congruence.
  - revert Hv. unfold macro_role_expr, when_then_otherwise, map_expr, col.
    by rewrite Hr.
  - revert Hv. unfold macro_role_expr, when_then_otherwise, map_expr, col.
    by rewrite Hr.
  - revert Hv. unfold macro_role_expr, when_then_otherwise, map_expr, col.
    by rewrite Hr.
  - rewrite (macro_role_expr_str _ _ _ Hr) in Hv. right. exists s.
    split; [done|]. congruence.
  - revert Hv. unfold macro_role_expr, when_then_otherwise, map_expr, col.
    by rewrite Hr.
Qed.

Lemma macro_role_coarse (s : string) :
  macro_role s ∉ midfield_roles ++ defense_roles ++ forward_roles.
Proof.
  unfold macro_role. rewrite !elem_of_app.
  repeat case_bool_decide; try tauto;
    apply (bool_decide_unpack _); vm_compute; exact I.
Qed.

Lemma macro_role_idemp (s : string) : macro_role (macro_role s) = macro_role s.
Proof.
  pose proof (macro_role_coarse s) as Hc. rewrite !elem_of_app in Hc.
  unfold macro_role at 1. repeat case_bool_decide; tauto.
Qed.

(** ** Weights *)

Lemma weight_cell_kg (s : string) :
  has_char "k"%char s = false →
  (Some (VStr (s +:+ "kg")) ≫= str_replace "kg" "") ≫= cast_float64
  = VFloat (float:=float) <$> f_of_string s.
Proof. intros Hs. simpl. by rewrite (str_replace_first_kg _ Hs). Qed.

(** ** The goal of a row whose side is unknown *)

Lemma x_goal_expr_null_side df r v :
  r !! "homeTeamStartLeft" = Some VNull ∨ r !! "startPeriod2" = Some VNull →
  x_goal_expr X_GOAL_LEFT X_GOAL_RIGHT df r = Some v →
  v = VFloat X_GOAL_LEFT.
Proof.
  unfold x_goal_expr, when_then_otherwise, is_goal_right, lit, col.
  intros Hnull Hv.
  destruct (is_home_team df r) as [h|] eqn:Hh; simplify_eq/=.
  destruct (r !! "homeTeamStartLeft") as [l|] eqn:Hl; simplify_eq/=.
  destruct (is_second_half df r) as [s|] eqn:Hs; simplify_eq/=.
  assert (l = VNull ∨ s = VNull) as Hls.
  { destruct Hnull as [[= ->]|Hsp]; [by left|right].
    revert Hs. unfold is_second_half, map_expr2, col, value_gt.
    rewrite Hsp. destruct (r !! "frameTime") as [[]|]; simpl; congruence. }
  clear Hnull Hl Hh Hs.
  destruct h as [|[]| | |], l as [|[]| | |], s as [|[]| | |];
    simplify_eq/=; try done; destruct Hls; done.
Qed.

Lemma possession_attribution_keeps cs df out :
  Forall (λ c, c ∉ ["possession_team_tmp"; "is_possession_team"]) cs →
  possession_attribution df = Some out →
  traces cs df out.
Proof.
  intros Hcs. unfold possession_attribution. intros Hout.
  destruct (with_columns [("possession_team_tmp", _)] df) as [t1|] eqn:H1;
    simplify_eq/=.
  destruct (with_columns [("is_possession_team", _)] t1) as [t2|] eqn:H2;
    simplify_eq/=.
  destruct (drop_columns ["possession_team_tmp"] t2) as [t3|] eqn:H3;
    simplify_eq/=.
  eapply traces_trans; [|eapply select_rows_traces, Hout].
  eapply traces_trans; [|eapply Forall2_traces, drop_columns_agree, H3].
  eapply traces_trans; eapply Forall2_traces, with_columns_agree; eauto.
  all: eapply Forall_impl; [exact Hcs|]; cbv beta; intros c Hc Hin; apply Hc;
    revert Hin; clear; simpl; rewrite !elem_of_cons, !elem_of_nil; tauto.
Qed.

Lemma prepare_dataframe_goal_side cfg raw out r' :
  _prepare_dataframe X_GOAL_LEFT X_GOAL_RIGHT Y_GOAL cfg raw = Some out →
  r' ∈ out →
  ∃ r,
    r ∈ raw ∧
    agree_on ["gameId"; "gameEventId"; "possessionEventId"] r r' ∧
    (r !! "homeTeamStartLeft" = Some VNull ∨ r !! "startPeriod2" = Some VNull →
     r' !! "x_goal" = Some (VFloat X_GOAL_LEFT)).
Proof.
  intros (t0 & tv & ta & t1 & t2 & t & t4 & H0 & Hv & Ha & H1 & H2 & Ht
          & H4 & Hout)%prepare_dataframe_stages Hr'.
  set (keys := ["gameId"; "gameEventId"; "possessionEventId"]).
  set (side := ["homeTeamStartLeft"; "startPeriod2"]).
  destruct (Forall2_elem_of_r _ _ _ _
              (assign_goal_Some _ _ _ keys _ _ ltac:(decide_list) Hout) Hr')
    as (r4 & Hr4 & Hagree_4 & _ & Hx & _).
  assert (traces (keys ++ side) t1 t4) as Hlate.
  { eapply traces_trans;
      [eapply Forall2_traces, derive_player_columns_keeps, H2; decide_list|].
    eapply traces_trans;
      [eapply Forall2_traces, macro_roles_agree_other, Ht; decide_list|].
    eapply possession_attribution_keeps, H4. decide_list. }
  destruct (Hlate r4 Hr4) as (r1 & Hr1 & Hagree_1).
  apply (filter_player_rows_subset _ _ _ H1) in Hr1.
  assert (Forall2 (agree_on (keys ++ side)) raw ta) as Hearly.
  { eapply (early_stages_agree cfg); [decide_list|decide_list| |done..].
    destruct (include_ball_features cfg); [decide_list|].
    apply Forall_forall. intros ? _. apply not_elem_of_nil. }
  destruct (Forall2_elem_of_r _ _ _ _ Hearly Hr1) as (r & Hr & Hagree_0).
  exists r. split; [done|]. split.
  - intros c Hc. rewrite (Hagree_4 c Hc), (Hagree_1 c), (Hagree_0 c);
      [done|apply elem_of_app; by left..].
  - intros Hnull.
    assert (r4 !! "homeTeamStartLeft" = r !! "homeTeamStartLeft"
            ∧ r4 !! "startPeriod2" = r !! "startPeriod2") as [Hl Hs].
    { split.
      - rewrite (Hagree_1 "homeTeamStartLeft"), (Hagree_0 "homeTeamStartLeft");
          [done|unfold side; rewrite !elem_of_app, !elem_of_cons; auto 10..].
      - rewrite (Hagree_1 "startPeriod2"), (Hagree_0 "startPeriod2");
          [done|unfold side; rewrite !elem_of_app, !elem_of_cons; auto 10..]. }
    rewrite <-Hl, <-Hs in Hnull.
    destruct (r' !! "x_goal") as [v|] eqn:Hv'.
    + symmetry in Hx. by rewrite (x_goal_expr_null_side _ _ _ Hnull Hx).
    + destruct (Forall2_elem_of_r _ _ _ _
                  (assign_goal_Some _ _ _ [] _ _ (Forall_nil_2 _) Hout) Hr')
        as (? & _ & _ & _ & _ & [?|?]); congruence.
Qed.

(** ** Columns the derivation needs *)

Lemma drop_columns_present (cols : list string) df out r c :
  drop_columns cols df = Some out → r ∈ df → c ∈ cols → is_Some (r !! c).
Proof.
  unfold drop_columns. intros Hout Hr Hc.
  assert (is_Some (mapM (λ r : Row,
                           if forallb (λ c, bool_decide (is_Some (r !! c))) cols
                           then Some (foldr delete r cols) else None) df))
    as Hsome by eauto.
  apply mapM_is_Some in Hsome. rewrite Forall_forall in Hsome.
  destruct (Hsome r Hr) as [r' Hr'].
  destruct (forallb _ cols) eqn:Hall; [|done].
  rewrite forallb_forall in Hall.
  apply (bool_decide_unpack _), Is_true_true, Hall.
  by apply list_elem_of_In.
Qed.

Lemma prepare_dataframe_needs cfg raw out r c :
  _prepare_dataframe X_GOAL_LEFT X_GOAL_RIGHT Y_GOAL cfg raw = Some out →
  r ∈ raw → c ∈ cols_to_drop ++ ["velocity"; "direction"] →
  is_Some (r !! c).
Proof.
  intros (t0 & tv & ta & t1 & t2 & t & t4 & H0 & Hv & _)%prepare_dataframe_stages
         Hr Hc.
  apply elem_of_app in Hc as [Hc|Hc];
    [by eapply drop_columns_present|].
  assert (Forall2 (agree_on ["velocity"; "direction"]) raw t0) as Hkeep.
  { eapply drop_columns_agree, H0. decide_list. }
  pose proof (Forall2_compose _ _ _ _ _ Hkeep (derive_velocity_Some _ _ Hv))
    as Hall.
  apply Forall2_flip in Hall.
  destruct (Forall2_elem_of_r _ _ _ _ Hall Hr)
    as (rv & _ & r0 & Hagree & _ & _ & Hvx & _ & [x Hx] & _).
  rewrite <-(Hagree c Hc). rewrite Hx in Hvx. symmetry in Hvx.
  destruct (r0 !! "velocity") as [vel|] eqn:Hvel; simplify_eq/=.
  unfold heading_of in Hvx.
  destruct (r0 !! "direction") as [d|] eqn:Hd; simplify_eq/=.
  rewrite !elem_of_cons, elem_of_nil in Hc.
  destruct Hc as [->|[->|[]]]; by eexists.
Qed.


(** ** Time stamps and weights *)

Lemma frame_time_expr_digits df r (a b : string) (m s : Z) :
  r !! "frameTime" = Some (VStr (a +:+ ":" +:+ b)) →
  parse_digits a 0 = Some m → a ≠ "" →
  parse_digits b 0 = Some s → b ≠ "" →
  60 * m + s ≤ 65535 →
  frame_time_expr df r = Some (VInt (60 * m + s)).
Proof.
  intros Hr Ha Hane Hb Hbne Hle.
  pose proof (parse_digits_nonneg _ _ _ (Z.le_refl 0) Ha) as Hm.
  pose proof (parse_digits_nonneg _ _ _ (Z.le_refl 0) Hb) as Hs.
  assert (has_char ":"%char a = false) as Hca
    by (eapply parse_digits_no_char, Ha; vm_compute; intros [? ?]; done).
  assert (has_char ":"%char b = false) as Hcb
    by (eapply parse_digits_no_char, Hb; vm_compute; intros [? ?]; done).
  unfold frame_time_expr, map_expr, col. rewrite Hr. simpl.
  change (a +:+ ":" +:+ b) with (a +:+ String ":" b).
  rewrite (str_split_app _ _ _ Hca), (str_split_no_sep _ _ Hcb). simpl.
  destruct a as [|ca a']; [done|]. destruct b as [|cb b']; [done|].
  cbn [cast_uint16]. rewrite Ha, Hb. simpl.
  rewrite !bool_decide_eq_true_2 by lia. simpl.
  f_equal. f_equal.
  rewrite (Z.mod_small (m * 60)) by lia. rewrite Z.mod_small by lia. lia.
Qed.

End StageFacts.

Section SplitFacts.
Context {float : Type} `{FloatOps float}.
Implicit Types (r : Row (float:=float)) (df : DataFrame (float:=float)).
Implicit Types (v : value (float:=float)).

(** ** Rows of the partitions *)

Lemma semi_join_sublist c (ids : list value) df out :
  semi_join c ids df = Some out → out `sublist_of` df.
Proof.
  unfold semi_join. intros [_ ->]%select_rows_Some. apply sublist_filter.
Qed.

(** Two disjoint selections that cover the rows whose cell satisfies
    [R]. *)
Lemma filter_length_cover {A B} (P Q : A → Prop) (R : B → Prop)
    `{∀ x, Decision (P x)} `{∀ x, Decision (Q x)} `{∀ y, Decision (R y)}
    (f : A → option B) (l : list A) :
  Forall (λ x, ∃ y, f x = Some y ∧ (R y ↔ P x ∨ Q x) ∧ ¬ (P x ∧ Q x)) l →
  (length (filter P l) + length (filter Q l))%nat
  = length (filter R (omap f l)).
Proof.
  induction 1 as [|x l (y & Hy & Hcov & Hdisj) _ IH]; [done|].
  rewrite !filter_cons. simpl. rewrite Hy. rewrite filter_cons.
  destruct (decide (P x)), (decide (Q x)), (decide (R y)); simpl;
    try tauto; change (list_omap A B f l) with (omap f l); rewrite <-IH; lia.
Qed.

Lemma semi_join_lengths c (a b : list value) df tr va :
  (∀ v, v ∈ a → v ∈ b → False) →
  Forall (λ r, ∃ v, r !! c = Some v ∧ (v ≠ VNull → v ∈ a ∨ v ∈ b)) df →
  semi_join c a df = Some tr → semi_join c b df = Some va →
  (length tr + length va)%nat
  = length (filter (λ v, v ≠ VNull) (omap (λ r : Row, r !! c) df)).
Proof.
  intros Hdisj Hall [_ ->]%select_rows_Some [_ ->]%select_rows_Some.
  apply filter_length_cover.
  eapply Forall_impl; [exact Hall|]. cbv beta.
  intros r (v & Hv & Hcov). exists v. rewrite Hv. simpl.
  split; [done|]. split; [split|].
  - intros Hnn. destruct (Hcov Hnn);
      [left|right]; f_equal; by apply bool_decide_eq_true_2.
  - intros [[= Hb]|[= Hb]]; apply bool_decide_eq_true_1 in Hb; tauto.
  - intros [[= Ha] [= Hb]].
    apply bool_decide_eq_true_1 in Ha, Hb.
    destruct Ha as [_ Ha], Hb as [_ Hb]. eauto.
Qed.

Lemma split_rows df ratio train val :
  _split_by_worldcup_phase df ratio = Some (train, val) →
  train `sublist_of` df ∧ val `sublist_of` df ∧
  (∀ r, r ∈ df → r !! "gameId" = Some VNull → (r ∉ train) ∧ (r ∉ val)) ∧
  (∀ r g, r ∈ df → r !! "gameId" = Some g → g ≠ VNull →
          r ∈ train ∨ r ∈ val) ∧
  (length train + length val)%nat = length (game_ids_of df).
Proof.
  intros (ids & m & Hids & _ & Htr & Hva)%split_Some.
  pose proof (NoDup_unique_sorted ids) as Hnd.
  rewrite <-(take_drop m (unique_sorted ids)) in Hnd.
  apply NoDup_app in Hnd as (_ & Hdisj & _).
  assert (∀ r g, r ∈ df → r !! "gameId" = Some g →
                 g ∈ take m (unique_sorted ids)
                 ∨ g ∈ drop m (unique_sorted ids)) as Hcov.
  { intros r g Hr Hg. apply elem_of_app.
    rewrite take_drop, elem_of_unique_sorted.
    apply (elem_of_select_column _ _ _ _ Hids). eauto. }
  split; [by eapply semi_join_sublist|].
  split; [by eapply semi_join_sublist|].
  split; [|split].
  - intros r Hr Hnull. split.
    + intros (_ & v & Hv & Hnn & _)%(elem_of_semi_join _ _ _ _ _ Htr).
      congruence.
    + intros (_ & v & Hv & Hnn & _)%(elem_of_semi_join _ _ _ _ _ Hva).
      congruence.
  - intros r g Hr Hg Hnn. destruct (Hcov r g Hr Hg) as [Hin|Hin].
    + left. apply (elem_of_semi_join _ _ _ _ _ Htr). eauto 6.
    + right. apply (elem_of_semi_join _ _ _ _ _ Hva). eauto 6.
  - unfold game_ids_of.
    apply (semi_join_lengths "gameId" _ _ _ _ _ Hdisj); [|done..].
    apply Forall_forall. intros r Hr.
    assert (is_Some (mapM (λ r : Row, r !! "gameId") df)) as Hsome
      by (unfold select_column in Hids; eauto).
    apply mapM_is_Some in Hsome. rewrite Forall_forall in Hsome.
    destruct (Hsome r Hr) as [v Hv]. exists v. split; [done|]. eauto.
Qed.

(** ** Order of the identifiers *)

Lemma value_le_int_trans (a b c : value (float:=float)) :
  is_int_cell a → is_int_cell b → is_int_cell c →
  value_le a b → value_le b c → value_le a c.
Proof.
  unfold value_le.
  destruct a, b, c; simpl; try done.
  intros _ _ _ ?%Is_true_true%Z.leb_le ?%Is_true_true%Z.leb_le.
  apply Is_true_true, Z.leb_le. lia.
Qed.

Lemma Sorted_int_cells (l : list (value (float:=float))) :
  Forall is_int_cell l → Sorted value_le l → StronglySorted value_le l.
Proof.
  induction 1 as [|x l Hx Hl IH]; [constructor|].
  intros [Hs Hhd]%Sorted_inv. constructor; [auto|].
  specialize (IH Hs). clear Hs.
  destruct Hhd as [|y l' Hxy]; [constructor|].
  apply StronglySorted_inv in IH as [_ Hall].
  apply Forall_cons in Hl as [Hy Hl']. constructor; [done|].
  rewrite Forall_forall in Hall, Hl' |- *.
  intros z Hz. eapply (value_le_int_trans x y z); eauto.
Qed.

Lemma split_ordered df ratio train val :
  (∀ r v, r ∈ df → r !! "gameId" = Some v → is_int_cell v) →
  _split_by_worldcup_phase df ratio = Some (train, val) →
  ∀ a b : Z,
    VInt a ∈ game_ids_of train → VInt b ∈ game_ids_of val → a < b.
Proof.
  intros Hint (ids & m & Hids & _ & Htr & Hva)%split_Some a b
         (_ & r & Hr & Hra)%elem_of_game_ids_of
         (_ & r' & Hr' & Hrb)%elem_of_game_ids_of.
  apply (elem_of_semi_join _ _ _ _ _ Htr) in Hr as (_ & v & Hv & _ & Hin1).
  apply (elem_of_semi_join _ _ _ _ _ Hva) in Hr' as (_ & v' & Hv' & _ & Hin2).
  simplify_eq.
  assert (Forall is_int_cell (unique_sorted ids)) as Hcells.
  { apply Forall_forall. intros x Hx. rewrite elem_of_unique_sorted in Hx.
    apply (elem_of_select_column _ _ _ _ Hids) in Hx as (r0 & Hr0 & Hx).
    eauto. }
  pose proof (Sorted_int_cells _ Hcells (Sorted_unique_sorted ids)) as Hss.
  pose proof (NoDup_unique_sorted ids) as Hnd.
  rewrite <-(take_drop m (unique_sorted ids)) in Hss, Hnd.
  apply NoDup_app in Hnd as (_ & Hdisj & _).
  pose proof (StronglySorted_app_1_elem_of _ _ _ _ _ Hss Hin1 Hin2) as Hle.
  unfold value_le in Hle. simpl in Hle.
  apply Is_true_true, Z.leb_le in Hle.
  assert (a ≠ b) by (intros ->; by eapply Hdisj).
  lia.
Qed.

(** ** Number of matches in the partitions *)

Lemma game_ids_of_semi_join (ids part : list value) df out :
  (∀ r, r ∈ df → r !! "gameId" ≠ Some VNull) →
  select_column "gameId" df = Some ids →
  (∀ x, x ∈ part → x ∈ ids) → NoDup part →
  semi_join "gameId" part df = Some out →
  remove_dups (game_ids_of out) ≡ₚ part.
Proof.
  intros Hnn Hids Hsub Hnd Hout. apply NoDup_Permutation.
  - apply NoDup_remove_dups.
  - done.
  - intros x. rewrite elem_of_remove_dups, elem_of_game_ids_of. split.
    + intros (_ & r & Hr & Hx).
      apply (elem_of_semi_join _ _ _ _ _ Hout) in Hr as (_ & v & ? & _ & ?).
      congruence.
    + intros Hx.
      destruct (proj1 (elem_of_select_column _ _ _ _ Hids) (Hsub x Hx))
        as (r & Hr & Hrx).
      assert (x ≠ VNull) as Hxn by (intros ->; by eapply Hnn).
      split; [done|]. exists r. split; [|done].
      apply (elem_of_semi_join _ _ _ _ _ Hout). eauto 6.
Qed.

Lemma split_counts df ratio train val :
  is_float ratio → py_le ratio float_1_0 = true →
  (∀ r, r ∈ df → r !! "gameId" ≠ Some VNull) →
  _split_by_worldcup_phase df ratio = Some (train, val) →
  let n := length (remove_dups (game_ids_of df)) in
  ∃ k : Z,
    n_train_games_of ratio (Z.of_nat n) = Some k ∧ 0 ≤ k ∧
    length (remove_dups (game_ids_of train)) = (Z.to_nat k `min` n)%nat ∧
    length (remove_dups (game_ids_of val)) = (n - Z.to_nat k)%nat.
Proof.
  intros Hfloat Hle Hnn Hsplit n.
  destruct (split_Some _ _ _ _ Hsplit)
    as (ids & m & Hids & (k & Hk & _) & _ & _).
  set (sorted := unique_sorted ids) in *.
  assert (0 ≤ k) as Hk0
    by (eapply n_train_games_of_nonneg; [done|done| |exact Hk]; lia).
  destruct (split_returns df ratio ids k Hids Hk)
    as (tr & va & Heq & Htr & Hva); [fold sorted; lia|].
  rewrite Heq in Hsplit. injection Hsplit as -> ->.
  fold sorted in Htr, Hva.
  destruct (Z.ltb_spec k 0); [lia|].
  assert (remove_dups (game_ids_of df) ≡ₚ sorted) as Hperm.
  { apply NoDup_Permutation;
      [apply NoDup_remove_dups|apply NoDup_unique_sorted|].
    intros x. unfold sorted.
    rewrite elem_of_remove_dups, elem_of_game_ids_of, elem_of_unique_sorted.
    rewrite (elem_of_select_column _ _ _ _ Hids). split; [tauto|].
    intros (r & Hr & Hx). split; [|eauto].
    intros ->. by eapply Hnn. }
  assert (length sorted = n) as Hn by (unfold n; by rewrite Hperm).
  rewrite Hn in Hk.
  pose proof (NoDup_unique_sorted ids) as Hnd. fold sorted in Hnd.
  pose proof Hnd as Hnd'. rewrite <-(take_drop (Z.to_nat k) sorted) in Hnd'.
  apply NoDup_app in Hnd' as (Hnd1 & _ & Hnd2).
  assert (remove_dups (game_ids_of train) ≡ₚ take (Z.to_nat k) sorted) as Ptr.
  { apply (game_ids_of_semi_join ids _ df); [done..| |done|done].
    intros x Hx. apply elem_of_unique_sorted. by eapply subseteq_take. }
  assert (remove_dups (game_ids_of val) ≡ₚ drop (Z.to_nat k) sorted) as Pva.
  { apply (game_ids_of_semi_join ids _ df); [done..| |done|done].
    intros x Hx. apply elem_of_unique_sorted. by eapply subseteq_drop. }
  exists k. split; [exact Hk|]. split; [exact Hk0|].
  rewrite Ptr, Pva, length_take, length_drop. lia.
Qed.

End SplitFacts.

Section PreprocessorFacts.
Variables (SHOOTING_STATS : list string) (random_state : Z).

Local Ltac decide_list := apply (bool_decide_unpack _); vm_compute; exact I.

(** ** The branches of the preprocessor *)

Lemma prep_transformers_create cfg columns :
  prep_transformers (_create_preprocessor SHOOTING_STATS random_state cfg columns)
  = [ ("num", num_pipe SHOOTING_STATS random_state cfg,
       Cols (num_cols cfg columns));
      ("cat", cat_pipe, Cols cat_cols);
      ("player_loc", player_pipe,
       Cols (pos_cols ++ angle_cols ++ velocity_cols ++ goal_cols)) ]
    ++ (if include_goal_features cfg
        then [ ("goal_loc", GoalLocationTransformer,
                Cols (pos_cols ++ goal_cols)) ]
        else [])
    ++ (if include_ball_features cfg
        then [ ("ball_pipe", ball_loc_pipe,
                Cols (pos_cols ++ angle_cols ++ velocity_cols ++ ball_cols)) ]
        else []).
Proof.
  unfold _create_preprocessor.
  by destruct (mask_non_possession_shooting_stats cfg).
Qed.

Lemma elem_of_num_cols cfg columns c :
  c ∈ num_cols cfg columns ↔ (c ∉ exclude_cols cfg) ∧ c ∈ columns.
Proof.
  unfold num_cols.
  apply (list_elem_of_filter (λ c, c ∉ exclude_cols cfg)).
Qed.

Lemma elem_of_exclude_cols cfg c :
  c ∈ exclude_cols cfg ↔
  c ∈ cat_cols ∨
  c ∈ pos_cols ++ angle_cols ++ velocity_cols ++ goal_cols ∨
  c ∈ key_cols ∨
  (include_ball_features cfg = true ∧ c ∈ ball_cols).
Proof.
  unfold exclude_cols. fold key_cols. rewrite !elem_of_app.
  destruct (include_ball_features cfg).
  - intuition congruence.
  - rewrite elem_of_nil. intuition congruence.
Qed.

(** The branches other than the numeric one, with their columns. *)
Lemma elem_of_prep_transformers cfg columns name est sel :
  (name, est, sel)
  ∈ prep_transformers
      (_create_preprocessor SHOOTING_STATS random_state cfg columns) →
  (name = "num" ∧ sel = Cols (num_cols cfg columns)) ∨
  (name = "cat" ∧ sel = Cols cat_cols) ∨
  (name = "player_loc"
   ∧ sel = Cols (pos_cols ++ angle_cols ++ velocity_cols ++ goal_cols)) ∨
  (name = "goal_loc" ∧ include_goal_features cfg = true
   ∧ sel = Cols (pos_cols ++ goal_cols)) ∨
  (name = "ball_pipe" ∧ include_ball_features cfg = true
   ∧ sel = Cols (pos_cols ++ angle_cols ++ velocity_cols ++ ball_cols)).
Proof.
  rewrite prep_transformers_create, !elem_of_app, !elem_of_cons, elem_of_nil.
  intros [[Heq|[Heq|[Heq|[]]]]|[Hin|Hin]].
  - injection Heq as -> -> ->. auto.
  - injection Heq as -> -> ->. auto.
  - injection Heq as -> -> ->. auto.
  - destruct (include_goal_features cfg); [|by apply elem_of_nil in Hin].
    apply list_elem_of_singleton in Hin. injection Hin as -> -> ->. auto 10.
  - destruct (include_ball_features cfg); [|by apply elem_of_nil in Hin].
    apply list_elem_of_singleton in Hin. injection Hin as -> -> ->. auto 10.
Qed.

Lemma key_cols_in_no_branch cfg columns c name est sel :
  c ∈ key_cols →
  (name, est, sel)
  ∈ prep_transformers
      (_create_preprocessor SHOOTING_STATS random_state cfg columns) →
  c ∉ selected sel columns.
Proof.
  intros Hc Hin.
  assert (Forall (λ c, (c ∉ cat_cols) ∧
                       (c ∉ pos_cols ++ angle_cols ++ velocity_cols
                            ++ goal_cols) ∧
                       (c ∉ pos_cols ++ goal_cols) ∧
                       (c ∉ pos_cols ++ angle_cols ++ velocity_cols
                            ++ ball_cols)) key_cols) as Hall by decide_list.
  rewrite Forall_forall in Hall. destruct (Hall c Hc) as (H1 & H2 & H3 & H4).
  destruct (elem_of_prep_transformers _ _ _ _ _ Hin)
    as [[_ ->]|[[_ ->]|[[_ ->]|[(_ & _ & ->)|(_ & _ & ->)]]]];
    cbn [selected]; try done.
  rewrite elem_of_num_cols, elem_of_exclude_cols. tauto.
Qed.

Lemma other_cols_in_a_branch cfg columns c :
  c ∈ columns → c ∉ key_cols →
  ∃ name est sel,
    (name, est, sel)
    ∈ prep_transformers
        (_create_preprocessor SHOOTING_STATS random_state cfg columns) ∧
    c ∈ selected sel columns.
Proof.
  intros Hc Hkey. rewrite prep_transformers_create.
  destruct (decide (c ∈ exclude_cols cfg)) as [Hex|Hex].
  - apply elem_of_exclude_cols in Hex as [Hcat|[Hpl|[?|[Hb Hball]]]]; [| |done|].
    + exists "cat", cat_pipe, (Cols cat_cols). split; [|done].
      rewrite !elem_of_app, !elem_of_cons. auto 10.
    + eexists "player_loc", player_pipe, (Cols _). split; [|exact Hpl].
      rewrite !elem_of_app, !elem_of_cons. auto 10.
    + rewrite Hb.
      eexists "ball_pipe", ball_loc_pipe, (Cols _). split.
      * rewrite !elem_of_app, !elem_of_cons. auto 10.
      * cbn [selected]. rewrite !elem_of_app. auto.
  - eexists "num", _, (Cols _). split.
    + rewrite !elem_of_app, !elem_of_cons. auto 10.
    + cbn [selected]. by apply elem_of_num_cols.
Qed.

Lemma num_branch_disjoint cfg columns name est sel c :
  (name, est, sel)
  ∈ prep_transformers
      (_create_preprocessor SHOOTING_STATS random_state cfg columns) →
  name ≠ "num" →
  c ∈ num_cols cfg columns → c ∉ selected sel columns.
Proof.
  intros Hin Hname [Hex Hc]%elem_of_num_cols Hsel.
  apply Hex, elem_of_exclude_cols.
  destruct (elem_of_prep_transformers _ _ _ _ _ Hin)
    as [[-> _]|[[_ ->]|[[_ ->]|[(_ & _ & ->)|(_ & Hb & ->)]]]];
    cbn [selected] in Hsel; [done|auto|auto| |].
  - right; left. revert Hsel. clear. rewrite !elem_of_app. tauto.
  - revert Hsel. rewrite !elem_of_app. intros [?|[?|[?|?]]]; auto 10.
Qed.

Lemma ball_cols_numeric cfg columns c :
  c ∈ ball_cols → c ∈ columns →
  c ∈ num_cols cfg columns ↔ include_ball_features cfg = false.
Proof.
  intros Hb Hc. rewrite elem_of_num_cols, elem_of_exclude_cols.
  assert (Forall (λ c, (c ∉ cat_cols) ∧
                       (c ∉ pos_cols ++ angle_cols ++ velocity_cols
                            ++ goal_cols) ∧
                       (c ∉ key_cols)) ball_cols) as Hall by decide_list.
  rewrite Forall_forall in Hall. destruct (Hall c Hb) as (H1 & H2 & H3).
  destruct (include_ball_features cfg); intuition congruence.
Qed.

(** ** The masking stage *)

Lemma masked_columns_create cfg columns :
  masked_columns (_create_preprocessor SHOOTING_STATS random_state cfg columns)
  = if mask_non_possession_shooting_stats cfg
    then Some (cols_to_mask SHOOTING_STATS cfg) else None.
Proof.
  unfold _create_preprocessor.
  by destruct (mask_non_possession_shooting_stats cfg).
Qed.

Lemma elem_of_cols_to_mask cfg (out_columns : list string) c :
  c ∈ selected (cols_to_mask SHOOTING_STATS cfg) out_columns ↔
  c = "is_possession_team_1" ∨
  (if use_pca_on_roster_cols cfg
   then c ∈ out_columns ∧ String.prefix "pca" c = true
   else c ∈ SHOOTING_STATS).
Proof.
  unfold cols_to_mask. destruct (use_pca_on_roster_cols cfg); simpl.
  - rewrite elem_of_app, list_elem_of_filter, list_elem_of_singleton. tauto.
  - rewrite elem_of_app, list_elem_of_singleton. tauto.
Qed.

End PreprocessorFacts.

Section BuildFacts.
Context {float : Type} `{FloatOps float}.
Variables (X_GOAL_LEFT X_GOAL_RIGHT Y_GOAL : float).
Variables (SHOOTING_STATS : list string) (random_state : Z).
Context {fitted data_list : Type}.
Variables
  (sk_fit : estimator → DataFrame (float:=float) → option fitted)
  (sk_transform : fitted → DataFrame (float:=float)
                  → option (DataFrame (float:=float)))
  (convert : DataFrame (float:=float) → option (data_list * list string)).

Implicit Types (s : build_state (float:=float) (fitted:=fitted)
                      (data_list:=data_list)).

(** ** A completed build, from any state of the processed directory *)

Lemma process_Some cfg raw s s' :
  process X_GOAL_LEFT X_GOAL_RIGHT Y_GOAL SHOOTING_STATS random_state
    sk_fit sk_transform convert cfg raw s = Some (tt, s') →
  ∃ df train val st train_transformed val_transformed train_converted
      val_converted,
    _prepare_dataframe X_GOAL_LEFT X_GOAL_RIGHT Y_GOAL cfg raw = Some df ∧
    _split_by_worldcup_phase df (val_ratio cfg) = Some (train, val) ∧
    sk_fit (_create_preprocessor SHOOTING_STATS random_state cfg
              (frame_columns train)) train = Some st ∧
    sk_transform st train = Some train_transformed ∧
    sk_transform st val = Some val_transformed ∧
    convert train_transformed = Some train_converted ∧
    convert val_transformed = Some val_converted ∧
    saved s' = saved s ++ [("train_data.pt", train_converted.1);
                           ("val_data.pt", val_converted.1)] ∧
    feature_names_file s' = Some train_converted.2.
Proof.
  unfold process, mbind, build_bind, lift, new_preprocessor, fit_transform,
    transform, save, write_feature_names.
  intros Hrun.
  destruct (_prepare_dataframe _ _ _ cfg raw) as [df|] eqn:Hdf;
    simplify_eq/=.
  destruct (_split_by_worldcup_phase df (val_ratio cfg)) as [[train val]|]
    eqn:Hsplit; simplify_eq/=.
  destruct (sk_fit _ train) as [st|] eqn:Hfit; simplify_eq/=.
  destruct (sk_transform st train) as [tt'|] eqn:Htt; simplify_eq/=.
  destruct (sk_transform st val) as [vt|] eqn:Hvt; simplify_eq/=.
  destruct (convert tt') as [tc|] eqn:Htc; simplify_eq/=.
  destruct (convert vt) as [vc|] eqn:Hvc; simplify_eq/=.
  exists df, train, val, st, tt', vt, tc, vc.
  rewrite <-(assoc_L (++)). done.
Qed.

Lemma load_train_val s (l : list (string * data_list)) (a b : data_list) :
  saved s = l ++ [("train_data.pt", a); ("val_data.pt", b)] →
  load "train_data.pt" s = Some a ∧ load "val_data.pt" s = Some b.
Proof.
  intros Hs. unfold load. rewrite Hs, !filter_app.
  split.
  - rewrite (filter_cons (λ f, f.1 = "train_data.pt")).
    rewrite decide_True by done.
    rewrite (filter_cons (λ f, f.1 = "train_data.pt")).
    rewrite decide_False by done.
    rewrite filter_nil. by rewrite last_snoc.
  - rewrite (filter_cons (λ f, f.1 = "val_data.pt")).
    rewrite decide_False by done.
    rewrite (filter_cons (λ f, f.1 = "val_data.pt")).
    rewrite decide_True by done.
    rewrite filter_nil. by rewrite last_snoc.
Qed.

Lemma init_Some split cfg s (a b : data_list) (names : list string) :
  load "train_data.pt" s = Some a → load "val_data.pt" s = Some b →
  feature_names_file s = Some names →
  __init__ split cfg s
  = Some {| data := if bool_decide (split = "train") then a else b;
            feature_names := names;
            ds_transform :=
              if bool_decide (split = "train") && use_augmentations cfg
              then Some [ RandomHorizontalFlip names (1 # 2);
                          RandomVerticalFlip names (1 # 2) ]
              else None |}.
Proof.
  intros Ha Hb Hn. unfold __init__.
  case_bool_decide; simpl; by rewrite ?Ha, ?Hb, Hn.
Qed.

End BuildFacts.

Section PresenceFacts.
Context {float : Type} `{FloatOps float}.
Implicit Types (r : Row (float:=float)) (df : DataFrame (float:=float)).
Variables (X_GOAL_LEFT X_GOAL_RIGHT Y_GOAL : float).

Local Ltac decide_list := apply (bool_decide_unpack _); vm_compute; exact I.

(** ** Columns every derived row has *)

Lemma traces_present c cs df out :
  c ∈ cs → traces cs df out →
  Forall (λ r, is_Some (r !! c)) df → Forall (λ r, is_Some (r !! c)) out.
Proof.
  rewrite !Forall_forall. intros Hc Htr Hdf r' (r & Hr & Hagree)%Htr.
  rewrite (Hagree c Hc). auto.
Qed.

Lemma prepare_dataframe_flags cfg raw out :
  _prepare_dataframe X_GOAL_LEFT X_GOAL_RIGHT Y_GOAL cfg raw = Some out →
  Forall (λ r', is_Some (r' !! "is_ball_carrier")
                ∧ is_Some (r' !! "is_possession_team")) out.
Proof.
  intros Hout.
  assert (Forall (λ r', is_Some (r' !! "is_ball_carrier")) out) as Hcarrier.
  { destruct (prepare_dataframe_stages _ _ _ _ _ _ Hout)
      as (t0 & tv & ta & t1 & t2 & t & t4 & _ & _ & _ & _ & H2 & Ht & H4 & Hg).
    apply (traces_present "is_ball_carrier" ["is_ball_carrier"] t2);
      [by left| |].
    - eapply traces_trans;
        [eapply Forall2_traces, macro_roles_agree_other, Ht; decide_list|].
      eapply traces_trans;
        [eapply possession_attribution_traces, H4; decide_list|].
      eapply assign_goal_traces, Hg. decide_list.
    - apply Forall_forall. intros r2 Hr2.
      by destruct (Forall2_elem_of_r _ _ _ _
                     (derive_player_columns_Some _ _ H2) Hr2)
        as (r1 & _ & _ & Hsome & _). }
  assert (Forall (λ r', is_Some (r' !! "is_possession_team")) out) as Hteam.
  { unfold _prepare_dataframe in Hout.
    destruct (derive_features cfg raw) as [t|] eqn:Ht; simplify_eq/=.
    destruct (possession_attribution t) as [t4|] eqn:H4; simplify_eq/=.
    destruct (derive_features_Some _ _ _ Ht) as (_ & _ & _ & _ & _ & _ & Hhas & _).
    pose proof (possession_attribution_Some _ _ Hhas H4) as Hattr.
    assert (Forall2 (agree_on ["is_possession_team"]) t4 out) as Hkeep.
    { eapply Forall2_impl;
        [eapply (assign_goal_Some _ _ _ ["is_possession_team"]), Hout;
         decide_list|].
      cbv beta. tauto. }
    apply Forall_forall. intros r' Hr'.
    destruct (Forall2_elem_of_r _ _ _ _ (Forall2_compose _ _ _ _ _ Hattr Hkeep)
                Hr')
      as (r & _ & r4 & ((? & ? & b & _ & _ & _ & Hflag) & _) & Hagree).
    rewrite (Hagree "is_possession_team") by (by left). by rewrite Hflag. }
  apply Forall_forall. intros r' Hr'. rewrite Forall_forall in Hcarrier, Hteam.
  auto.
Qed.

Lemma prepare_dataframe_ball_present cfg raw out r' c :
  include_ball_features cfg = true →
  _prepare_dataframe X_GOAL_LEFT X_GOAL_RIGHT Y_GOAL cfg raw = Some out →
  r' ∈ out → c ∈ ball_source_cols → is_Some (r' !! (c +:+ "_ball")).
Proof.
  intros Hball (t0 & tv & ta & t1 & t2 & t & t4 & _ & _ & Ha & H1 & H2 & Ht
                & H4 & Hg)%prepare_dataframe_stages Hr' Hc.
  rewrite Hball in Ha.
  destruct (late_stages_traces X_GOAL_LEFT X_GOAL_RIGHT Y_GOAL cfg
              ((λ c, c +:+ "_ball") <$> ball_source_cols) t1 t2 t t4 out)
    with (r' := r') as (r1 & Hr1 & Hagree); [decide_list|decide_list|done..|].
  apply (filter_player_rows_subset _ _ _ H1) in Hr1.
  destruct (Forall2_elem_of_r _ _ _ _ (attach_ball_features_Some _ _ Ha) Hr1)
    as (rv & _ & Hcells & _).
  rewrite (Hagree (c +:+ "_ball")), (Hcells c Hc); [by eexists|].
  by apply (list_elem_of_fmap_2 (λ c, c +:+ "_ball")).
Qed.

Lemma prepare_dataframe_present cfg raw out r' c :
  _prepare_dataframe X_GOAL_LEFT X_GOAL_RIGHT Y_GOAL cfg raw = Some out →
  r' ∈ out → c ∈ prepare_columns_assigned cfg → is_Some (r' !! c).
Proof.
  intros Hout Hr' Hc.
  destruct (prepare_dataframe_cells _ _ _ _ _ _ _ Hout Hr')
    as (r & Hr & _ & [Htime _] & [Hweight _] & [Hheight _] & _ & Hcos & Hsin
        & [Hsx Hvx] & [Hsy Hvy]).
  destruct (prepare_dataframe_age_cell _ _ _ _ _ _ _ Hout Hr')
    as (? & _ & _ & Hage & _).
  pose proof (prepare_dataframe_flags _ _ _ Hout) as Hflags.
  rewrite Forall_forall in Hflags. destruct (Hflags r' Hr') as [Hcar Hpos].
  destruct (prepare_dataframe_goal _ _ _ _ _ _ Hout) as (t4 & Hgoal).
  destruct (Forall2_elem_of_r _ _ _ _ Hgoal Hr') as (r4 & _ & Hy & _ & Hx).
  assert (is_Some (r' !! "cos") ∧ is_Some (r' !! "sin")) as [Hsc Hss].
  { rewrite Hcos, Hsin. rewrite Hvx in Hsx. rewrite Hvy in Hsy.
    destruct (r !! "velocity"); [|by destruct Hsx].
    simpl in Hsx, Hsy.
    destruct (heading_of f_cos r); [|by destruct Hsx].
    destruct (heading_of f_sin r); [|by destruct Hsy].
    split; by eexists. }
  unfold prepare_columns_assigned in Hc.
  rewrite !elem_of_app in Hc. destruct Hc as [Hc|[Hc|Hc]].
  - rewrite !elem_of_cons, elem_of_nil in Hc.
    destruct Hc as [->|[->|[->|[->|[]]]]]; done.
  - destruct (include_ball_features cfg) eqn:Hball;
      [|by apply elem_of_nil in Hc].
    apply list_elem_of_fmap in Hc as (c0 & -> & Hc0).
    by eapply prepare_dataframe_ball_present.
  - rewrite !elem_of_cons, elem_of_nil in Hc.
    destruct Hc as [->|[->|[->|[->|[->|[->|[->|[->|[]]]]]]]]]; try done.
    destruct Hx as [->| ->]; by eexists.
Qed.

Lemma prepare_dataframe_role_present cfg raw out r' :
  _prepare_dataframe X_GOAL_LEFT X_GOAL_RIGHT Y_GOAL cfg raw = Some out →
  (∀ r, r ∈ raw → is_Some (r !! "playerRole")) →
  r' ∈ out → is_Some (r' !! "playerRole").
Proof.
  intros Hout Hraw Hr'.
  destruct (use_macro_roles cfg) eqn:Hmacro.
  - destruct (prepare_dataframe_stages _ _ _ _ _ _ Hout)
      as (t0 & tv & ta & t1 & t2 & t & t4 & _ & _ & _ & _ & _ & Ht & H4 & Hg).
    rewrite Hmacro in Ht.
    assert (traces ["playerRole"] t out) as Htr.
    { eapply traces_trans;
        [eapply possession_attribution_traces, H4; decide_list|].
      eapply assign_goal_traces, Hg. decide_list. }
    destruct (Htr r' Hr') as (rt & Hrt & Hagree).
    rewrite (Hagree "playerRole") by (by left).
    assert (Forall2 (λ r2 r, is_Some (r !! "playerRole")
                             ∧ r !! "playerRole" = macro_role_expr t2 r2)
              t2 t) as Hassign.
    { eapply with_columns_assigns, Ht; [|by left].
      apply NoDup_singleton. }
    by destruct (Forall2_elem_of_r _ _ _ _ Hassign Hrt)
      as (r2 & _ & Hsome & _).
  - destruct (prepare_dataframe_cells _ _ _ _ _ _ _ Hout Hr')
      as (r & Hr & _ & _ & _ & _ & Hrole & _).
    rewrite Hmacro in Hrole. rewrite Hrole. auto.
Qed.

(** The columns of the branches of the preprocessor other than the
    numeric one, on a derived row. *)
Lemma prepare_dataframe_branch_present
    (SHOOTING_STATS : list string) (random_state : Z)
    cfg raw out (columns : list string) name est sel c r' :
  _prepare_dataframe X_GOAL_LEFT X_GOAL_RIGHT Y_GOAL cfg raw = Some out →
  (∀ r k, r ∈ raw → k ∈ ["x"; "y"; "playerRole"] → is_Some (r !! k)) →
  (name, est, sel)
  ∈ prep_transformers
      (_create_preprocessor SHOOTING_STATS random_state cfg columns) →
  name ≠ "num" →
  c ∈ selected sel columns → r' ∈ out → is_Some (r' !! c).
Proof.
  intros Hout Hraw Hin Hname Hc Hr'.
  assert (∀ k, k ∈ prepare_columns_assigned cfg → is_Some (r' !! k)) as Hassigned
    by (intros k; by eapply prepare_dataframe_present).
  assert (is_Some (r' !! "playerRole")) as Hrole.
  { eapply prepare_dataframe_role_present; [exact Hout| |exact Hr'].
    intros r Hr. apply Hraw; [done|]. rewrite !elem_of_cons. auto. }
  assert (is_Some (r' !! "possessionEventType")) as Hevent.
  { destruct (prepare_dataframe_player_rows _ _ _ _ _ _ _ Hout Hr')
      as (r & _ & Hagree & _ & _ & s & Hs & _).
    rewrite (Hagree "possessionEventType"), Hs; [by eexists|].
    rewrite !elem_of_cons. auto. }
  assert (∀ k, k ∈ pos_cols → is_Some (r' !! k)) as Hpos.
  { intros k Hk.
    assert (Forall (λ c, c ∉ prepare_columns_written cfg) [k]) as Hk'.
    { constructor; [|constructor]. revert Hk. clear.
      unfold pos_cols. rewrite !elem_of_cons, elem_of_nil.
      intros [->|[->|[]]]; destruct cfg as [? [] ? ? ? ? ? ?]; decide_list. }
    destruct (prepare_dataframe_passthrough X_GOAL_LEFT X_GOAL_RIGHT Y_GOAL
                cfg [k] raw out Hk' Hout r' Hr') as (r & Hr & Hagree).
    rewrite (Hagree k) by (by left). apply Hraw; [done|].
    revert Hk. clear. unfold pos_cols.
    rewrite !elem_of_cons, !elem_of_nil. tauto. }
  assert (∀ k, k ∈ cat_cols ++ angle_cols ++ velocity_cols ++ goal_cols →
               is_Some (r' !! k)) as Hfixed.
  { intros k Hk.
    destruct (decide (k = "playerRole")) as [->|?]; [done|].
    destruct (decide (k = "possessionEventType")) as [->|?]; [done|].
    apply Hassigned. unfold prepare_columns_assigned.
    revert Hk. clear -n n0.
    unfold cat_cols, angle_cols, velocity_cols, goal_cols.
    rewrite !elem_of_app, !elem_of_cons, !elem_of_nil. intuition. }
  destruct (elem_of_prep_transformers _ _ _ _ _ _ _ Hin)
    as [[-> _]|[[_ ->]|[[_ ->]|[(_ & _ & ->)|(_ & Hb & ->)]]]];
    cbn [selected] in Hc; [done|..].
  - apply Hfixed. rewrite !elem_of_app. auto.
  - revert Hc. rewrite !elem_of_app. intros [?|[?|[?|?]]]; auto;
      apply Hfixed; rewrite !elem_of_app; auto.
  - revert Hc. rewrite !elem_of_app. intros [?|?]; auto;
      apply Hfixed; rewrite !elem_of_app; auto.
  - revert Hc. rewrite !elem_of_app. intros [?|[?|[?|Hball]]]; auto;
      try (apply Hfixed; rewrite !elem_of_app; by auto).
    apply Hassigned. unfold prepare_columns_assigned. rewrite Hb.
    revert Hball. clear. revert c. apply Forall_forall. decide_list.
Qed.

End PresenceFacts.

(** ** The feature deriver, end to end *)

(** X1. A column that no stage of the feature deriver writes or drops
    passes through: every row of the derived table comes from a raw row
    with the same cells in all such columns. *)
Theorem prepare_keeps_other_columns {float : Type} `{FloatOps float}
    (X_GOAL_LEFT X_GOAL_RIGHT Y_GOAL : float) (cfg : DataConfig)
    (cs : list string) (raw out : DataFrame (float:=float)) :
  Forall (λ c, c ∉ prepare_columns_written cfg) cs →
  _prepare_dataframe X_GOAL_LEFT X_GOAL_RIGHT Y_GOAL cfg raw = Some out →
  ∀ r', r' ∈ out → ∃ r, r ∈ raw ∧ ∀ c, c ∈ cs → r' !! c = r !! c.
Proof.
  intros Hcs Hout.
  exact (prepare_dataframe_passthrough _ _ _ _ _ _ _ Hcs Hout).
Qed.

Lemma prepare_keeps_other_columns_witness :
  ∃ out,
    event_features = Some out ∧
    ∀ r', r' ∈ out →
          ∃ r, r ∈ event_table
               ∧ ∀ c, c ∈ ["gameId"; "x"; "y"] → r' !! c = r !! c.
Proof.
  assert (length <$> event_features = Some 2%nat) as Hlen
    by (vm_compute; reflexivity).
  destruct event_features as [out|] eqn:Hout; [|discriminate].
  exists out. split; [reflexivity|].
  unfold event_features in Hout.
  refine (prepare_keeps_other_columns _ _ _ example_cfg _ _ _ _ Hout).
  apply (bool_decide_unpack _). vm_compute. exact I.
Defined.

(** X2. The derived table holds player rows of events that are not
    shots: every row comes from a raw row of the same match and event
    that has a team, a player name, and an event type other than "SH". *)
Theorem prepare_keeps_player_rows {float : Type} `{FloatOps float}
    (X_GOAL_LEFT X_GOAL_RIGHT Y_GOAL : float) (cfg : DataConfig)
    (raw out : DataFrame (float:=float)) :
  _prepare_dataframe X_GOAL_LEFT X_GOAL_RIGHT Y_GOAL cfg raw = Some out →
  ∀ r', r' ∈ out →
    ∃ r,
      r ∈ raw ∧
      agree_on ["gameId"; "gameEventId"; "possessionEventId";
                "possessionEventType"] r r' ∧
      has_team r ∧
      (∃ n, r !! "playerName" = Some n ∧ n ≠ VNull) ∧
      (∃ s, r !! "possessionEventType" = Some (VStr s) ∧ s ≠ "SH").
Proof.
  intros Hout r' Hr'.
  exact (prepare_dataframe_player_rows _ _ _ _ _ _ _ Hout Hr').
Qed.

Lemma prepare_keeps_player_rows_witness :
  ∃ out,
    event_features = Some out ∧
    ∀ r', r' ∈ out → ∃ r, r ∈ event_table ∧ has_team r.
Proof.
  assert (length <$> event_features = Some 2%nat) as Hlen
    by (vm_compute; reflexivity).
  destruct event_features as [out|] eqn:Hout; [|discriminate].
  exists out. split; [reflexivity|].
  unfold event_features in Hout. intros r' Hr'.
  destruct (prepare_keeps_player_rows _ _ _ _ _ _ Hout r' Hr')
    as (r & Hr & _ & Hteam & _).
  exists r. split; [exact Hr|exact Hteam].
Defined.

(** X3. The columns the feature deriver drops are gone from every row of
    the derived table: the sixteen columns dropped first, the speed and
    the heading, the raw ball height when ball features are on, the two
    player names, the temporary possession team, the team, the kickoff
    side and the start of the second half. *)
Theorem prepare_drops_columns {float : Type} `{FloatOps float}
    (X_GOAL_LEFT X_GOAL_RIGHT Y_GOAL : float) (cfg : DataConfig)
    (raw out : DataFrame (float:=float)) (c : string) :
  c ∈ prepare_columns_dropped cfg →
  _prepare_dataframe X_GOAL_LEFT X_GOAL_RIGHT Y_GOAL cfg raw = Some out →
  ∀ r', r' ∈ out → r' !! c = None.
Proof.
  intros Hc Hout. apply Forall_forall.
  exact (prepare_dataframe_dropped _ _ _ _ _ _ _ Hc Hout).
Qed.

Lemma prepare_drops_columns_witness :
  ∃ out,
    event_features = Some out ∧
    ∀ r', r' ∈ out → r' !! "team" = None.
Proof.
  assert (length <$> event_features = Some 2%nat) as Hlen
    by (vm_compute; reflexivity).
  destruct event_features as [out|] eqn:Hout; [|discriminate].
  exists out. split; [reflexivity|].
  unfold event_features in Hout.
  refine (prepare_drops_columns _ _ _ example_cfg _ _ "team" _ Hout).
  apply (bool_decide_unpack _). vm_compute. exact I.
Defined.

(** X4. The feature deriver raises when a row of the raw table lacks one
    of the columns it drops first, the speed or the heading. *)
Theorem prepare_requires_columns {float : Type} `{FloatOps float}
    (X_GOAL_LEFT X_GOAL_RIGHT Y_GOAL : float) (cfg : DataConfig)
    (raw : DataFrame (float:=float)) (r : Row (float:=float)) (c : string) :
  r ∈ raw →
  c ∈ cols_to_drop ++ ["velocity"; "direction"] →
  r !! c = None →
  _prepare_dataframe X_GOAL_LEFT X_GOAL_RIGHT Y_GOAL cfg raw = None.
Proof.
  intros Hr Hc Hnone.
  destruct (_prepare_dataframe _ _ _ cfg raw) as [out|] eqn:Hout; [|done].
  destruct (prepare_dataframe_needs _ _ _ _ _ _ _ _ Hout Hr Hc) as [v Hv].
  congruence.
Qed.

Lemma prepare_requires_columns_witness :
  _prepare_dataframe (FLit 0) (FLit 105) (FLit 34) example_cfg
    raw_without_video = None.
Proof.
  apply (prepare_requires_columns _ _ _ example_cfg raw_without_video
           (delete "videoUrl"
              (raw_row 1 (VStr "home") (VStr "Ann") (VStr "Ann") 48 29 0 19))
           "videoUrl").
  - apply list_elem_of_singleton. reflexivity.
  - apply (bool_decide_unpack _). vm_compute. exact I.
  - vm_compute. reflexivity.
Defined.

(** X5. On every row of the derived table [cos] and [sin] are the cosine
    and sine of the raw heading in radians, and [vx] and [vy] the raw
    speed times them; a null heading or speed gives null components, and
    the raw speed and heading columns are gone. *)
Theorem velocity_components {float : Type} `{FloatOps float}
    (X_GOAL_LEFT X_GOAL_RIGHT Y_GOAL : float) (cfg : DataConfig)
    (raw out : DataFrame (float:=float)) :
  _prepare_dataframe X_GOAL_LEFT X_GOAL_RIGHT Y_GOAL cfg raw = Some out →
  ∀ r', r' ∈ out →
    ∃ r,
      r ∈ raw ∧
      agree_on ["gameId"; "gameEventId"; "possessionEventId"] r r' ∧
      r' !! "cos" = heading_of f_cos r ∧
      r' !! "sin" = heading_of f_sin r ∧
      r' !! "vx" = (v ← r !! "velocity"; c ← heading_of f_cos r;
                    value_mul v c) ∧
      r' !! "vy" = (v ← r !! "velocity"; c ← heading_of f_sin r;
                    value_mul v c) ∧
      (∀ d v : float,
         r !! "direction" = Some (VFloat d) →
         r !! "velocity" = Some (VFloat v) →
         r' !! "vx" = Some (VFloat (f_mul v (f_cos (f_radians d)))) ∧
         r' !! "vy" = Some (VFloat (f_mul v (f_sin (f_radians d))))) ∧
      (r !! "direction" = Some VNull ∨ r !! "velocity" = Some VNull →
       r' !! "vx" = Some VNull ∧ r' !! "vy" = Some VNull) ∧
      r' !! "velocity" = None ∧ r' !! "direction" = None.
Proof.
  intros Hout r' Hr'.
  destruct (prepare_dataframe_cells _ _ _ _ _ _ _ Hout Hr')
    as (r & Hr & Hkeys & _ & _ & _ & _ & Hcos & Hsin & [Hsx Hvx] & [Hsy Hvy]).
  assert (∀ c, c ∈ ["velocity"; "direction"] → r' !! c = None) as Hgone.
  { intros c Hc.
    assert (c ∈ prepare_columns_dropped cfg) as Hd.
    { unfold prepare_columns_dropped. rewrite !elem_of_app. auto. }
    pose proof (prepare_dataframe_dropped _ _ _ _ _ _ _ Hd Hout) as Habs.
    unfold absent in Habs. rewrite Forall_forall in Habs. auto. }
  exists r. do 6 (split; [done|]). split; [|split].
  - intros d v Hd Hv. rewrite Hvx, Hvy. unfold heading_of.
    rewrite Hd, Hv. done.
  - intros Hnull. rewrite Hvx in Hsx. rewrite Hvy in Hsy.
    rewrite Hvx, Hvy. clear Hvx Hvy Hcos Hsin.
    unfold heading_of in *.
    destruct (r !! "velocity") as [v|]; [|by destruct Hsx].
    destruct (r !! "direction") as [d|]; [|by destruct Hsx].
    destruct Hnull as [[= ->]|[= ->]]; simpl.
    + by destruct v.
    + simpl in Hsx, Hsy.
      destruct (float_unop f_radians d ≫= float_unop f_cos); [|by destruct Hsx].
      destruct (float_unop f_radians d ≫= float_unop f_sin); [|by destruct Hsy].
      done.
  - split; apply Hgone; rewrite !elem_of_cons; auto.
Qed.

Lemma velocity_components_witness :
  ∃ out,
    event_features = Some out ∧
    ∀ r', r' ∈ out →
          r' !! "vx"
          = Some (VFloat (FMul (FLit 2) (FCos (FRadians (FLit 90))))).
Proof.
  assert (length <$> event_features = Some 2%nat) as Hlen
    by (vm_compute; reflexivity).
  destruct event_features as [out|] eqn:Hout; [|discriminate].
  exists out. split; [reflexivity|].
  unfold event_features in Hout. intros r' Hr'.
  destruct (velocity_components _ _ _ _ _ _ Hout r' Hr')
    as (r & Hr & _ & _ & _ & _ & _ & Hfloat & _).
  refine (proj1 (Hfloat (FLit 90) (FLit 2) _ _));
    unfold event_table, event_of in Hr;
    rewrite !elem_of_cons, elem_of_nil in Hr;
    destruct Hr as [->|[->|[->|[]]]]; vm_compute; reflexivity.
Defined.

(** X6. On every row of the derived table [frameTime] is the raw
    "mm:ss" stamp in seconds: for digit strings [a] and [b] that read as
    [m] and [s] with [60 * m + s] within 16 bits, the stamp [a:b] becomes
    [60 * m + s]; a null stamp stays null. *)
Theorem frame_time_seconds {float : Type} `{FloatOps float}
    (X_GOAL_LEFT X_GOAL_RIGHT Y_GOAL : float) (cfg : DataConfig)
    (raw out : DataFrame (float:=float)) :
  _prepare_dataframe X_GOAL_LEFT X_GOAL_RIGHT Y_GOAL cfg raw = Some out →
  ∀ r', r' ∈ out →
    ∃ r,
      r ∈ raw ∧
      agree_on ["gameId"; "gameEventId"; "possessionEventId"] r r' ∧
      r' !! "frameTime" = frame_time_expr raw r ∧
      (∀ (a b : string) (m s : Z),
         r !! "frameTime" = Some (VStr (a +:+ ":" +:+ b)) →
         parse_digits a 0 = Some m → a ≠ "" →
         parse_digits b 0 = Some s → b ≠ "" →
         60 * m + s ≤ 65535 →
         r' !! "frameTime" = Some (VInt (60 * m + s))) ∧
      (r !! "frameTime" = Some VNull → r' !! "frameTime" = Some VNull).
Proof.
  intros Hout r' Hr'.
  destruct (prepare_dataframe_cells _ _ _ _ _ _ _ Hout Hr')
    as (r & Hr & Hkeys & [_ Htime] & _).
  exists r. do 3 (split; [done|]). split.
  - intros a b m s Hcell Ha Hane Hb Hbne Hle. rewrite Htime.
    by apply (frame_time_expr_digits _ _ a b).
  - intros Hnull. rewrite Htime.
    unfold frame_time_expr, map_expr, col. by rewrite Hnull.
Qed.

Lemma frame_time_seconds_witness :
  ∃ out,
    event_features = Some out ∧
    ∀ r', r' ∈ out → r' !! "frameTime" = Some (VInt 750).
Proof.
  assert (length <$> event_features = Some 2%nat) as Hlen
    by (vm_compute; reflexivity).
  destruct event_features as [out|] eqn:Hout; [|discriminate].
  exists out. split; [reflexivity|].
  unfold event_features in Hout. intros r' Hr'.
  destruct (frame_time_seconds _ _ _ _ _ _ Hout r' Hr')
    as (r & Hr & _ & _ & Hdigits & _).
  unfold event_table, event_of in Hr.
  rewrite !elem_of_cons, elem_of_nil in Hr.
  destruct Hr as [->|[->|[->|[]]]];
    refine (Hdigits "12" "30" 12 30 _ _ _ _ _ _);
    try (vm_compute; reflexivity); try discriminate; lia.
Defined.

(** X7. On every row of the derived table [Weight] is the raw weight
    with its first "kg" removed, cast to a float, and [height_cm] the raw
    height cast to a float: a weight "NNkg" becomes the number NN, which
    must parse, an integer height becomes that number, and nulls stay
    null. *)
Theorem weight_and_height_cells {float : Type} `{FloatOps float}
    (X_GOAL_LEFT X_GOAL_RIGHT Y_GOAL : float) (cfg : DataConfig)
    (raw out : DataFrame (float:=float)) :
  _prepare_dataframe X_GOAL_LEFT X_GOAL_RIGHT Y_GOAL cfg raw = Some out →
  ∀ r', r' ∈ out →
    ∃ r,
      r ∈ raw ∧
      agree_on ["gameId"; "gameEventId"; "possessionEventId"] r r' ∧
      r' !! "Weight"
      = (r !! "Weight" ≫= str_replace "kg" "") ≫= cast_float64 ∧
      r' !! "height_cm" = r !! "height_cm" ≫= cast_float64 ∧
      (∀ s : string,
         r !! "Weight" = Some (VStr (s +:+ "kg")) →
         has_char "k"%char s = false →
         ∃ x, f_of_string s = Some x ∧ r' !! "Weight" = Some (VFloat x)) ∧
      (r !! "Weight" = Some VNull → r' !! "Weight" = Some VNull) ∧
      (∀ z : Z, r !! "height_cm" = Some (VInt z) →
                r' !! "height_cm" = Some (VFloat (f_of_Z z))) ∧
      (r !! "height_cm" = Some VNull → r' !! "height_cm" = Some VNull).
Proof.
  intros Hout r' Hr'.
  destruct (prepare_dataframe_cells _ _ _ _ _ _ _ Hout Hr')
    as (r & Hr & Hkeys & _ & [Hsw Hweight] & [_ Hheight] & _).
  exists r. do 4 (split; [done|]). split; [|split; [|split]].
  - intros s Hcell Hs. rewrite Hweight in Hsw |- *. rewrite Hcell in Hsw |- *.
    rewrite weight_cell_kg in Hsw |- * by done.
    destruct (f_of_string s) as [x|]; [eauto|by destruct Hsw].
  - intros Hnull. by rewrite Hweight, Hnull.
  - intros z Hz. by rewrite Hheight, Hz.
  - intros Hnull. by rewrite Hheight, Hnull.
Qed.

Lemma weight_and_height_cells_witness :
  ∃ out,
    event_features = Some out ∧
    ∀ r', r' ∈ out →
          r' !! "Weight" = Some (VFloat (FLit 70))
          ∧ r' !! "height_cm" = Some (VFloat (FLit 180)).
Proof.
  assert (length <$> event_features = Some 2%nat) as Hlen
    by (vm_compute; reflexivity).
  destruct event_features as [out|] eqn:Hout; [|discriminate].
  exists out. split; [reflexivity|].
  unfold event_features in Hout. intros r' Hr'.
  destruct (weight_and_height_cells _ _ _ _ _ _ Hout r' Hr')
    as (r & Hr & _ & _ & _ & Hkg & _ & Hcm & _).
  unfold event_table, event_of in Hr.
  rewrite !elem_of_cons, elem_of_nil in Hr.
  split.
  - destruct (Hkg "70") as (x & Hx & ->).
    + destruct Hr as [->|[->|[->|[]]]]; vm_compute; reflexivity.
    + reflexivity.
    + vm_compute in Hx. by injection Hx as <-.
  - apply (Hcm 180).
    destruct Hr as [->|[->|[->|[]]]]; vm_compute; reflexivity.
Defined.

(** X8. On every row of the derived table [age] is one of the four
    bands "Under 20", "20-28", "29-35" and "35+", computed from the raw
    age; a null raw age falls through every comparison and lands in
    "35+". *)
Theorem age_band_total {float : Type} `{FloatOps float}
    (X_GOAL_LEFT X_GOAL_RIGHT Y_GOAL : float) (cfg : DataConfig)
    (raw out : DataFrame (float:=float)) :
  _prepare_dataframe X_GOAL_LEFT X_GOAL_RIGHT Y_GOAL cfg raw = Some out →
  ∀ r', r' ∈ out →
    ∃ r,
      r ∈ raw ∧
      agree_on ["gameId"; "gameEventId"; "possessionEventId"] r r' ∧
      r' !! "age" = age_expr raw r ∧
      (∃ s, r' !! "age" = Some (VStr s) ∧ s ∈ age_bands) ∧
      (r !! "age" = Some VNull → r' !! "age" = Some (VStr "35+")).
Proof.
  intros Hout r' Hr'.
  destruct (prepare_dataframe_age_cell _ _ _ _ _ _ _ Hout Hr')
    as (r & Hr & Hkeys & [v Hv] & Hage).
  exists r. do 3 (split; [done|]). split.
  - rewrite Hv in Hage. symmetry in Hage.
    destruct (age_expr_band _ _ _ Hage) as (s & -> & Hs). eauto.
  - intros Hnull. rewrite Hage. by apply age_expr_null.
Qed.

Lemma age_band_total_witness :
  ∃ out,
    event_features = Some out ∧
    ∀ r', r' ∈ out → ∃ s, r' !! "age" = Some (VStr s) ∧ s ∈ age_bands.
Proof.
  assert (length <$> event_features = Some 2%nat) as Hlen
    by (vm_compute; reflexivity).
  destruct event_features as [out|] eqn:Hout; [|discriminate].
  exists out. split; [reflexivity|].
  unfold event_features in Hout. intros r' Hr'.
  destruct (age_band_total _ _ _ _ _ _ Hout r' Hr')
    as (r & _ & _ & _ & Hband & _).
  exact Hband.
Defined.

(** X9. With macro roles on, the role of every row of the derived table
    is the macro role of the raw role: "M" for the six midfield codes, "D"
    for the six defence codes, "F" for the three forward codes, any other
    role unchanged and null kept; so no row carries one of the fifteen
    detailed codes, and mapping twice changes nothing. With macro roles
    off, the role is the raw role. *)
Theorem macro_roles_coarse {float : Type} `{FloatOps float}
    (X_GOAL_LEFT X_GOAL_RIGHT Y_GOAL : float) (cfg : DataConfig)
    (raw out : DataFrame (float:=float)) :
  _prepare_dataframe X_GOAL_LEFT X_GOAL_RIGHT Y_GOAL cfg raw = Some out →
  ∀ r', r' ∈ out →
    ∃ r,
      r ∈ raw ∧
      agree_on ["gameId"; "gameEventId"; "possessionEventId"] r r' ∧
      (use_macro_roles cfg = false → r' !! "playerRole" = r !! "playerRole") ∧
      (use_macro_roles cfg = true →
       (∀ s, r !! "playerRole" = Some (VStr s) →
             r' !! "playerRole" = Some (VStr (macro_role s))) ∧
       (r !! "playerRole" = Some VNull → r' !! "playerRole" = Some VNull) ∧
       (∀ s', r' !! "playerRole" = Some (VStr s') →
              (s' ∉ midfield_roles ++ defense_roles ++ forward_roles)
              ∧ macro_role s' = s')).
Proof.
  intros Hout r' Hr'.
  destruct (prepare_dataframe_cells _ _ _ _ _ _ _ Hout Hr')
    as (r & Hr & Hkeys & _ & _ & _ & Hrole & _).
  exists r. do 2 (split; [done|]). split.
  - intros Hoff. by rewrite Hoff in Hrole.
  - intros Hon. rewrite Hon in Hrole. split; [|split].
    + intros s Hs. rewrite Hrole. by apply macro_role_expr_str.
    + intros Hnull. rewrite Hrole. by apply macro_role_expr_null.
    + intros s' Hs'. rewrite Hs' in Hrole. symmetry in Hrole.
      destruct (macro_role_expr_Some _ _ _ Hrole) as [?|(s & _ & [= ->])];
        [done|].
      split; [apply macro_role_coarse|apply macro_role_idemp].
Qed.

Lemma macro_roles_coarse_witness :
  use_macro_roles example_cfg = true ∧
  ∃ out,
    event_features = Some out ∧
    ∀ r', r' ∈ out → r' !! "playerRole" = Some (VStr "M").
Proof.
  split; [reflexivity|].
  assert (length <$> event_features = Some 2%nat) as Hlen
    by (vm_compute; reflexivity).
  destruct event_features as [out|] eqn:Hout; [|discriminate].
  exists out. split; [reflexivity|].
  unfold event_features in Hout. intros r' Hr'.
  destruct (macro_roles_coarse _ _ _ _ _ _ Hout r' Hr')
    as (r & Hr & _ & _ & Hon).
  destruct (Hon eq_refl) as (Hstr & _).
  apply (Hstr "CM").
  unfold event_table, event_of in Hr.
  rewrite !elem_of_cons, elem_of_nil in Hr.
  destruct Hr as [->|[->|[->|[]]]]; vm_compute; reflexivity.
Defined.

(** X10. When the kickoff side or the start of the second half of the
    raw row is null, no attacking combination holds and the row gets the
    left goal. *)
Theorem goal_defaults_left {float : Type} `{FloatOps float}
    (X_GOAL_LEFT X_GOAL_RIGHT Y_GOAL : float) (cfg : DataConfig)
    (raw out : DataFrame (float:=float)) :
  _prepare_dataframe X_GOAL_LEFT X_GOAL_RIGHT Y_GOAL cfg raw = Some out →
  ∀ r', r' ∈ out →
    ∃ r,
      r ∈ raw ∧
      agree_on ["gameId"; "gameEventId"; "possessionEventId"] r r' ∧
      (r !! "homeTeamStartLeft" = Some VNull
       ∨ r !! "startPeriod2" = Some VNull →
       r' !! "x_goal" = Some (VFloat X_GOAL_LEFT)).
Proof.
  intros Hout r' Hr'.
  exact (prepare_dataframe_goal_side _ _ _ _ _ _ _ Hout Hr').
Qed.

Lemma goal_defaults_left_witness :
  ∃ out,
    unknown_side_features = Some out ∧
    ∀ r', r' ∈ out → r' !! "x_goal" = Some (VFloat (FLit 0)).
Proof.
  assert (length <$> unknown_side_features = Some 1%nat) as Hlen
    by (vm_compute; reflexivity).
  destruct unknown_side_features as [out|] eqn:Hout; [|discriminate].
  exists out. split; [reflexivity|].
  unfold unknown_side_features in Hout. intros r' Hr'.
  destruct (goal_defaults_left _ _ _ _ _ _ Hout r' Hr')
    as (r & Hr & _ & Hleft).
  apply Hleft. left.
  unfold raw_unknown_side in Hr. apply list_elem_of_singleton in Hr as ->.
  vm_compute. reflexivity.
Defined.

(** ** The phase-aware split, further *)

(** X11. The split only selects rows: each partition is a sub-list of
    the input in its order; a row whose match identifier is null is in
    neither partition, every other row is in one of them, and the two
    partitions together have as many rows as the input has rows with a
    match identifier. *)
Theorem split_selects_rows {float : Type} `{FloatOps float}
    (df train val : DataFrame (float:=float)) (ratio : pyfloat) :
  _split_by_worldcup_phase df ratio = Some (train, val) →
  train `sublist_of` df ∧ val `sublist_of` df ∧
  (∀ r, r ∈ df → r !! "gameId" = Some VNull → (r ∉ train) ∧ (r ∉ val)) ∧
  (∀ r g, r ∈ df → r !! "gameId" = Some g → g ≠ VNull →
          r ∈ train ∨ r ∈ val) ∧
  (length train + length val)%nat = length (game_ids_of df).
Proof. apply split_rows. Qed.

Lemma split_selects_rows_witness :
  ∃ train val,
    _split_by_worldcup_phase two_matches float_0_5 = Some (train, val) ∧
    train `sublist_of` two_matches ∧
    (length train + length val)%nat = 4%nat.
Proof.
  destruct (split_returns two_matches float_0_5
              [VInt 2; VInt 1; VInt 1; VInt 2] 1)
    as (train & val & Hsplit & _);
    [vm_compute; reflexivity|vm_compute; reflexivity|vm_compute; discriminate|].
  exists train, val. split; [exact Hsplit|].
  destruct (split_selects_rows _ _ _ _ Hsplit) as (Htr & _ & _ & _ & Hlen).
  split; [exact Htr|]. rewrite Hlen. vm_compute. reflexivity.
Defined.

(** X12. With integer match identifiers the training matches come first:
    every match identifier of the training partition is smaller than
    every match identifier of the validation partition. *)
Theorem split_train_before_val {float : Type} `{FloatOps float}
    (df train val : DataFrame (float:=float)) (ratio : pyfloat) :
  (∀ r v, r ∈ df → r !! "gameId" = Some v → is_int_cell v) →
  _split_by_worldcup_phase df ratio = Some (train, val) →
  ∀ a b : Z,
    VInt a ∈ game_ids_of train → VInt b ∈ game_ids_of val → a < b.
Proof. apply split_ordered. Qed.

Lemma split_train_before_val_witness :
  ∃ train val,
    _split_by_worldcup_phase five_matches float_0_25 = Some (train, val) ∧
    ∀ a b : Z,
      VInt a ∈ game_ids_of train → VInt b ∈ game_ids_of val → a < b.
Proof.
  destruct (split_returns five_matches float_0_25
              [VInt 1; VInt 2; VInt 3; VInt 4; VInt 5] 3)
    as (train & val & Hsplit & _);
    [vm_compute; reflexivity|vm_compute; reflexivity|vm_compute; discriminate|].
  exists train, val. split; [exact Hsplit|].
  refine (split_train_before_val _ _ _ _ _ Hsplit).
  intros r v Hr Hv. unfold five_matches in Hr.
  rewrite !elem_of_cons, elem_of_nil in Hr.
  destruct Hr as [->|[->|[->|[->|[->|[]]]]]]; vm_compute in Hv;
    injection Hv as <-; exact I.
Defined.

(** X13. For a ratio of at most 1 and no null match identifier, the
    count [k = int ((1.0 - ratio) * n)] on the [n] distinct matches of the
    input is not negative, the training partition holds [min k n] of
    them and the validation partition the other [n - k]. The product is a
    float product: for 64 matches and a ratio of 0.25 the count is 48, for
    10 matches and a ratio of 0.9 it is 0. *)
Theorem split_match_counts {float : Type} `{FloatOps float}
    (df train val : DataFrame (float:=float)) (ratio : pyfloat) :
  is_float ratio →
  py_le ratio float_1_0 = true →
  (∀ r, r ∈ df → r !! "gameId" ≠ Some VNull) →
  _split_by_worldcup_phase df ratio = Some (train, val) →
  let n := length (remove_dups (game_ids_of df)) in
  ∃ k : Z,
    n_train_games_of ratio (Z.of_nat n) = Some k ∧
    0 ≤ k ∧
    length (remove_dups (game_ids_of train)) = (Z.to_nat k `min` n)%nat ∧
    length (remove_dups (game_ids_of val)) = (n - Z.to_nat k)%nat ∧
    (n = 64%nat → ratio = float_0_25 → k = 48) ∧
    (n = 10%nat → ratio = float_0_9 → k = 0).
Proof.
  intros Hfloat Hle Hnn Hsplit n.
  destruct (split_counts _ _ _ _ Hfloat Hle Hnn Hsplit)
    as (k & Hk & Hk0 & Htr & Hva).
  exists k. do 4 (split; [done|]). fold n in Hk.
  split; intros Hn ->; rewrite Hn in Hk; vm_compute in Hk; congruence.
Qed.

Lemma split_match_counts_witness :
  ∃ train val,
    _split_by_worldcup_phase five_matches float_0_25 = Some (train, val) ∧
    length (remove_dups (game_ids_of train)) = 3%nat ∧
    length (remove_dups (game_ids_of val)) = 2%nat.
Proof.
  destruct (split_returns five_matches float_0_25
              [VInt 1; VInt 2; VInt 3; VInt 4; VInt 5] 3)
    as (train & val & Hsplit & _);
    [vm_compute; reflexivity|vm_compute; reflexivity|vm_compute; discriminate|].
  exists train, val. split; [exact Hsplit|].
  destruct (split_match_counts five_matches train val float_0_25)
    as (k & Hk & _ & Htr & Hva & _).
  - reflexivity.
  - reflexivity.
  - intros r Hr. unfold five_matches in Hr.
    rewrite !elem_of_cons, elem_of_nil in Hr.
    destruct Hr as [->|[->|[->|[->|[->|[]]]]]]; vm_compute; discriminate.
  - exact Hsplit.
  - assert (k = 3) as ->.
    { vm_compute in Hk. by injection Hk as <-. }
    split; [rewrite Htr|rewrite Hva]; vm_compute; reflexivity.
Defined.

(** ** The preprocessor, further *)

(** X14. Of the columns of the frame, exactly the keys and the label
    ([gameEventId], [possessionEventId], [label], [gameId], [chain_id],
    [jerseyNum]) are given to no branch of the column transformer, whatever
    the configuration: they are what its pass-through remainder carries. *)
Theorem passthrough_columns_are_keys
    (SHOOTING_STATS : list string) (random_state : Z)
    (cfg : DataConfig) (columns : list string) (c : string) :
  c ∈ columns →
  c ∈ key_cols ↔
  ∀ name est sel,
    (name, est, sel)
    ∈ prep_transformers
        (_create_preprocessor SHOOTING_STATS random_state cfg columns) →
    c ∉ selected sel columns.
Proof.
  intros Hc. split.
  - intros Hkey name est sel. by apply key_cols_in_no_branch.
  - intros Hnone. destruct (decide (c ∈ key_cols)) as [|Hkey]; [done|].
    destruct (other_cols_in_a_branch SHOOTING_STATS random_state cfg
                columns c Hc Hkey) as (name & est & sel & Hin & Hsel).
    by destruct (Hnone name est sel Hin).
Qed.

Lemma passthrough_columns_are_keys_witness :
  "gameId" ∈ ["gameId"; "x"; "Weight"] ∧
  ∀ name est sel,
    (name, est, sel)
    ∈ prep_transformers
        (_create_preprocessor [] 0 example_cfg ["gameId"; "x"; "Weight"]) →
    "gameId" ∉ selected sel ["gameId"; "x"; "Weight"].
Proof.
  assert ("gameId" ∈ ["gameId"; "x"; "Weight"]) as Hin
    by (apply (bool_decide_unpack _); vm_compute; exact I).
  split; [exact Hin|].
  apply (passthrough_columns_are_keys [] 0 example_cfg
           ["gameId"; "x"; "Weight"] "gameId" Hin).
  apply (bool_decide_unpack _). vm_compute. exact I.
Defined.

(** X15. The numeric branch shares no column with any other branch of
    the column transformer: what it scales is not encoded, located or
    paired with the ball elsewhere. *)
Theorem numeric_branch_disjoint
    (SHOOTING_STATS : list string) (random_state : Z)
    (cfg : DataConfig) (columns : list string)
    (name : string) (est : estimator) (sel : column_selector) (c : string) :
  (name, est, sel)
  ∈ prep_transformers
      (_create_preprocessor SHOOTING_STATS random_state cfg columns) →
  name ≠ "num" →
  c ∈ num_cols cfg columns →
  c ∉ selected sel columns.
Proof. apply num_branch_disjoint. Qed.

Lemma numeric_branch_disjoint_witness :
  "Weight" ∈ num_cols example_cfg ["gameId"; "x"; "Weight"] ∧
  "Weight" ∉ selected (Cols cat_cols) ["gameId"; "x"; "Weight"].
Proof.
  assert ("Weight" ∈ num_cols example_cfg ["gameId"; "x"; "Weight"]) as Hnum
    by (apply (bool_decide_unpack _); vm_compute; exact I).
  split; [exact Hnum|].
  apply (numeric_branch_disjoint [] 0 example_cfg ["gameId"; "x"; "Weight"]
           "cat" cat_pipe (Cols cat_cols) "Weight").
  - rewrite prep_transformers_create, !elem_of_app, !elem_of_cons. auto.
  - discriminate.
  - exact Hnum.
Defined.

(** X16. A ball column of the frame, the player's [height_cm] among
    them, goes to the numeric branch exactly when ball features are off;
    with ball features on it is a column of the ball branch instead. *)
Theorem ball_columns_branch
    (SHOOTING_STATS : list string) (random_state : Z)
    (cfg : DataConfig) (columns : list string) (c : string) :
  c ∈ ball_cols → c ∈ columns →
  "height_cm" ∈ ball_cols ∧
  (c ∈ num_cols cfg columns ↔ include_ball_features cfg = false) ∧
  (include_ball_features cfg = true →
   ∃ est sel,
     ("ball_pipe", est, sel)
     ∈ prep_transformers
         (_create_preprocessor SHOOTING_STATS random_state cfg columns) ∧
     c ∈ selected sel columns).
Proof.
  intros Hb Hc. split; [|split].
  - apply (bool_decide_unpack _). vm_compute. exact I.
  - by apply ball_cols_numeric.
  - intros Hon. rewrite prep_transformers_create, Hon.
    eexists ball_loc_pipe, (Cols _). split.
    + rewrite !elem_of_app, !elem_of_cons. auto 10.
    + cbn [selected]. rewrite !elem_of_app. auto.
Qed.

Lemma ball_columns_branch_witness :
  include_ball_features example_cfg = true ∧
  "height_cm" ∉ num_cols example_cfg ["height_cm"; "Weight"].
Proof.
  split; [reflexivity|].
  destruct (ball_columns_branch [] 0 example_cfg ["height_cm"; "Weight"]
              "height_cm") as (_ & Hnum & _).
  - apply (bool_decide_unpack _). vm_compute. exact I.
  - apply (bool_decide_unpack _). vm_compute. exact I.
  - intros Hin. apply Hnum in Hin. discriminate.
Defined.

(** X17. The preprocessor has a masking stage exactly when masking is
    configured. The stage then masks [is_possession_team_1] and, without
    PCA, the shooting statistics; with PCA, the columns of the transformed
    frame whose name starts with "pca", and nothing else. *)
Theorem mask_stage_columns
    (SHOOTING_STATS : list string) (random_state : Z)
    (cfg : DataConfig) (columns out_columns : list string) :
  (mask_non_possession_shooting_stats cfg = false →
   masked_columns
     (_create_preprocessor SHOOTING_STATS random_state cfg columns) = None) ∧
  (mask_non_possession_shooting_stats cfg = true →
   ∃ sel,
     masked_columns
       (_create_preprocessor SHOOTING_STATS random_state cfg columns)
     = Some sel ∧
     ∀ c, c ∈ selected sel out_columns ↔
          c = "is_possession_team_1" ∨
          (if use_pca_on_roster_cols cfg
           then c ∈ out_columns ∧ String.prefix "pca" c = true
           else c ∈ SHOOTING_STATS)).
Proof.
  rewrite masked_columns_create. split.
  - by intros ->.
  - intros ->. eexists. split; [done|]. apply elem_of_cols_to_mask.
Qed.

Lemma mask_stage_columns_witness :
  ∃ sel,
    masked_columns
      (_create_preprocessor ["shots"] 0 masking_cfg ["x"; "shots"])
    = Some sel ∧
    "pca0" ∈ selected sel ["pca0"; "pca1"; "x"; "shots"] ∧
    "shots" ∉ selected sel ["pca0"; "pca1"; "x"; "shots"].
Proof.
  destruct (mask_stage_columns ["shots"] 0 masking_cfg ["x"; "shots"]
              ["pca0"; "pca1"; "x"; "shots"]) as [_ Hon].
  destruct (Hon eq_refl) as (sel & Hsel & Hiff).
  exists sel. split; [exact Hsel|]. split.
  - apply Hiff. right. split; [|reflexivity].
    apply (bool_decide_unpack _). vm_compute. exact I.
  - intros [Heq|[_ Hpre]]%Hiff; discriminate.
Defined.

(** X19. The columns the branches of the preprocessor other than the
    numeric one select by name are columns of the derived table: when
    every raw row has the position columns [x] and [y] and a
    [playerRole], every derived row has a cell, possibly null, in each
    column of the categorical, player, goal and ball branches. *)
Theorem branch_columns_present {float : Type} `{FloatOps float}
    (X_GOAL_LEFT X_GOAL_RIGHT Y_GOAL : float)
    (SHOOTING_STATS : list string) (random_state : Z)
    (cfg : DataConfig) (raw out : DataFrame (float:=float))
    (columns : list string)
    (name : string) (est : estimator) (sel : column_selector) (c : string) :
  _prepare_dataframe X_GOAL_LEFT X_GOAL_RIGHT Y_GOAL cfg raw = Some out →
  (∀ r k, r ∈ raw → k ∈ ["x"; "y"; "playerRole"] → is_Some (r !! k)) →
  (name, est, sel)
  ∈ prep_transformers
      (_create_preprocessor SHOOTING_STATS random_state cfg columns) →
  name ≠ "num" →
  c ∈ selected sel columns →
  ∀ r', r' ∈ out → is_Some (r' !! c).
Proof.
  intros Hout Hraw Hin Hname Hc r' Hr'.
  exact (prepare_dataframe_branch_present _ _ _ _ _ _ _ _ _ _ _ _ _ _
           Hout Hraw Hin Hname Hc Hr').
Qed.

Lemma branch_columns_present_witness :
  ∃ out,
    event_features = Some out ∧
    ∀ r', r' ∈ out → is_Some (r' !! "z_ball").
Proof.
  assert (length <$> event_features = Some 2%nat) as Hlen
    by (vm_compute; reflexivity).
  destruct event_features as [out|] eqn:Hout; [|discriminate].
  exists out. split; [reflexivity|].
  unfold event_features in Hout.
  apply (branch_columns_present _ _ _ [] 0 example_cfg event_table out []
           "ball_pipe" ball_loc_pipe
           (Cols (pos_cols ++ angle_cols ++ velocity_cols ++ ball_cols))
           "z_ball" Hout).
  - assert (Forall (λ r : Row (float:=sym_float),
                      Forall (λ k, is_Some (r !! k)) ["x"; "y"; "playerRole"])
              event_table) as Hall
      by (apply (bool_decide_unpack _); vm_compute; exact I).
    intros r k Hr Hk. rewrite Forall_forall in Hall.
    specialize (Hall r Hr). rewrite Forall_forall in Hall. exact (Hall k Hk).
  - rewrite prep_transformers_create, !elem_of_app, !elem_of_cons.
    right. right. left.
  - discriminate.
  - apply (bool_decide_unpack _). vm_compute. exact I.
Defined.

(** ** The dataset object *)

(** X18. After a completed build, from any earlier state of the processed
    directory, constructing the dataset with split "train" loads the
    graphs converted from the transformed training partition, and with any
    other split the graphs of the validation partition; both read the
    feature names of the training conversion, and the two random flips
    are attached exactly for split "train" with augmentations on. *)
Theorem init_loads_split {float : Type} `{FloatOps float}
    (X_GOAL_LEFT X_GOAL_RIGHT Y_GOAL : float)
    (SHOOTING_STATS : list string) (random_state : Z)
    {fitted data_list : Type}
    (sk_fit : estimator → DataFrame (float:=float) → option fitted)
    (sk_transform : fitted → DataFrame (float:=float)
                    → option (DataFrame (float:=float)))
    (convert : DataFrame (float:=float) → option (data_list * list string))
    (cfg : DataConfig) (raw : DataFrame (float:=float))
    (s s' : build_state (float:=float) (fitted:=fitted)
              (data_list:=data_list)) :
  process X_GOAL_LEFT X_GOAL_RIGHT Y_GOAL SHOOTING_STATS random_state
    sk_fit sk_transform convert cfg raw s = Some (tt, s') →
  ∃ df train val st train_transformed val_transformed
      train_graphs val_graphs names val_names,
    _prepare_dataframe X_GOAL_LEFT X_GOAL_RIGHT Y_GOAL cfg raw = Some df ∧
    _split_by_worldcup_phase df (val_ratio cfg) = Some (train, val) ∧
    sk_transform st train = Some train_transformed ∧
    sk_transform st val = Some val_transformed ∧
    convert train_transformed = Some (train_graphs, names) ∧
    convert val_transformed = Some (val_graphs, val_names) ∧
    saved s' = saved s ++ [("train_data.pt", train_graphs);
                           ("val_data.pt", val_graphs)] ∧
    ∀ (split : string) (cfg' : DataConfig),
      __init__ split cfg' s'
      = Some {| data := if bool_decide (split = "train")
                        then train_graphs else val_graphs;
                feature_names := names;
                ds_transform :=
                  if bool_decide (split = "train") && use_augmentations cfg'
                  then Some [ RandomHorizontalFlip names (1 # 2);
                              RandomVerticalFlip names (1 # 2) ]
                  else None |}.
Proof.
  intros Hrun.
  destruct (process_Some _ _ _ _ _ _ _ _ _ _ _ _ Hrun)
    as (df & train & val & st & tt' & vt & [tg names] & [vg vnames]
        & Hdf & Hsplit & _ & Htt & Hvt & Htc & Hvc & Hsaved & Hnames).
  exists df, train, val, st, tt', vt, tg, vg, names, vnames.
  do 7 (split; [done|]).
  intros split cfg'.
  destruct (load_train_val _ _ _ _ Hsaved) as [Ha Hb].
  by apply init_Some.
Qed.

Lemma init_loads_split_witness :
  ∃ s',
    example_build_ids = Some (tt, s') ∧
    data <$> __init__ "train" example_cfg s'
    = Some [Some (VInt 1); Some (VInt 1)] ∧
    data <$> __init__ "val" example_cfg s'
    = Some [Some (VInt 2); Some (VInt 2)] ∧
    data <$> __init__ "test" example_cfg s'
    = Some [Some (VInt 2); Some (VInt 2)].
Proof.
  assert ((λ x, saved x.2) <$> example_build_ids
          = Some [("train_data.pt", [Some (VInt 1); Some (VInt 1)]);
                  ("val_data.pt", [Some (VInt 2); Some (VInt 2)])]) as Hfiles
    by (vm_compute; reflexivity).
  destruct example_build_ids as [[[] s']|] eqn:Hrun; [|discriminate].
  injection Hfiles as Hfiles.
  exists s'. split; [reflexivity|].
  unfold example_build_ids in Hrun.
  destruct (init_loads_split _ _ _ _ _ _ _ _ _ _ _ _ Hrun)
    as (df & train & val & st & tt' & vt & tg & vg & names & vnames
        & _ & _ & _ & _ & _ & _ & Hsaved & Hinit).
  simpl in Hsaved, Hfiles. rewrite Hfiles in Hsaved.
  injection Hsaved as <- <-.
  rewrite !Hinit. repeat split.
Defined.
